(** * agent-squad: session supervisor, checkout diff cache and registry persistence

  A shallow embedding of [session/instance.go], [session/storage.go] and
  the diff part of the [session/git] package, with the properties of the
  specification stated and settled against it.

  The Go code talks to git, tmux, the file system, the clock and a byte
  store.  Those collaborators are represented by a [World]: one oracle per
  external operation, each of which may answer differently depending on
  everything that happened before (the [History]).  Every external call is
  appended to the trace, so that statements such as "Remove is not invoked"
  or "exactly one write reaches the store" are statements about traces. *)

From Stdlib Require Import ZArith List String Ascii Bool Lia.
Import ListNotations.

Local Open Scope string_scope.
Local Open Scope list_scope.
Local Open Scope Z_scope.

(** ** Go base types *)

Module Go.

(** An [error] value is identified with its message ([err.Error()]);
    a possibly-nil error is an [option error]. *)
Definition error : Type := string.

(** The [(value, error)] return convention. *)
Inductive Result (A : Type) : Type :=
| Ok (a : A)
| Err (e : error).
Arguments Ok {A} a.
Arguments Err {A} e.

(** [int] and [int64]: 64-bit two's complement. *)
Definition int64_min : Z := - 2 ^ 63.
Definition int64_max : Z := 2 ^ 63 - 1.

Definition int64_range (z : Z) : Prop := int64_min <= z <= int64_max.

Definition wrap64 (z : Z) : Z := (z + 2 ^ 63) mod 2 ^ 64 - 2 ^ 63.

(** [x++] on an [int]. *)
Definition int_incr (x : Z) : Z := wrap64 (x + 1).

(** Clamp to the [int64] range, as [time.Time.Sub] does. *)
Definition sat64 (z : Z) : Z :=
  if z <? int64_min then int64_min
  else if int64_max <? z then int64_max
  else z.

(** [time.Duration]: a count of nanoseconds in an [int64]. *)
Definition Duration : Type := Z.
Definition Millisecond : Duration := 1000000.
Definition Second : Duration := 1000000000.

(** [time.Time]: the wall-clock instant in nanoseconds since
    January 1, year 1 (the zero [Time]), and the optional monotonic
    clock reading that [time.Now] attaches. *)
Record Time : Type := mkTime {
  abs_ns : Z;
  mono : option Z
}.

Definition zeroTime : Time := mkTime 0 None.

(** Nanoseconds from year 1 to the Unix epoch (62135596800 s). *)
Definition unix_epoch_ns : Z := 62135596800 * Second.

Definition IsZero (t : Time) : bool := abs_ns t =? 0.

(** [time.Unix(0, nsec)]. *)
Definition Unix0 (nsec : Z) : Time := mkTime (unix_epoch_ns + nsec) None.

(** [t.UnixNano()]; wraps when the instant does not fit. *)
Definition UnixNano (t : Time) : Z := wrap64 (abs_ns t - unix_epoch_ns).

(** [t.Sub(u)]: the monotonic readings when both instants carry one,
    else the wall clock; saturating at the ends of [Duration]. *)
Definition Sub (t u : Time) : Duration :=
  match mono t, mono u with
  | Some a, Some b => sat64 (a - b)
  | _, _ => sat64 (abs_ns t - abs_ns u)
  end.

(** A byte slice: [None] is the nil slice. *)
Definition Bytes : Type := option (list Byte.byte).

Definition bytes_of (b : Bytes) : list Byte.byte :=
  match b with Some l => l | None => [] end.

(** [len(b)]. *)
Definition len (b : Bytes) : nat := List.length (bytes_of b).

(** [b == nil]. *)
Definition is_nil (b : Bytes) : bool :=
  match b with None => true | Some _ => false end.

(** [bytes.Equal]: contents only, so nil equals the empty slice. *)
Definition bytes_Equal (a b : Bytes) : bool :=
  if list_eq_dec Byte.byte_eq_dec (bytes_of a) (bytes_of b) then true else false.

(** ** [strings] *)

Definition newline : ascii := "010"%char.

(** [strings.Split(s, "\n")]: the pieces between newlines, [n + 1] of
    them for [n] newlines. *)
Fixpoint Split_nl (s : string) : list string :=
  match s with
  | EmptyString => [EmptyString]
  | String c r =>
      if Ascii.eqb c newline then EmptyString :: Split_nl r
      else match Split_nl r with
           | [] => [String c EmptyString]
           | l :: ls => String c l :: ls
           end
  end.

(** [strings.HasPrefix(s, p)]. *)
Definition HasPrefix (s p : string) : bool := String.prefix p s.

(** [strings.Contains(s, sub)]. *)
Fixpoint Contains (s sub : string) : bool :=
  String.prefix sub s ||
  match s with
  | EmptyString => false
  | String _ r => Contains r sub
  end.

End Go.

Export Go.

(** ** The records of the [git] and [tmux] packages *)

Module Data.

Record DiffStats : Type := mkDiffStats {
  Content : string;
  Added : Z;
  Removed : Z;
  Error : option error
}.

(** [&DiffStats{}]. *)
Definition emptyStats : DiffStats := mkDiffStats "" 0 0 None.

Definition withError (d : DiffStats) (err : error) : DiffStats :=
  mkDiffStats (Content d) (Added d) (Removed d) (Some err).

(** Modelled from the spec: the declaration of the struct [git.GitWorktree]
    is in a file of the package that is not among the sources.  Its stored
    fields are the five of the serialized [worktree] record (repo path,
    worktree path, session name, branch name, base commit SHA), under the
    names the tests initialise them by; the cache fields are the ones
    [Diff] reads and writes ([lastDiff], a pointer, [None] for nil;
    [lastStatusSnapshot]; [lastDiffCheckedAt]). *)
Record GitWorktree : Type := mkGitWorktree {
  repoPath : string;
  worktreePath : string;
  sessionName : string;
  branchName : string;
  baseCommitSHA : string;
  lastDiff : option DiffStats;
  lastStatusSnapshot : string;
  lastDiffCheckedAt : Time
}.

(** Modelled from the spec: [tmux.TmuxSession] is the Pane Handle, whose
    implementation is outside the sources; the supervisor only holds it.
    It is kept as the name and program it was built from, and what the
    pane does is the [World]'s business. *)
Record TmuxSession : Type := mkTmuxSession {
  tmuxName : string;
  tmuxProgram : string
}.

(** [*fsnotify.Watcher], an opaque handle. *)
Definition Watcher : Type := nat.

(** [*time.Timer] as [time.AfterFunc] returns it: an armed one-shot timer. *)
Record Timer : Type := mkTimer {
  timerDelay : Duration
}.

(** [session.Status]. *)
Inductive Status : Type :=
| Running
| Ready
| Loading
| Paused.


(** The serialized session record ([InstanceData] and its parts). *)

Record GitWorktreeData : Type := mkGitWorktreeData {
  d_RepoPath : string;
  d_WorktreePath : string;
  d_SessionName : string;
  d_BranchName : string;
  d_BaseCommitSHA : string
}.

Record DiffStatsData : Type := mkDiffStatsData {
  d_Added : Z;
  d_Removed : Z;
  d_Content : string
}.

Record InstanceData : Type := mkInstanceData {
  data_Title : string;
  data_Path : string;
  data_Branch : string;
  data_Status : Status;
  data_Height : Z;
  data_Width : Z;
  data_CreatedAt : Time;
  data_UpdatedAt : Time;
  data_AutoYes : bool;
  data_Program : string;
  data_Worktree : GitWorktreeData;
  data_DiffStats : DiffStatsData
}.

End Data.

Export Data.

(** ** The outside world and the trace *)

Module Env.

(** One event per external call, with the answer it got.  [EvDiff] is the
    only event that is not an external call: it marks the supervisor
    invoking the Checkout Handle's [Diff]. *)
Inductive Event : Type :=
| EvGit (dir : string) (args : list string) (r : Result string)
| EvNow (t : Time)
| EvDiff (force : bool)
| EvNewGitWorktree (path title : string) (r : Result (GitWorktree * string))
| EvSetup (r : option error)
| EvCleanup (r : option error)
| EvRemove (r : option error)
| EvPrune (r : option error)
| EvIsDirty (r : Result bool)
| EvCommitChanges (msg : string) (r : option error)
| EvTmuxStart (cwd : string) (r : option error)
| EvTmuxRestore (r : option error)
| EvTmuxClose (r : option error)
| EvTmuxDetach (r : option error)
| EvStat (path : string) (r : option error)
| EvNewWatcher (r : Result Watcher)
| EvWatchAdd (root : string) (r : option error)
| EvWatcherSpawn
| EvWatcherCancel
| EvWatcherClose (r : option error)
| EvClipboard (text : string)
| EvAbs (path : string) (r : Result string)
| EvStoreWrite (data : Bytes) (r : option error)
| EvAfterFunc (d : Duration)
| EvTimerStop.

(** What happened so far, most recent event first. *)
Definition History : Type := list Event.

(** The collaborators.  Operations that act on the world take the history
    so far; [format_RFC822] ([Time.Format(time.RFC822)]) and [json_Marshal]
    are pure.  The checkout operations, which the [git] package implements
    in files that are not among the sources, may update the handle's own
    fields, so they return the handle as well.  [watcher_AddRecursive]
    stands for [addWatcherRecursive]: the walk over the directories below
    a root, [.git] apart, adding each to the watcher. *)
Record World : Type := mkWorld {
  runGitCommand : History -> string -> list string -> Result string;
  time_Now : History -> Time;
  git_NewGitWorktree : History -> string -> string -> Result (GitWorktree * string);
  wt_Setup : History -> GitWorktree -> option error * GitWorktree;
  wt_Cleanup : History -> GitWorktree -> option error * GitWorktree;
  wt_Remove : History -> GitWorktree -> option error * GitWorktree;
  wt_Prune : History -> GitWorktree -> option error * GitWorktree;
  wt_IsDirty : History -> GitWorktree -> Result bool;
  wt_CommitChanges : History -> GitWorktree -> string -> option error * GitWorktree;
  tmux_Start : History -> TmuxSession -> string -> option error;
  tmux_Restore : History -> TmuxSession -> option error;
  tmux_Close : History -> TmuxSession -> option error;
  tmux_DetachSafely : History -> TmuxSession -> option error;
  os_Stat : History -> string -> option error;
  fsnotify_NewWatcher : History -> Result Watcher;
  watcher_AddRecursive : History -> Watcher -> string -> option error;
  watcher_Close : History -> Watcher -> option error;
  filepath_Abs : History -> string -> Result string;
  store_SaveInstances : History -> Bytes -> option error;
  format_RFC822 : Time -> string;
  json_Marshal : list InstanceData -> Result (list Byte.byte)
}.

(** How a call ends: it returns, or the goroutine panics. *)
Inductive Res (A : Type) : Type :=
| Done (a : A)
| Panicked (msg : string).
Arguments Done {A} a.
Arguments Panicked {A} msg.

(** A computation over a state [S]: given the world, the history so far and
    the state, the outcome, the new state and the events it added (most
    recent first, like the history). *)
Definition M (S A : Type) : Type :=
  World -> History -> S -> Res A * S * list Event.

Definition ret {S A : Type} (a : A) : M S A :=
  fun _ _ s => (Done a, s, []).

Definition bind {S A B : Type} (m : M S A) (f : A -> M S B) : M S B :=
  fun w h s =>
    match m w h s with
    | (Done a, s1, e1) =>
        match f a w (e1 ++ h) s1 with
        | (r, s2, e2) => (r, s2, e2 ++ e1)
        end
    | (Panicked msg, s1, e1) => (Panicked msg, s1, e1)
    end.

Definition get {S : Type} : M S S :=
  fun _ _ s => (Done s, s, []).

Definition modify {S : Type} (f : S -> S) : M S unit :=
  fun _ _ s => (Done tt, f s, []).

Definition panic {S A : Type} (msg : string) : M S A :=
  fun _ _ s => (Panicked msg, s, []).

(** An external call: ask the oracle, log the answer. *)
Definition call {S R : Type} (ask : World -> History -> R) (ev : R -> Event) : M S R :=
  fun w h s => let r := ask w h in (Done r, s, [ev r]).

Definition emit {S : Type} (e : Event) : M S unit :=
  fun _ _ s => (Done tt, s, [e]).

(** Run a computation on a value of its own, leaving the caller's state. *)
Definition runOn {S T A : Type} (t : T) (m : M T A) : M S (A * T) :=
  fun w h s =>
    match m w h t with
    | (Done a, t', e) => (Done (a, t'), s, e)
    | (Panicked msg, _, e) => (Panicked msg, s, e)
    end.

(** A pure function of the world (formatting, encoding). *)
Definition ask {S R : Type} (f : World -> R) : M S R :=
  fun w _ s => (Done (f w), s, []).

(** [time.Now()]. *)
Definition now {S : Type} : M S Time :=
  call time_Now EvNow.

(** The three readings of a finished call: what it returned, the state it
    left, and the events it added in the order they happened. *)
Definition outcome {S A : Type} (x : Res A * S * list Event) : Res A := fst (fst x).
Definition final {S A : Type} (x : Res A * S * list Event) : S := snd (fst x).
Definition events {S A : Type} (x : Res A * S * list Event) : list Event := rev (snd x).

(** The history after a call that started from [h]. *)
Definition after {S A : Type} (h : History) (x : Res A * S * list Event) : History :=
  snd x ++ h.

End Env.

Export Env.

Declare Scope go_scope.
Delimit Scope go_scope with go.
Notation "x <- m ;; k" := (bind m (fun x => k))
  (at level 61, m at next level, right associativity) : go_scope.
Notation "m ;; k" := (bind m (fun _ => k))
  (at level 61, right associativity) : go_scope.
Local Open Scope go_scope.

(** [fmt.Errorf("<prefix>: %w", err)]. *)
Definition wrapErr (prefix : string) (err : error) : error :=
  (prefix ++ ": " ++ err)%string.

(** ** Package [git]: the diff with its status-snapshot cache *)

Module Git.

Definition IsEmpty (d : DiffStats) : bool :=
  (Added d =? 0) && (Removed d =? 0) && (Content d =? "")%string.

(** [cloneDiffStats] on a non-nil pointer: a copy of the struct. *)
Definition cloneDiffStats (src : DiffStats) : DiffStats :=
  mkDiffStats (Content src) (Added src) (Removed src) (Error src).

(** One iteration of the loop over the lines in [countDiffStats]. *)
Definition countLine (acc : Z * Z) (line : string) : Z * Z :=
  let '(added, removed) := acc in
  match line with
  | EmptyString => acc
  | String c _ =>
      if Ascii.eqb c "+" then
        if HasPrefix line "+++" then acc
        else (int_incr added, removed)
      else if Ascii.eqb c "-" then
        if HasPrefix line "---" then acc
        else (added, int_incr removed)
      else acc
  end.

Definition countDiffStats (content : string) : Z * Z :=
  if (content =? "")%string then (0, 0)
  else fold_left countLine (Split_nl content) (0, 0).

(** *** The counts as the specification words them *)

Definition starts_with (c : ascii) (line : string) : bool :=
  match line with
  | String c' _ => Ascii.eqb c' c
  | EmptyString => false
  end.

Definition nonempty (line : string) : bool :=
  negb (line =? "")%string.

(** A non-empty line that starts with [+] and does not start with [+++]. *)
Definition is_addition (line : string) : bool :=
  nonempty line && starts_with "+" line && negb (String.prefix "+++" line).

(** A non-empty line that starts with [-] and does not start with [---]. *)
Definition is_removal (line : string) : bool :=
  nonempty line && starts_with "-" line && negb (String.prefix "---" line).

(** A line holds no newline. *)
Fixpoint newline_free (line : string) : bool :=
  match line with
  | EmptyString => true
  | String c r => negb (Ascii.eqb c newline) && newline_free r
  end.

(** A text from its lines: the lines with a newline between each two. *)
Definition join_lines (lines : list string) : string :=
  String.concat (String newline "") lines.

(** [lines] are the lines of [content]: there is at least one (the empty
    text has one empty line), none holds a newline, and joined by
    newlines they give the text.  This says what the lines of a text are
    without splitting anything. *)
Definition lines_of (lines : list string) (content : string) : Prop :=
  lines <> [] /\ Forall (fun l => newline_free l = true) lines /\
  join_lines lines = content.

Definition spec_added (lines : list string) : nat :=
  List.length (filter is_addition lines).

Definition spec_removed (lines : list string) : nat :=
  List.length (filter is_removal lines).

(** *** The handle *)

(** Modelled from the spec: the accessors and the constructor from stored
    fields are in a file of the package that is not among the sources.
    Each accessor returns the field it names, and the constructor stores
    its five arguments and starts with an empty cache ([GetBranch] on a
    session whose handle was built with branch name [test-branch] returns
    [test-branch]). *)
Definition GetRepoPath (g : GitWorktree) : string := repoPath g.
Definition GetWorktreePath (g : GitWorktree) : string := worktreePath g.
Definition GetBranchName (g : GitWorktree) : string := branchName g.
Definition GetBaseCommitSHA (g : GitWorktree) : string := baseCommitSHA g.

Definition NewGitWorktreeFromStorage
    (repoPath worktreePath sessionName branchName baseCommitSHA : string) : GitWorktree :=
  mkGitWorktree repoPath worktreePath sessionName branchName baseCommitSHA
                None "" zeroTime.

Definition set_lastDiffCheckedAt (t : Time) (g : GitWorktree) : GitWorktree :=
  mkGitWorktree (repoPath g) (worktreePath g) (sessionName g) (branchName g)
                (baseCommitSHA g) (lastDiff g) (lastStatusSnapshot g) t.

Definition set_cache (snapshot : string) (d : option DiffStats) (g : GitWorktree) : GitWorktree :=
  mkGitWorktree (repoPath g) (worktreePath g) (sessionName g) (branchName g)
                (baseCommitSHA g) d snapshot (lastDiffCheckedAt g).

(** Modelled from the spec: [InvalidateDiffCache] is defined in a file of
    the [git] package that is not among the sources.  "An
    externally-triggered cache invalidation must clear both [lastDiff] and
    [last_snapshot]." *)
Definition InvalidateDiffCache (g : GitWorktree) : GitWorktree :=
  set_cache "" None g.

(** [g.runGitCommand(path, args...)]. *)
Definition git {S : Type} (dir : string) (args : list string) : M S (Result string) :=
  call (fun w h => runGitCommand w h dir args) (EvGit dir args).

(** The intent-to-add step of [Diff]: when the status lists untracked
    entries, [add -N .] and a second status.  [inl] is the early return
    with the error, [inr] the status signature to store. *)
Definition refreshUntracked (stats : DiffStats) (statusOutput : string)
  : M GitWorktree (DiffStats + string) :=
  if Contains statusOutput "?? " then
    g <- get ;;
    a <- git (worktreePath g) ["add"; "-N"; "."] ;;
    match a with
    | Err err => ret (inl (withError stats err))
    | Ok _ =>
        s <- git (worktreePath g) ["status"; "--porcelain"] ;;
        match s with
        | Err err => ret (inl (withError stats err))
        | Ok statusOutput' => ret (inr statusOutput')
        end
    end
  else ret (inr statusOutput).

(** [!force && g.lastDiff != nil && statusSignature == g.lastStatusSnapshot]:
    the cached stats when all three hold. *)
Definition cacheHit (force : bool) (statusSignature : string) (g : GitWorktree)
  : option DiffStats :=
  if negb force then
    match lastDiff g with
    | Some d => if (statusSignature =? lastStatusSnapshot g)%string then Some d else None
    | None => None
    end
  else None.

Definition Diff (force : bool) : M GitWorktree DiffStats :=
  let stats := emptyStats in
  g <- get ;;
  st <- git (worktreePath g) ["status"; "--porcelain"] ;;
  match st with
  | Err err => ret (withError stats err)
  | Ok statusOutput =>
      t <- now ;;
      modify (set_lastDiffCheckedAt t) ;;
      g <- get ;;
      match cacheHit force statusOutput g with
      | Some d => ret (cloneDiffStats d)
      | None =>
          u <- refreshUntracked stats statusOutput ;;
          match u with
          | inl failed => ret failed
          | inr statusSignature =>
              c <- git (worktreePath g) ["--no-pager"; "diff"; GetBaseCommitSHA g] ;;
              match c with
              | Err err => ret (withError stats err)
              | Ok content =>
                  let '(added, removed) := countDiffStats content in
                  let stats := mkDiffStats content added removed None in
                  modify (set_cache statusSignature (Some (cloneDiffStats stats))) ;;
                  ret stats
              end
          end
      end
  end.

End Git.

Export Git.

(** ** Package [session]: the supervisor *)

Module Session.

Definition Status_eqb (a b : Status) : bool :=
  match a, b with
  | Running, Running | Ready, Ready | Loading, Loading | Paused, Paused => true
  | _, _ => false
  end.

Definition diffRefreshInterval : Duration := 5 * Second.

(** [Instance].  The atomics are plain fields (one thread of control); the
    watcher context and its cancel function are modelled by whether they
    are set; the two mutexes and the wait group carry no data. *)
Record Instance : Type := mkInstance {
  Title : string;
  Path : string;
  Branch : string;
  Status_ : Status;
  Program : string;
  Height : Z;
  Width : Z;
  CreatedAt : Time;
  UpdatedAt : Time;
  AutoYes : bool;
  Prompt : string;
  diffStats : option DiffStats;
  diffDirty : bool;
  previewDirty : bool;
  lastDiffCheck : Z;
  diffWatcher : option Watcher;
  diffWatcherDisabled : bool;
  diffWatchCtx : bool;
  diffWatchCancel : bool;
  started : bool;
  tmuxSession : option TmuxSession;
  gitWorktree : option GitWorktree
}.

(** [&Instance{}]: every field at its zero value. *)
Definition zeroInstance : Instance :=
  mkInstance "" "" "" Running "" 0 0 zeroTime zeroTime false ""
             None false false 0 None false false false false None None.

(** *** Field updates *)

Definition set_Title (v : string) (i : Instance) : Instance :=
  mkInstance v (Path i) (Branch i) (Status_ i) (Program i) (Height i) (Width i)
    (CreatedAt i) (UpdatedAt i) (AutoYes i) (Prompt i) (diffStats i) (diffDirty i)
    (previewDirty i) (lastDiffCheck i) (diffWatcher i) (diffWatcherDisabled i)
    (diffWatchCtx i) (diffWatchCancel i) (started i) (tmuxSession i) (gitWorktree i).

Definition set_Branch (v : string) (i : Instance) : Instance :=
  mkInstance (Title i) (Path i) v (Status_ i) (Program i) (Height i) (Width i)
    (CreatedAt i) (UpdatedAt i) (AutoYes i) (Prompt i) (diffStats i) (diffDirty i)
    (previewDirty i) (lastDiffCheck i) (diffWatcher i) (diffWatcherDisabled i)
    (diffWatchCtx i) (diffWatchCancel i) (started i) (tmuxSession i) (gitWorktree i).

Definition set_Status (v : Status) (i : Instance) : Instance :=
  mkInstance (Title i) (Path i) (Branch i) v (Program i) (Height i) (Width i)
    (CreatedAt i) (UpdatedAt i) (AutoYes i) (Prompt i) (diffStats i) (diffDirty i)
    (previewDirty i) (lastDiffCheck i) (diffWatcher i) (diffWatcherDisabled i)
    (diffWatchCtx i) (diffWatchCancel i) (started i) (tmuxSession i) (gitWorktree i).

Definition set_diffStats (v : option DiffStats) (i : Instance) : Instance :=
  mkInstance (Title i) (Path i) (Branch i) (Status_ i) (Program i) (Height i) (Width i)
    (CreatedAt i) (UpdatedAt i) (AutoYes i) (Prompt i) v (diffDirty i)
    (previewDirty i) (lastDiffCheck i) (diffWatcher i) (diffWatcherDisabled i)
    (diffWatchCtx i) (diffWatchCancel i) (started i) (tmuxSession i) (gitWorktree i).

Definition set_diffDirty (v : bool) (i : Instance) : Instance :=
  mkInstance (Title i) (Path i) (Branch i) (Status_ i) (Program i) (Height i) (Width i)
    (CreatedAt i) (UpdatedAt i) (AutoYes i) (Prompt i) (diffStats i) v
    (previewDirty i) (lastDiffCheck i) (diffWatcher i) (diffWatcherDisabled i)
    (diffWatchCtx i) (diffWatchCancel i) (started i) (tmuxSession i) (gitWorktree i).

Definition set_previewDirty (v : bool) (i : Instance) : Instance :=
  mkInstance (Title i) (Path i) (Branch i) (Status_ i) (Program i) (Height i) (Width i)
    (CreatedAt i) (UpdatedAt i) (AutoYes i) (Prompt i) (diffStats i) (diffDirty i)
    v (lastDiffCheck i) (diffWatcher i) (diffWatcherDisabled i)
    (diffWatchCtx i) (diffWatchCancel i) (started i) (tmuxSession i) (gitWorktree i).

Definition set_lastDiffCheck (v : Z) (i : Instance) : Instance :=
  mkInstance (Title i) (Path i) (Branch i) (Status_ i) (Program i) (Height i) (Width i)
    (CreatedAt i) (UpdatedAt i) (AutoYes i) (Prompt i) (diffStats i) (diffDirty i)
    (previewDirty i) v (diffWatcher i) (diffWatcherDisabled i)
    (diffWatchCtx i) (diffWatchCancel i) (started i) (tmuxSession i) (gitWorktree i).

(** The four watcher fields at once: [diffWatcher], [diffWatcherDisabled],
    [diffWatchCtx], [diffWatchCancel]. *)
Definition set_watch (wa : option Watcher) (disabled ctx cancel : bool) (i : Instance) : Instance :=
  mkInstance (Title i) (Path i) (Branch i) (Status_ i) (Program i) (Height i) (Width i)
    (CreatedAt i) (UpdatedAt i) (AutoYes i) (Prompt i) (diffStats i) (diffDirty i)
    (previewDirty i) (lastDiffCheck i) wa disabled ctx cancel
    (started i) (tmuxSession i) (gitWorktree i).

Definition set_started (v : bool) (i : Instance) : Instance :=
  mkInstance (Title i) (Path i) (Branch i) (Status_ i) (Program i) (Height i) (Width i)
    (CreatedAt i) (UpdatedAt i) (AutoYes i) (Prompt i) (diffStats i) (diffDirty i)
    (previewDirty i) (lastDiffCheck i) (diffWatcher i) (diffWatcherDisabled i)
    (diffWatchCtx i) (diffWatchCancel i) v (tmuxSession i) (gitWorktree i).

Definition set_tmuxSession (v : option TmuxSession) (i : Instance) : Instance :=
  mkInstance (Title i) (Path i) (Branch i) (Status_ i) (Program i) (Height i) (Width i)
    (CreatedAt i) (UpdatedAt i) (AutoYes i) (Prompt i) (diffStats i) (diffDirty i)
    (previewDirty i) (lastDiffCheck i) (diffWatcher i) (diffWatcherDisabled i)
    (diffWatchCtx i) (diffWatchCancel i) (started i) v (gitWorktree i).

Definition set_gitWorktree (v : option GitWorktree) (i : Instance) : Instance :=
  mkInstance (Title i) (Path i) (Branch i) (Status_ i) (Program i) (Height i) (Width i)
    (CreatedAt i) (UpdatedAt i) (AutoYes i) (Prompt i) (diffStats i) (diffDirty i)
    (previewDirty i) (lastDiffCheck i) (diffWatcher i) (diffWatcherDisabled i)
    (diffWatchCtx i) (diffWatchCancel i) (started i) (tmuxSession i) v.

(** Modelled from the spec: [tmux.NewTmuxSession(name, program)], of the
    Pane Handle's package; it builds the handle and starts nothing. *)
Definition NewTmuxSession (name program : string) : TmuxSession :=
  mkTmuxSession name program.

(** *** Accessors and flags *)

Definition Started (i : Instance) : bool := started i.

Definition Paused_ (i : Instance) : bool := Status_eqb (Status_ i) Paused.

Definition SetStatus (status : Status) (i : Instance) : Instance :=
  set_Status status i.

Definition MarkPreviewDirty (i : Instance) : Instance :=
  set_previewDirty true i.

Definition IsPreviewDirty (i : Instance) : bool := previewDirty i.

Definition MarkDiffDirty (i : Instance) : Instance :=
  let i := set_diffDirty true i in
  match gitWorktree i with
  | Some g => set_gitWorktree (Some (InvalidateDiffCache g)) i
  | None => i
  end.

(** [GetBranch]: the branch, after syncing the field from the handle. *)
Definition GetBranch (i : Instance) : string * Instance :=
  match gitWorktree i with
  | Some g => (GetBranchName g, set_Branch (GetBranchName g) i)
  | None => (Branch i, i)
  end.

Definition GetDiffStats (i : Instance) : option DiffStats := diffStats i.

(** [combineErrors]. *)
Definition combineErrors (errs : list error) : option error :=
  match errs with
  | [] => None
  | [e] => Some e
  | _ =>
      Some (fold_left (fun errMsg err => (errMsg ++ String newline "  - " ++ err)%string)
                      errs "multiple cleanup errors occurred:")
  end.

(** [errs = append(errs, fmt.Errorf("<prefix>: %w", err))] when [err != nil]. *)
Definition appendErr (errs : list error) (prefix : string) (r : option error) : list error :=
  match r with
  | Some err => errs ++ [wrapErr prefix err]
  | None => errs
  end.

(** *** Calls on the two handles

    A method called through a nil handle panics.  Logging ([log.ErrorLog],
    [log.WarningLog], [log.InfoLog]) is left out: it does not touch the
    supervisor's state. *)

Definition nilHandle : string := "invalid memory address or nil pointer dereference".

(** A checkout operation that may update the handle. *)
Definition onWorktree
    (op : World -> History -> GitWorktree -> option error * GitWorktree)
    (ev : option error -> Event) : M Instance (option error) :=
  fun w h i =>
    match gitWorktree i with
    | None => (Panicked nilHandle, i, [])
    | Some g =>
        let '(r, g') := op w h g in
        (Done r, set_gitWorktree (Some g') i, [ev r])
    end.

(** [i.gitWorktree.IsDirty()]. *)
Definition worktreeIsDirty : M Instance (Result bool) :=
  fun w h i =>
    match gitWorktree i with
    | None => (Panicked nilHandle, i, [])
    | Some g => let r := wt_IsDirty w h g in (Done r, i, [EvIsDirty r])
    end.

(** [i.gitWorktree.GetWorktreePath()] and [GetBranchName()]. *)
Definition worktreePathOf : M Instance string :=
  fun _ _ i =>
    match gitWorktree i with
    | None => (Panicked nilHandle, i, [])
    | Some g => (Done (GetWorktreePath g), i, [])
    end.

Definition branchNameOf : M Instance string :=
  fun _ _ i =>
    match gitWorktree i with
    | None => (Panicked nilHandle, i, [])
    | Some g => (Done (GetBranchName g), i, [])
    end.

(** A pane operation. *)
Definition onTmux
    (op : World -> History -> TmuxSession -> option error)
    (ev : option error -> Event) : M Instance (option error) :=
  fun w h i =>
    match tmuxSession i with
    | None => (Panicked nilHandle, i, [])
    | Some t => let r := op w h t in (Done r, i, [ev r])
    end.

(** [i.gitWorktree.Diff(force)]: the invocation is logged, then [Diff]
    runs on the handle (and panics on its first field access if the
    receiver is nil). *)
Definition worktreeDiff (force : bool) : M Instance DiffStats :=
  emit (EvDiff force) ;;
  (fun w h i =>
     match gitWorktree i with
     | None => (Panicked nilHandle, i, [])
     | Some g =>
         match Diff force w h g with
         | (r, g', e) => (r, set_gitWorktree (Some g') i, e)
         end
     end).

(** *** The diff watcher *)

Definition stopDiffWatcher : M Instance (option error) :=
  i <- get ;;
  (if diffWatchCancel i then emit EvWatcherCancel else ret tt) ;;
  errs <- match diffWatcher i with
          | Some wa =>
              r <- call (fun w h => watcher_Close w h wa) EvWatcherClose ;;
              ret (match r with Some err => [err] | None => [] end)
          | None => ret []
          end ;;
  modify (fun i => set_watch None (diffWatcherDisabled i) false false i) ;;
  ret (combineErrors errs).

Definition startDiffWatcher : M Instance (option error) :=
  i <- get ;;
  match gitWorktree i with
  | None => ret (Some "git worktree not initialized")
  | Some g =>
      let worktreePath := GetWorktreePath g in
      if (worktreePath =? "")%string then ret (Some "worktree path not set")
      else
        (match diffWatcher i with
         | Some _ => stopDiffWatcher ;; ret tt
         | None => ret tt
         end) ;;
        nw <- call fsnotify_NewWatcher EvNewWatcher ;;
        match nw with
        | Err _ =>
            modify (fun i => set_watch (diffWatcher i) true (diffWatchCtx i) (diffWatchCancel i) i) ;;
            modify MarkDiffDirty ;;
            ret None
        | Ok watcher =>
            modify (set_watch (Some watcher) false true true) ;;
            a <- call (fun w h => watcher_AddRecursive w h watcher worktreePath)
                      (EvWatchAdd worktreePath) ;;
            match a with
            | Some _ =>
                emit EvWatcherCancel ;;
                call (fun w h => watcher_Close w h watcher) EvWatcherClose ;;
                modify (set_watch None true false false) ;;
                modify MarkDiffDirty ;;
                ret None
            | None =>
                emit EvWatcherSpawn ;;
                modify MarkDiffDirty ;;
                ret None
            end
        end
  end.

(** *** Lifecycle *)

Definition Kill : M Instance (option error) :=
  i <- get ;;
  if negb (started i) then ret None
  else
    r1 <- stopDiffWatcher ;;
    let errs := appendErr [] "failed to stop diff watcher" r1 in
    i <- get ;;
    r2 <- match tmuxSession i with
          | Some _ => onTmux tmux_Close EvTmuxClose
          | None => ret None
          end ;;
    let errs := appendErr errs "failed to close tmux session" r2 in
    r3 <- match gitWorktree i with
          | Some _ => onWorktree wt_Cleanup EvCleanup
          | None => ret None
          end ;;
    let errs := appendErr errs "failed to cleanup git worktree" r3 in
    ret (combineErrors errs).

(** The tail of [Start] after a successful setup. *)
Definition markStarted (i : Instance) : Instance :=
  SetStatus Running (set_lastDiffCheck 0 (MarkDiffDirty (MarkPreviewDirty i))).

(** The part of [Start] that runs under the deferred cleanup; its result is
    [setupErr]. *)
Definition startBody (firstTimeSetup : bool) : M Instance (option error) :=
  r <- (if negb firstTimeSetup then
          r <- onTmux tmux_Restore EvTmuxRestore ;;
          match r with
          | Some err => ret (Some (wrapErr "failed to restore existing session" err))
          | None => modify (fun i => snd (GetBranch i)) ;; ret None
          end
        else
          r <- onWorktree wt_Setup EvSetup ;;
          match r with
          | Some err => ret (Some (wrapErr "failed to setup git worktree" err))
          | None =>
              cwd <- worktreePathOf ;;
              r <- onTmux (fun w h t => tmux_Start w h t cwd) (EvTmuxStart cwd) ;;
              match r with
              | Some err =>
                  c <- onWorktree wt_Cleanup EvCleanup ;;
                  let err := match c with
                             | Some cleanupErr =>
                                 (err ++ " (cleanup error: " ++ cleanupErr ++ ")")%string
                             | None => err
                             end in
                  ret (Some (wrapErr "failed to start new session" err))
              | None => ret None
              end
          end) ;;
  match r with
  | Some err => ret (Some err)
  | None =>
      w <- startDiffWatcher ;;
      match w with
      | Some err => ret (Some (wrapErr "failed to initialize diff watcher" err))
      | None => modify markStarted ;; ret None
      end
  end.

(** The pane [Start] works with: the one already set, else a new one. *)
Definition sessionOrNew (i : Instance) : TmuxSession :=
  match tmuxSession i with
  | Some t => t
  | None => NewTmuxSession (Title i) (Program i)
  end.

(** [Start].  The deferred function runs [Kill] when [setupErr] is set and
    sets [started] otherwise; the value returned is the one [return
    setupErr] evaluated before the deferred function ran. *)
Definition Start (firstTimeSetup : bool) : M Instance (option error) :=
  i <- get ;;
  if (Title i =? "")%string then ret (Some "instance title cannot be empty")
  else
    let tmuxSession := sessionOrNew i in
    modify (set_tmuxSession (Some tmuxSession)) ;;
    r <- (if firstTimeSetup then
            g <- call (fun w h => git_NewGitWorktree w h (Path i) (Title i))
                      (EvNewGitWorktree (Path i) (Title i)) ;;
            match g with
            | Err err => ret (Some (wrapErr "failed to create git worktree" err))
            | Ok (gitWorktree, branchName) =>
                modify (set_gitWorktree (Some gitWorktree)) ;;
                modify (set_Branch branchName) ;;
                ret None
            end
          else ret None) ;;
    match r with
    | Some err => ret (Some err)
    | None =>
        setupErr <- startBody firstTimeSetup ;;
        match setupErr with
        | Some _ => Kill ;; ret setupErr
        | None => modify (set_started true) ;; ret None
        end
    end.

(** [fmt.Sprintf("[agentsquad] update from '%s' on %s (paused)", title, when)]. *)
Definition pauseCommitMsg (title when : string) : string :=
  ("[agentsquad] update from '" ++ title ++ "' on " ++ when ++ " (paused)")%string.

(** The commit step of [Pause].  [inl] is the early return of the whole
    function, [inr] the errors collected so far. *)
Definition pauseCommit (errs : list error) : M Instance (option error + list error) :=
  d <- worktreeIsDirty ;;
  match d with
  | Err err => ret (inr (appendErr errs "failed to check if worktree is dirty" (Some err)))
  | Ok true =>
      i <- get ;;
      t <- now ;;
      when <- ask (fun w => format_RFC822 w t) ;;
      let commitMsg := pauseCommitMsg (Title i) when in
      r <- onWorktree (fun w h g => wt_CommitChanges w h g commitMsg)
                      (EvCommitChanges commitMsg) ;;
      match r with
      | Some err => ret (inl (combineErrors (appendErr errs "failed to commit changes" (Some err))))
      | None => ret (inr errs)
      end
  | Ok false => ret (inr errs)
  end.

(** The removal step of [Pause]: only when the working copy is on disk. *)
Definition pauseRemove (errs : list error) : M Instance (option error + list error) :=
  p <- worktreePathOf ;;
  st <- call (fun w h => os_Stat w h p) (EvStat p) ;;
  match st with
  | Some _ => ret (inr errs)
  | None =>
      r <- onWorktree wt_Remove EvRemove ;;
      match r with
      | Some err => ret (inl (combineErrors (appendErr errs "failed to remove git worktree" (Some err))))
      | None =>
          r <- onWorktree wt_Prune EvPrune ;;
          match r with
          | Some err => ret (inl (combineErrors (appendErr errs "failed to prune git worktrees" (Some err))))
          | None => ret (inr errs)
          end
      end
  end.

Definition Pause : M Instance (option error) :=
  i <- get ;;
  if negb (started i) then ret (Some "cannot pause instance that has not been started")
  else if Status_eqb (Status_ i) Paused then ret (Some "instance is already paused")
  else
    r <- stopDiffWatcher ;;
    let errs := appendErr [] "failed to stop diff watcher" r in
    c <- pauseCommit errs ;;
    match c with
    | inl early => ret early
    | inr errs =>
        r <- onTmux tmux_DetachSafely EvTmuxDetach ;;
        let errs := appendErr errs "failed to detach tmux session" r in
        rm <- pauseRemove errs ;;
        match rm with
        | inl early => ret early
        | inr errs =>
            match combineErrors errs with
            | Some err => ret (Some err)
            | None =>
                modify (SetStatus Paused) ;;
                b <- branchNameOf ;;
                emit (EvClipboard b) ;;
                ret None
            end
        end
    end.

(** *** The diff refresh *)

(** The decision of [UpdateDiffStats] once the dirty flag has been swapped
    out: [Some force] to refresh, [None] to return. *)
Definition refreshDecision (dirty watcherDisabled : bool) (now : Time) (lastDiffCheck : Z)
  : option bool :=
  if dirty then Some watcherDisabled
  else if IsZero now then Some true
  else
    let last := Unix0 lastDiffCheck in
    if IsZero last || (diffRefreshInterval <=? Sub now last) then Some true
    else None.

(** What [UpdateDiffStats] does with the stats [Diff] returned. *)
Definition recordDiff (now : Time) (stats : DiffStats) : M Instance (option error) :=
  match Error stats with
  | Some err =>
      if Contains err "base commit SHA not set" then
        modify (set_diffStats None) ;;
        modify MarkDiffDirty ;;
        ret None
      else
        modify MarkDiffDirty ;;
        ret (Some (wrapErr "failed to get diff stats" err))
  | None =>
      modify (set_diffStats (Some stats)) ;;
      modify (set_lastDiffCheck (UnixNano now)) ;;
      ret None
  end.

Definition UpdateDiffStats (now : Time) : M Instance (option error) :=
  i <- get ;;
  if negb (started i) then modify (set_diffStats None) ;; ret None
  else if Status_eqb (Status_ i) Paused then ret None
  else
    let dirty := diffDirty i in
    modify (set_diffDirty false) ;;
    match refreshDecision dirty (diffWatcherDisabled i) now (lastDiffCheck i) with
    | None => ret None
    | Some force =>
        stats <- worktreeDiff force ;;
        recordDiff now stats
    end.

(** *** Construction and the serialized form *)

Record InstanceOptions : Type := mkInstanceOptions {
  opt_Title : string;
  opt_Path : string;
  opt_Program : string;
  opt_AutoYes : bool
}.

Definition NewInstance {S : Type} (opts : InstanceOptions) : M S (Result Instance) :=
  t <- now ;;
  a <- call (fun w h => filepath_Abs w h (opt_Path opts)) (EvAbs (opt_Path opts)) ;;
  match a with
  | Err err => ret (Err (wrapErr "failed to get absolute path" err))
  | Ok absPath =>
      ret (Ok (mkInstance (opt_Title opts) absPath "" Ready (opt_Program opts) 0 0 t t
                 false "" None true true 0 None false false false false None None))
  end.

Definition ToInstanceData {S : Type} (i : Instance) : M S InstanceData :=
  t <- now ;;
  ret (mkInstanceData (Title i) (Path i) (Branch i) (Status_ i) (Height i) (Width i)
         (CreatedAt i) t (AutoYes i) (Program i)
         (match gitWorktree i with
          | Some g => mkGitWorktreeData (GetRepoPath g) (GetWorktreePath g) (Title i)
                        (GetBranchName g) (GetBaseCommitSHA g)
          | None => mkGitWorktreeData "" "" "" "" ""
          end)
         (match diffStats i with
          | Some d => mkDiffStatsData (Added d) (Removed d) (Content d)
          | None => mkDiffStatsData 0 0 ""
          end)).

(** The struct literal of [FromInstanceData] and the three stores that
    follow it. *)
Definition instanceOfData (data : InstanceData) : Instance :=
  mkInstance (data_Title data) (data_Path data) (data_Branch data) (data_Status data)
    (data_Program data) (data_Height data) (data_Width data)
    (data_CreatedAt data) (data_UpdatedAt data) false ""
    (Some (mkDiffStats (d_Content (data_DiffStats data)) (d_Added (data_DiffStats data))
             (d_Removed (data_DiffStats data)) None))
    true true 0 None false false false false None
    (Some (NewGitWorktreeFromStorage
             (d_RepoPath (data_Worktree data)) (d_WorktreePath (data_Worktree data))
             (d_SessionName (data_Worktree data)) (d_BranchName (data_Worktree data))
             (d_BaseCommitSHA (data_Worktree data)))).

Definition FromInstanceData {S : Type} (data : InstanceData) : M S (Result Instance) :=
  let instance := instanceOfData data in
  if Paused_ instance then
    let instance := set_started true instance in
    let instance :=
      set_tmuxSession (Some (NewTmuxSession (Title instance) (Program instance))) instance in
    ret (Ok (snd (GetBranch instance)))
  else
    r <- runOn instance (Start false) ;;
    match r with
    | (Some err, _) => ret (Err err)
    | (None, instance) => ret (Ok instance)
    end.

(** The persistence round trip of one session: to the serialized record
    and back. *)
Definition roundTrip {S : Type} (i : Instance) : M S (Result Instance) :=
  data <- ToInstanceData i ;;
  FromInstanceData data.

(** "Title, path, branch, status, height, width, program and auto_yes
    equal the original's." *)
Definition sameSerializedFields (i j : Instance) : Prop :=
  Title j = Title i /\ Path j = Path i /\ Branch j = Branch i /\
  Status_ j = Status_ i /\ Height j = Height i /\ Width j = Width i /\
  Program j = Program i /\ AutoYes j = AutoYes i.

(** ** Package [session]: the registry's persistence *)

(** [Storage].  The byte store behind [state] is the [World]'s
    [store_SaveInstances]. *)
Record Storage : Type := mkStorage {
  lastSavedData : Bytes;
  lastSaveTime : Time;
  debounceInterval : Duration;
  pendingData : Bytes;
  debounceTimer : option Timer
}.

Definition NewStorage : Storage :=
  mkStorage None zeroTime (5 * Second) None None.

Definition cloneBytes (src : Bytes) : Bytes :=
  if (len src =? 0)%nat then None else Some (bytes_of src).

Definition writeLocked (data : Bytes) : M Storage (option error) :=
  let clone := cloneBytes data in
  call (fun w h => store_SaveInstances w h clone) (EvStoreWrite clone).

(** [s.debounceTimer.Stop(); s.debounceTimer = nil] when a timer is set. *)
Definition stopTimer : M Storage unit :=
  s <- get ;;
  match debounceTimer s with
  | Some _ =>
      emit EvTimerStop ;;
      modify (fun s => mkStorage (lastSavedData s) (lastSaveTime s) (debounceInterval s)
                         (pendingData s) None)
  | None => ret tt
  end.

Definition trackImmediateSave (data : Bytes) (t : Time) : M Storage unit :=
  modify (fun s => mkStorage (cloneBytes data) t (debounceInterval s) None (debounceTimer s)) ;;
  stopTimer.

(** The loop of [SaveInstances] over the sessions: the records of the
    started ones, in order. *)
Fixpoint collectData {S : Type} (instances : list Instance) (data : list InstanceData)
  : M S (list InstanceData) :=
  match instances with
  | [] => ret data
  | instance :: rest =>
      if Started instance then
        d <- ToInstanceData instance ;;
        collectData rest (data ++ [d])
      else collectData rest data
  end.

(** [SaveInstances] from the lock on, with the bytes [json.Marshal] gave. *)
Definition saveLocked (jsonData : Bytes) : M Storage (option error) :=
  s <- get ;;
  if bytes_Equal jsonData (lastSavedData s) && is_nil (pendingData s) then ret None
  else
    t <- now ;;
    if IsZero (lastSaveTime s) || (debounceInterval s <=? Sub t (lastSaveTime s)) then
      r <- writeLocked jsonData ;;
      match r with
      | Some err => ret (Some err)
      | None => trackImmediateSave jsonData t ;; ret None
      end
    else
      modify (fun s => mkStorage (lastSavedData s) (lastSaveTime s) (debounceInterval s)
                         (cloneBytes jsonData) (debounceTimer s)) ;;
      (match debounceTimer s with
       | None =>
           let delay := wrap64 (debounceInterval s - Sub t (lastSaveTime s)) in
           let delay := if delay <? Second then Second else delay in
           emit (EvAfterFunc delay) ;;
           modify (fun s => mkStorage (lastSavedData s) (lastSaveTime s) (debounceInterval s)
                              (pendingData s) (Some (mkTimer delay)))
       | Some _ => ret tt
       end) ;;
      ret None.

(** The first half of [SaveInstances]: the records of the started
    sessions, marshalled. *)
Definition serialize {S : Type} (instances : list Instance) : M S (Result (list Byte.byte)) :=
  data <- collectData instances [] ;;
  ask (fun w => json_Marshal w data).

Definition SaveInstances (instances : list Instance) : M Storage (option error) :=
  j <- serialize instances ;;
  match j with
  | Err err => ret (Some (wrapErr "failed to marshal instances" err))
  | Ok jsonData => saveLocked (Some jsonData)
  end.

Definition Flush : M Storage (option error) :=
  s <- get ;;
  if (len (pendingData s) =? 0)%nat then ret None
  else
    let data := cloneBytes (pendingData s) in
    r <- writeLocked data ;;
    match r with
    | Some err => ret (Some err)
    | None =>
        t <- now ;;
        modify (fun s => mkStorage data t (debounceInterval s) None (debounceTimer s)) ;;
        stopTimer ;;
        ret None
    end.

(** The timer's callback. *)
Definition flushPending : M Storage unit :=
  s <- get ;;
  if (len (pendingData s) =? 0)%nat then
    modify (fun s => mkStorage (lastSavedData s) (lastSaveTime s) (debounceInterval s)
                       (pendingData s) None)
  else
    let data := cloneBytes (pendingData s) in
    r <- writeLocked data ;;
    match r with
    | Some _ =>
        emit (EvAfterFunc (debounceInterval s)) ;;
        modify (fun s => mkStorage (lastSavedData s) (lastSaveTime s) (debounceInterval s)
                           (pendingData s) (Some (mkTimer (debounceInterval s))))
    | None =>
        t <- now ;;
        modify (fun s => mkStorage data t (debounceInterval s) None None)
    end.

End Session.

Export Session.

(** ** Reading traces *)

(** The [force] arguments of the [Diff] invocations in a trace. *)
Definition diffCalls (evs : list Event) : list bool :=
  flat_map (fun e => match e with EvDiff force => [force] | _ => [] end) evs.

(** The payloads of the writes to the byte store in a trace. *)
Definition storeWrites (evs : list Event) : list Bytes :=
  flat_map (fun e => match e with EvStoreWrite data _ => [data] | _ => [] end) evs.

(** The status command of [Diff]. *)
Definition statusArgs : list string := ["status"; "--porcelain"].

(** A trace that only reads the clock. *)
Definition onlyClock (evs : list Event) : Prop :=
  forall e, In e evs -> exists t, e = EvNow t.

(** The bytes of the lines of a text, newlines apart. *)
Fixpoint total_length (ls : list string) : nat :=
  match ls with
  | [] => 0%nat
  | l :: r => (String.length l + total_length r)%nat
  end.

(** ** Concrete worlds and sessions *)

Module Samples.

Definition nl : string := String newline "".

Definition sampleDiff : string :=
  String.concat nl
    ["--- a/file.txt"; "+++ b/file.txt"; "@@ -1 +1,2 @@"; " original";
     "-gone"; "+change-one"; "+change-two"; ""].

(** git as the tests see it: one modified file. *)
Definition sampleGit (args : list string) : Result string :=
  match args with
  | "status" :: _ => Ok " M file.txt"
  | "add" :: _ => Ok ""
  | "--no-pager" :: _ => Ok sampleDiff
  | _ => Err "unknown git command"
  end.

Definition brokenGit (args : list string) : Result string :=
  Err "fatal: not a git repository".

(** A clock that advances one millisecond per event. *)
Definition sampleClock (h : History) : Time :=
  mkTime (unix_epoch_ns + 1700000000 * Second + Z.of_nat (List.length h) * Millisecond)
         (Some (Z.of_nat (List.length h) * Millisecond)).

(** A toy encoder: the bytes depend on the number of records only. *)
Definition sampleMarshal (data : list InstanceData) : Result (list Byte.byte) :=
  Ok (Byte.x5b :: repeat Byte.x7b (List.length data) ++ [Byte.x5d]).

(** A world in which everything works, except as the four arguments say:
    what git answers, whether the checkout is dirty, what committing and
    what writing to the byte store return. *)
Definition sampleWorld (gitc : list string -> Result string) (dirty : Result bool)
    (commit store : option error) : World :=
  mkWorld
    (fun _ _ args => gitc args)
    sampleClock
    (fun _ path title =>
       Ok (NewGitWorktreeFromStorage path (path ++ "/" ++ title)%string title title "", title))
    (fun _ g => (None, g)) (fun _ g => (None, g)) (fun _ g => (None, g)) (fun _ g => (None, g))
    (fun _ _ => dirty)
    (fun _ g _ => (commit, g))
    (fun _ _ _ => None) (fun _ _ => None) (fun _ _ => None) (fun _ _ => None)
    (fun _ _ => None)
    (fun _ => Ok 1%nat) (fun _ _ _ => None) (fun _ _ => None)
    (fun _ p => Ok p)
    (fun _ _ => store)
    (fun _ => "01 Jan 25 00:00 UTC")
    sampleMarshal.

Definition calmWorld : World := sampleWorld sampleGit (Ok false) None None.

Definition commitFailsWorld : World :=
  sampleWorld sampleGit (Ok true) (Some "nothing to commit") None.

Definition storeFailsWorld : World :=
  sampleWorld sampleGit (Ok false) None (Some "disk full").

Definition gitFailsWorld : World := sampleWorld brokenGit (Ok false) None None.

Definition sampleHandle : GitWorktree :=
  NewGitWorktreeFromStorage "/repo" "/repo/wt" "test-session" "test-branch" "abc123".

Definition cachedStats : DiffStats := mkDiffStats "cached" 1 0 None.

(** The handle after a first [Diff]: stats cached under the status seen. *)
Definition cachedHandle : GitWorktree :=
  set_cache " M file.txt" (Some cachedStats) sampleHandle.

Definition sampleOptions : InstanceOptions :=
  mkInstanceOptions "example" "/repo" "claude" true.

(** A started session that is waiting for input, as the tests build them. *)
Definition readyInstance : Instance :=
  mkInstance "test-instance" "/repo" "old-branch" Ready "claude" 24 80
    (Unix0 0) (Unix0 0) true "" None false false 0 None false false false
    true (Some (NewTmuxSession "test-instance" "claude")) (Some cachedHandle).

Definition runningInstance : Instance := set_Status Running readyInstance.

(** What the round trip through the serialized record makes of
    [readyInstance] in [calmWorld]. *)
Definition restoredInstance : Instance :=
  Eval vm_compute in
    match outcome (roundTrip (S := unit) readyInstance calmWorld [] tt) with
    | Done (Ok j) => j
    | _ => zeroInstance
    end.

Definition pausedInstance : Instance := set_Status Paused readyInstance.

(** Six seconds after the Unix epoch. *)
Definition sixSeconds : Time := Unix0 (6 * Second).

Definition jsonEmptyList : list Byte.byte := [Byte.x5b; Byte.x5d].

(** A registry that saved something else a moment ago (one event back on
    [sampleClock]) and has the five-second debounce. *)
Definition recentStorage : Storage :=
  mkStorage (Some [Byte.x5b; Byte.x7b; Byte.x5d]) (sampleClock []) (5 * Second) None None.

(** The registry of the debounce test: nothing saved yet, 50 ms debounce. *)
Definition testStorage : Storage :=
  mkStorage None zeroTime (50 * Millisecond) None None.

(** A registry with a deferred write. *)
Definition pendingStorage : Storage :=
  mkStorage None (sampleClock []) (5 * Second) (Some jsonEmptyList) (Some (mkTimer (5 * Second))).

End Samples.

Export Samples.

(** ** Package [session]: more of the supervisor and of the registry *)

Module Ops.

(** A read of the world that leaves no trace. *)
Definition probe {S R : Type} (f : History -> R) : M S R :=
  fun _ h s => (Done (f h), s, []).

Definition set_UpdatedAt (v : Time) (i : Instance) : Instance :=
  mkInstance (Title i) (Path i) (Branch i) (Status_ i) (Program i) (Height i) (Width i)
    (CreatedAt i) v (AutoYes i) (Prompt i) (diffStats i) (diffDirty i)
    (previewDirty i) (lastDiffCheck i) (diffWatcher i) (diffWatcherDisabled i)
    (diffWatchCtx i) (diffWatchCancel i) (started i) (tmuxSession i) (gitWorktree i).

(** [SetTitle]: the error and the session. *)
Definition SetTitle (title : string) (i : Instance) : option error * Instance :=
  if started i then (Some "cannot change title of a started instance", i)
  else (None, set_Title title i).

Section Probes.

(** Three operations of the collaborators, implemented outside the
    sources, only read the world: whether the pane's session exists
    ([DoesSessionExist]), whether the branch is checked out in the host
    repository ([IsBranchCheckedOut]), and what the byte store holds
    ([GetInstances]).  They answer from the history and are not logged. *)
Variable tmux_DoesSessionExist : History -> TmuxSession -> bool.
Variable wt_IsBranchCheckedOut : History -> GitWorktree -> Result bool.
Variable store_GetInstances : History -> Bytes.

(** [json.Unmarshal] into a slice of records. *)
Variable json_Unmarshal : Bytes -> Result (list InstanceData).

(** The tail of [ensureTmuxSession] after the pane was started. *)
Definition markRestarted (t : Time) (i : Instance) : Instance :=
  set_UpdatedAt t
    (SetStatus Running (set_lastDiffCheck 0 (MarkDiffDirty (MarkPreviewDirty i)))).

Definition ensureTmuxSession : M Instance (option error) :=
  i <- get ;;
  if negb (started i) then
    ret (Some "cannot ensure tmux session for instance that has not been started")
  else if Status_eqb (Status_ i) Paused then
    ret (Some "cannot ensure tmux session for paused instance")
  else
    match tmuxSession i with
    | None => ret (Some "tmux session not initialized")
    | Some t =>
        exists_ <- probe (fun h => tmux_DoesSessionExist h t) ;;
        if (exists_ : bool) then ret None
        else
          let worktreePath :=
            match gitWorktree i with
            | Some g => GetWorktreePath g
            | None => ""
            end in
          if (worktreePath =? "")%string then
            ret (Some "worktree path not set; resume the instance before attaching")
          else
            st <- call (fun w h => os_Stat w h worktreePath) (EvStat worktreePath) ;;
            match st with
            | Some err =>
                ret (Some ("worktree path " ++ worktreePath ++ " unavailable: " ++ err)%string)
            | None =>
                r <- onTmux (fun w h t => tmux_Start w h t worktreePath)
                            (EvTmuxStart worktreePath) ;;
                match r with
                | Some err => ret (Some (wrapErr "failed to start new tmux session" err))
                | None =>
                    t <- now ;;
                    modify (markRestarted t) ;;
                    ret None
                end
            end
    end.

(** [i.tmuxSession.Start(i.gitWorktree.GetWorktreePath())] in [Resume],
    with the cleanup of the working copy when it fails. *)
Definition resumeStartPane : M Instance (option error) :=
  cwd <- worktreePathOf ;;
  r <- onTmux (fun w h t => tmux_Start w h t cwd) (EvTmuxStart cwd) ;;
  match r with
  | Some err =>
      c <- onWorktree wt_Cleanup EvCleanup ;;
      let err := match c with
                 | Some cleanupErr =>
                     (err ++ " (cleanup error: " ++ cleanupErr ++ ")")%string
                 | None => err
                 end in
      ret (Some (wrapErr "failed to start new session" err))
  | None => ret None
  end.

(** The tail of [Resume] after the pane is back. *)
Definition markResumed (i : Instance) : Instance :=
  snd (GetBranch
         (SetStatus Running (set_lastDiffCheck 0 (MarkDiffDirty (MarkPreviewDirty i))))).

Definition Resume : M Instance (option error) :=
  i <- get ;;
  if negb (started i) then ret (Some "cannot resume instance that has not been started")
  else if negb (Status_eqb (Status_ i) Paused) then
    ret (Some "can only resume paused instances")
  else
    match gitWorktree i, tmuxSession i with
    | None, _ => panic nilHandle
    | Some g, pane =>
        checked <- probe (fun h => wt_IsBranchCheckedOut h g) ;;
        match checked with
        | Err err => ret (Some (wrapErr "failed to check if branch is checked out" err))
        | Ok true =>
            ret (Some "cannot resume: branch is checked out, please switch to a different branch")
        | Ok false =>
            r <- onWorktree wt_Setup EvSetup ;;
            match r with
            | Some err => ret (Some (wrapErr "failed to setup git worktree" err))
            | None =>
                match pane with
                | None => panic nilHandle
                | Some t =>
                    exists_ <- probe (fun h => tmux_DoesSessionExist h t) ;;
                    p <- (if (exists_ : bool) then
                            r <- onTmux tmux_Restore EvTmuxRestore ;;
                            match r with
                            | Some _ => resumeStartPane
                            | None => ret None
                            end
                          else resumeStartPane) ;;
                    match p with
                    | Some err => ret (Some err)
                    | None =>
                        sw <- startDiffWatcher ;;
                        match sw with
                        | Some err =>
                            ret (Some (wrapErr "failed to initialize diff watcher" err))
                        | None => modify markResumed ;; ret None
                        end
                    end
                end
            end
        end
    end.

(** *** Loading, deleting and updating stored sessions *)

(** The loop of [LoadInstances]. *)
Fixpoint loadAll {S : Type} (instancesData : list InstanceData) (instances : list Instance)
  : M S (Result (list Instance)) :=
  match instancesData with
  | [] => ret (Ok instances)
  | data :: rest =>
      r <- FromInstanceData data ;;
      match r with
      | Err err =>
          ret (Err (wrapErr ("failed to create instance " ++ data_Title data)%string err))
      | Ok instance => loadAll rest (instances ++ [instance])
      end
  end.

Definition LoadInstances {S : Type} : M S (Result (list Instance)) :=
  jsonData <- probe store_GetInstances ;;
  match json_Unmarshal jsonData with
  | Err err => ret (Err (wrapErr "failed to unmarshal instances" err))
  | Ok instancesData => loadAll instancesData []
  end.

(** The loop of [DeleteInstance]: the sessions to keep, and whether one
    was dropped. *)
Fixpoint dropTitled {S : Type} (title : string) (instances newInstances : list Instance)
    (found : bool) : M S (list Instance * bool) :=
  match instances with
  | [] => ret (newInstances, found)
  | instance :: rest =>
      data <- ToInstanceData instance ;;
      if negb (data_Title data =? title)%string then
        dropTitled title rest (newInstances ++ [instance]) found
      else dropTitled title rest newInstances true
  end.

Definition DeleteInstance (title : string) : M Storage (option error) :=
  l <- LoadInstances ;;
  match l with
  | Err err => ret (Some (wrapErr "failed to load instances" err))
  | Ok instances =>
      d <- dropTitled title instances [] false ;;
      let '(newInstances, found) := d in
      if negb found then ret (Some ("instance not found: " ++ title)%string)
      else SaveInstances newInstances
  end.

(** The loop of [UpdateInstance]: the list with the first session of that
    title replaced ([before] holds the ones already passed), if there is
    one. *)
Fixpoint replaceTitled {S : Type} (instance : Instance) (title : string)
    (before instances : list Instance) : M S (option (list Instance)) :=
  match instances with
  | [] => ret None
  | existing :: rest =>
      existingData <- ToInstanceData existing ;;
      if (data_Title existingData =? title)%string then
        ret (Some (before ++ instance :: rest))
      else replaceTitled instance title (before ++ [existing]) rest
  end.

Definition UpdateInstance (instance : Instance) : M Storage (option error) :=
  l <- LoadInstances ;;
  match l with
  | Err err => ret (Some (wrapErr "failed to load instances" err))
  | Ok instances =>
      data <- ToInstanceData instance ;;
      r <- replaceTitled instance (data_Title data) [] instances ;;
      match r with
      | None => ret (Some ("instance not found: " ++ data_Title data)%string)
      | Some instances => SaveInstances instances
      end
  end.

End Probes.

End Ops.

Export Ops.

(** ** Invariants and traces of composed runs *)

(** Every run of [m] relates the state it starts from to the state it
    leaves by [R]. *)
Definition keeps {S A : Type} (R : S -> S -> Prop) (m : M S A) : Prop :=
  forall (w : World) (h : History) (s : S), R s (final (m w h s)).

(** Every event a run of [m] adds satisfies [P]. *)
Definition emitsOnly {S A : Type} (P : Event -> Prop) (m : M S A) : Prop :=
  forall (w : World) (h : History) (s : S) (e : Event), In e (events (m w h s)) -> P e.

(** The fields that identify a session. *)
Definition sameIdentity (i j : Instance) : Prop :=
  Title j = Title i /\ Path j = Path i /\ Program j = Program i /\
  CreatedAt j = CreatedAt i /\ AutoYes j = AutoYes i /\ Prompt j = Prompt i.

(** The events through which [Kill] releases resources. *)
Definition isRelease (e : Event) : Prop :=
  match e with
  | EvWatcherCancel | EvWatcherClose _ | EvTmuxClose _ | EvCleanup _ => True
  | _ => False
  end.

(** A release step that failed. *)
Definition isFailedRelease (e : Event) : Prop :=
  match e with
  | EvWatcherClose (Some _) | EvTmuxClose (Some _) | EvCleanup (Some _) => True
  | _ => False
  end.

(** What [Pause] may do to the world. *)
Definition isPauseStep (e : Event) : Prop :=
  match e with
  | EvWatcherCancel | EvWatcherClose _ | EvIsDirty _ | EvNow _ | EvCommitChanges _ _
  | EvTmuxDetach _ | EvStat _ _ | EvRemove _ | EvPrune _ | EvClipboard _ => True
  | _ => False
  end.

(** What a diff refresh may do to the world. *)
Definition isDiffStep (e : Event) : Prop :=
  match e with
  | EvDiff _ | EvGit _ _ _ | EvNow _ => True
  | _ => False
  end.

(** The git commands in a trace, oldest first: their arguments. *)
Definition gitCommands (evs : list Event) : list (list string) :=
  flat_map (fun e => match e with EvGit _ args _ => [args] | _ => [] end) evs.

(** Queued bytes have a timer that will write them. *)
Definition pendingHasTimer (s : Storage) : Prop :=
  len (pendingData s) <> 0%nat -> debounceTimer s <> None.

(** Walk down a computation: [step] handles a bind or a leaf, the rest is
    case analysis on what the computation branches on. *)
Ltac walk step :=
  repeat first
    [ step
    | match goal with
      | |- keeps _ (if ?b then _ else _) => destruct b
      | |- emitsOnly _ (if ?b then _ else _) => destruct b
      | |- keeps _ (match ?x with _ => _ end) => destruct x
      | |- emitsOnly _ (match ?x with _ => _ end) => destruct x
      end ].

(** A step of [Pause] that reported an error. *)
Definition isFailedPauseStep (e : Event) : Prop :=
  match e with
  | EvWatcherClose (Some _) | EvIsDirty (Err _) | EvCommitChanges _ (Some _)
  | EvTmuxDetach (Some _) | EvRemove (Some _) | EvPrune (Some _) => True
  | _ => False
  end.

(** What [Start] may do to the world before it gives up on a session that
    was not started before. *)
Definition isSetupStep (e : Event) : Prop :=
  match e with
  | EvNewGitWorktree _ _ _ | EvSetup _ | EvCleanup _ | EvTmuxStart _ _
  | EvTmuxRestore _ => True
  | _ => False
  end.

(** The arguments of the other two git commands of [Diff]. *)
Definition addArgs : list string := ["add"; "-N"; "."].
Definition diffArgs (base : string) : list string := ["--no-pager"; "diff"; base].

(** The handle is of the same checkout: only the cache and the time of the
    last check may differ. *)
Definition sameCheckout (g g' : GitWorktree) : Prop :=
  repoPath g' = repoPath g /\ worktreePath g' = worktreePath g /\
  sessionName g' = sessionName g /\ branchName g' = branchName g /\
  baseCommitSHA g' = baseCommitSHA g.

(** What the cache holds was computed without error, and its counts are
    those of its content. *)
Definition cacheSound (g : GitWorktree) : Prop :=
  forall d, lastDiff g = Some d ->
    Error d = None /\ (Added d, Removed d) = countDiffStats (Content d).

(** Whether a session has the given title. *)
Definition titled (title : string) (i : Instance) : bool := (Title i =? title)%string.

(** ** More samples *)

(** A handle whose cache was filled by [Diff]. *)
Definition soundHandle : GitWorktree :=
  set_cache " M file.txt" (Some (mkDiffStats sampleDiff 2 1 None)) sampleHandle.

(** A byte store that holds one record, of a paused session called
    [stored]. *)
Definition storedRecord : InstanceData :=
  mkInstanceData "stored" "/repo" "stored-branch" Paused 24 80 (Unix0 0) (Unix0 0) false
    "claude" (mkGitWorktreeData "/repo" "/repo/wt" "stored" "stored-branch" "abc123")
    (mkDiffStatsData 0 0 "").

Definition sampleGetInstances (h : History) : Bytes := Some [Byte.x5b; Byte.x7b; Byte.x5d].

Definition sampleUnmarshal (b : Bytes) : Result (list InstanceData) := Ok [storedRecord].

(** Eight seconds after the Unix epoch. *)
Definition eightSeconds : Time := Unix0 (8 * Second).

(** ** Tactics for runs *)

Ltac unfold_m :=
  unfold bind, ret, get, modify, emit, call, ask, now, panic, runOn,
         outcome, final, events, after in *.

(** Case analysis on the next oracle answer (or flag) the goal branches on. *)
Ltac branch :=
  match goal with
  | |- context [match ?x with _ => _ end] =>
      lazymatch x with
      | context [match _ with _ => _ end] => fail
      | _ => destruct x eqn:?
      end
  end.

(** Evaluate a run, leaving the error messages as they are written. *)
Ltac keep_strings := cbn -[wrapErr pauseCommitMsg combineErrors appendErr String.append].

Ltac run_strings := cbn -[wrapErr pauseCommitMsg String.append].

(** Case analysis on the next answer, also where it is only collected
    into the list of errors. *)
Ltac branch_errs :=
  first
    [ match goal with
      | |- context [appendErr _ _ ?r] =>
          lazymatch r with
          | context [match _ with _ => _ end] => fail
          | context [combineErrors] => fail
          | _ => destruct r eqn:?
          end
      end
    | branch ].

(** Find, in a trace no step of which failed, the step that did. *)
Ltac hit_failed H :=
  first [ exact (H _ (or_introl eq_refl) I)
        | let H' := fresh in
          pose proof (fun e p => H e (or_intror p)) as H'; hit_failed H' ].

Ltac split_in :=
  repeat match goal with
         | H : _ \/ _ |- _ => destruct H
         | H : False |- _ => destruct H
         | H : In _ [] |- _ => destruct H
         | H : In _ (_ :: _) |- _ => destruct H
         end.


(** Point at an element of a trace. *)
Ltac find_in := cbn [In]; solve [repeat first [left; reflexivity | right]].

(** Drop a case in which a handle is both nil and not. *)
Ltac drop_absurd :=
  try match goal with
      | H : None = Some _ |- _ => discriminate H
      | H : Some _ = None |- _ => discriminate H
      end.

(** * Properties *)

(** ** Arithmetic of the Go integers *)

Lemma wrap64_small (z : Z) : int64_range z -> wrap64 z = z.
Proof.
  unfold int64_range, int64_min, int64_max, wrap64. intros H.
  rewrite Z.mod_small; lia.
Qed.

Lemma int_incr_small (x : Z) : 0 <= x < 2 ^ 63 - 1 -> int_incr x = x + 1.
Proof.
  intros H. unfold int_incr. apply wrap64_small.
  unfold int64_range, int64_min, int64_max. lia.
Qed.

Lemma sat64_ge (z d : Z) : int64_min < d <= int64_max -> (d <= sat64 z <-> d <= z).
Proof.
  unfold sat64, int64_min, int64_max. intros H.
  destruct (Z.ltb_spec z (- 2 ^ 63)); [lia|].
  destruct (Z.ltb_spec (2 ^ 63 - 1) z); lia.
Qed.

(** ** C8: the line counts of a diff *)


Lemma Split_nl_total_length (s : string) :
  (total_length (Split_nl s) <= String.length s)%nat.
Proof.
  induction s as [|c r IH]; simpl; [lia|].
  destruct (Ascii.eqb c newline); simpl; [lia|].
  destruct (Split_nl r) as [|l ls]; simpl in *; lia.
Qed.

Lemma filter_nonempty_length (p : string -> bool) (ls : list string) :
  (forall l, p l = true -> nonempty l = true) ->
  (List.length (filter p ls) <= total_length ls)%nat.
Proof.
  intros Hp. induction ls as [|l r IH]; simpl; [lia|].
  destruct (p l) eqn:E; simpl; [|lia].
  apply Hp in E. destruct l; [discriminate E|]. simpl. lia.
Qed.

Lemma is_addition_nonempty (l : string) : is_addition l = true -> nonempty l = true.
Proof.
  unfold is_addition. intros H.
  apply andb_prop in H as [H _]. apply andb_prop in H as [H _]. exact H.
Qed.

Lemma is_removal_nonempty (l : string) : is_removal l = true -> nonempty l = true.
Proof.
  unfold is_removal. intros H.
  apply andb_prop in H as [H _]. apply andb_prop in H as [H _]. exact H.
Qed.

(** One loop iteration adds what the two predicates say, as long as the
    counters stay below the top of [int]. *)
Lemma countLine_spec (a r : nat) (line : string) :
  Z.of_nat (a + (if is_addition line then 1 else 0)) < 2 ^ 63 ->
  Z.of_nat (r + (if is_removal line then 1 else 0)) < 2 ^ 63 ->
  countLine (Z.of_nat a, Z.of_nat r) line =
  (Z.of_nat (a + (if is_addition line then 1 else 0)),
   Z.of_nat (r + (if is_removal line then 1 else 0))).
Proof.
  unfold countLine, is_addition, is_removal, HasPrefix.
  destruct line as [|c rest]; [intros _ _; simpl; now rewrite !Nat.add_0_r|].
  cbn [nonempty starts_with String.eqb negb andb].
  destruct (Ascii.eqb_spec c "+"%char) as [->|Hp].
  - cbn [Ascii.eqb Bool.eqb andb].
    destruct (String.prefix "+++" (String "+" rest)); cbn [negb andb]; intros Ha Hr.
    + now rewrite !Nat.add_0_r.
    + rewrite int_incr_small by lia. rewrite Nat.add_0_r. f_equal. lia.
  - destruct (Ascii.eqb_spec c "-"%char) as [->|Hm].
    + cbn [andb].
      destruct (String.prefix "---" (String "-" rest)); cbn [negb andb]; intros Ha Hr.
      * now rewrite !Nat.add_0_r.
      * rewrite int_incr_small by lia. rewrite Nat.add_0_r. f_equal. lia.
    + cbn [andb]. intros _ _. now rewrite !Nat.add_0_r.
Qed.

Lemma countLines_spec (lines : list string) : forall a r : nat,
  Z.of_nat (a + List.length (filter is_addition lines)) < 2 ^ 63 ->
  Z.of_nat (r + List.length (filter is_removal lines)) < 2 ^ 63 ->
  fold_left countLine lines (Z.of_nat a, Z.of_nat r) =
  (Z.of_nat (a + List.length (filter is_addition lines)),
   Z.of_nat (r + List.length (filter is_removal lines))).
Proof.
  induction lines as [|l ls IH]; intros a r Ha Hr.
  - cbn. now rewrite !Nat.add_0_r.
  - cbn [fold_left filter] in *.
    assert (Hlen : forall (b : bool) (x : string) (xs : list string),
               List.length (if b then x :: xs else xs) =
               ((if b then 1 else 0) + List.length xs)%nat)
      by (intros [] ? ?; reflexivity).
    rewrite !Hlen in *.
    rewrite countLine_spec by lia.
    rewrite IH by lia.
    f_equal; f_equal; lia.
Qed.

(** The lines of a text are what [strings.Split] on the newline gives. *)
Lemma Split_nl_line (x : string) : newline_free x = true -> Split_nl x = [x].
Proof.
  induction x as [|c r IH]; [reflexivity|].
  cbn [newline_free Split_nl]. intros H. apply andb_prop in H as [Hc Hr].
  apply negb_true_iff in Hc. rewrite Hc, (IH Hr). reflexivity.
Qed.

Lemma Split_nl_app_nl (x r : string) :
  newline_free x = true -> Split_nl (x ++ String newline r) = x :: Split_nl r.
Proof.
  induction x as [|c x' IH]; intros H.
  - cbn [String.append Split_nl]. now rewrite Ascii.eqb_refl.
  - cbn [newline_free] in H. apply andb_prop in H as [Hc Hx].
    apply negb_true_iff in Hc.
    cbn [String.append Split_nl]. rewrite Hc, (IH Hx). reflexivity.
Qed.

Lemma Split_nl_join (lines : list string) :
  lines <> [] -> Forall (fun l => newline_free l = true) lines ->
  Split_nl (join_lines lines) = lines.
Proof.
  unfold join_lines. induction lines as [|x xs IH]; intros Hne Hf; [now contradiction Hne|].
  inversion Hf as [|? ? Hx Hxs]; subst.
  destruct xs as [|y ys].
  - cbn [String.concat]. now apply Split_nl_line.
  - change (String.concat (String newline "") (x :: y :: ys))
      with (x ++ String newline (String.concat (String newline "") (y :: ys)))%string.
    rewrite (Split_nl_app_nl _ _ Hx), IH; [reflexivity | discriminate | assumption].
Qed.

Lemma Split_nl_not_nil (s : string) : Split_nl s <> [].
Proof.
  destruct s as [|c r]; cbn [Split_nl]; [discriminate|].
  destruct (Ascii.eqb c newline); [discriminate|].
  destruct (Split_nl r); discriminate.
Qed.

Lemma Split_nl_newline_free (s : string) :
  Forall (fun l => newline_free l = true) (Split_nl s).
Proof.
  induction s as [|c r IH]; cbn [Split_nl]; [now repeat constructor|].
  destruct (Ascii.eqb c newline) eqn:Hc; [now constructor|].
  destruct (Split_nl r) as [|l ls]; [now repeat constructor; cbn; rewrite Hc|].
  inversion IH as [|? ? Hl Hls]; subst.
  constructor; [|assumption]. cbn [newline_free]. now rewrite Hc, Hl.
Qed.

Lemma join_Split_nl (s : string) : join_lines (Split_nl s) = s.
Proof.
  unfold join_lines. induction s as [|c r IH]; [reflexivity|].
  cbn [Split_nl]. destruct (Ascii.eqb_spec c newline) as [->|Hc].
  - pose proof (Split_nl_not_nil r) as Hn.
    destruct (Split_nl r) as [|l ls]; [now contradiction Hn|].
    change (String.concat (String newline "") ("" :: l :: ls))%string
      with (String newline (String.concat (String newline "") (l :: ls))).
    now rewrite IH.
  - pose proof (Split_nl_not_nil r) as Hn.
    destruct (Split_nl r) as [|l ls]; [now contradiction Hn|].
    rewrite <- IH. destruct ls; reflexivity.
Qed.

(** Every text has lines, and only those that splitting it gives. *)
Lemma lines_of_Split_nl (content : string) : lines_of (Split_nl content) content.
Proof.
  split; [apply Split_nl_not_nil|]. split; [apply Split_nl_newline_free | apply join_Split_nl].
Qed.

Lemma lines_of_unique (lines : list string) (content : string) :
  lines_of lines content -> lines = Split_nl content.
Proof. intros (Hne & Hf & <-). symmetry. now apply Split_nl_join. Qed.

(** C8.  For every diff text (a Go string, so shorter than 2^63 bytes):
    the text has lines (it is its lines joined by newlines, none of which
    holds a newline), and [countDiffStats] returns as [added] the number
    of those lines that are non-empty, start with [+] and not with [+++],
    and as [removed] the number of those that are non-empty, start with
    [-] and not with [---]; the empty text gives (0, 0). *)
Theorem countDiffStats_counts_lines (content : string) :
  Z.of_nat (String.length content) < 2 ^ 63 ->
  (exists lines, lines_of lines content) /\
  (forall lines, lines_of lines content ->
     countDiffStats content =
       (Z.of_nat (spec_added lines), Z.of_nat (spec_removed lines))) /\
  countDiffStats "" = (0, 0).
Proof.
  intros Hlen. split; [exists (Split_nl content); apply lines_of_Split_nl|].
  split; [|reflexivity].
  intros lines Hl. apply lines_of_unique in Hl. subst lines.
  unfold countDiffStats, spec_added, spec_removed.
  destruct (String.eqb_spec content "") as [->|Hne]; [reflexivity|].
  pose proof (Split_nl_total_length content) as Ht.
  pose proof (filter_nonempty_length is_addition (Split_nl content) is_addition_nonempty) as Ha.
  pose proof (filter_nonempty_length is_removal (Split_nl content) is_removal_nonempty) as Hr.
  apply (countLines_spec (Split_nl content) 0 0); lia.
Qed.

(** ** Reading the results of a run *)

Lemma cloneDiffStats_copy (d : DiffStats) : cloneDiffStats d = d.
Proof. now destruct d. Qed.



(** The events of a sequence: those of the second part, then those of
    the first (most recent first). *)
Lemma snd_bind {S A B : Type} (m : M S A) (f : A -> M S B) (w : World) (h : History) (s : S) :
  snd (bind m f w h s) =
    match fst (fst (m w h s)) with
    | Done a => snd (f a w (snd (m w h s) ++ h) (snd (fst (m w h s)))) ++ snd (m w h s)
    | Panicked _ => snd (m w h s)
    end.
Proof.
  unfold bind. destruct (m w h s) as [[[a|msg] s1] e1]; cbn; [|reflexivity].
  now destruct (f a w (e1 ++ h) s1) as [[r s2] e2].
Qed.

(** A continuation that adds no event leaves the events of the first part. *)
Lemma snd_bind_silent {S A B : Type} (m : M S A) (f : A -> M S B)
    (w : World) (h : History) (s : S) :
  (forall a w h s, snd (f a w h s) = []) ->
  snd (bind m f w h s) = snd (m w h s).
Proof.
  intros Hf. rewrite snd_bind. destruct (fst (fst (m w h s))); [|reflexivity].
  now rewrite Hf.
Qed.

(** ** C2: the status-snapshot cache of [Diff] *)


Lemma cacheHit_Some (force : bool) (sig : string) (g : GitWorktree) (d : DiffStats) :
  cacheHit force sig g = Some d <->
  force = false /\ lastDiff g = Some d /\ sig = lastStatusSnapshot g.
Proof.
  unfold cacheHit. destruct force; cbn.
  - split; [discriminate | intros [H _]; discriminate H].
  - destruct (lastDiff g) as [d'|].
    + destruct (String.eqb_spec sig (lastStatusSnapshot g)) as [E|E].
      * split; [intros [= ->]; auto | intros (_ & [= ->] & _); reflexivity].
      * split; [discriminate | intros (_ & _ & H); contradiction].
    + split; [discriminate | intros (_ & H & _); discriminate H].
Qed.

(** C2.  For every call [Diff(force)] on a Checkout Handle: (1) when
    [force = false], a previous [lastDiff] exists and the status just read
    equals the stored snapshot, the result is a copy of [lastDiff], the
    only command run is that status (no diff is recomputed) and the cache
    is left as it was; (2) whenever a command of the call fails, the
    returned stats carry that error and neither [lastDiff] nor the
    snapshot signature is updated. *)
Theorem Diff_cached_hit_and_errors (w : World) (h : History) (g : GitWorktree) (force : bool) :
  let run := Diff force w h g in
  (forall (sig : string) (d : DiffStats),
      force = false ->
      lastDiff g = Some d ->
      runGitCommand w h (worktreePath g) statusArgs = Ok sig ->
      sig = lastStatusSnapshot g ->
      outcome run = Done d /\
      events run = [EvGit (worktreePath g) statusArgs (Ok sig);
                    EvNow (time_Now w (EvGit (worktreePath g) statusArgs (Ok sig) :: h))] /\
      lastDiff (final run) = Some d /\
      lastStatusSnapshot (final run) = lastStatusSnapshot g)
  /\
  (forall (dir : string) (args : list string) (err : error),
      In (EvGit dir args (Err err)) (events run) ->
      (exists stats, outcome run = Done stats /\ Error stats = Some err) /\
      lastDiff (final run) = lastDiff g /\
      lastStatusSnapshot (final run) = lastStatusSnapshot g).
Proof.
  cbv zeta. split.
  - intros sig d Hf Hd Hs Hsig.
    assert (Hc : cacheHit force sig (set_lastDiffCheckedAt
                   (time_Now w (EvGit (worktreePath g) statusArgs (Ok sig) :: h)) g) = Some d)
      by (apply cacheHit_Some; auto).
    unfold Diff, git, statusArgs in *. unfold_m. cbn.
    rewrite Hs. cbn. rewrite Hc. cbn.
    rewrite cloneDiffStats_copy. auto.
  - intros dir args err Hin.
    unfold Diff, refreshUntracked, git in *. unfold_m. cbn in *.
    repeat (branch; cbn in * );
      repeat match goal with
             | H : _ \/ _ |- _ => destruct H
             | H : False |- _ => destruct H
             | H : EvGit _ _ _ = EvGit _ _ _ |- _ => inversion H; subst; clear H
             | H : _ = EvGit _ _ _ |- _ => discriminate H
             end;
      try (split; [eexists; split; reflexivity | split; reflexivity]).
Qed.

(** ** C1: when [UpdateDiffStats] consults the Checkout Handle *)

Lemma diffCalls_app (a b : list Event) : diffCalls (a ++ b) = diffCalls a ++ diffCalls b.
Proof. unfold diffCalls. apply flat_map_app. Qed.

Lemma diffCalls_none (evs : list Event) :
  (forall e, In e evs -> forall f, e <> EvDiff f) -> diffCalls evs = [].
Proof.
  induction evs as [|e r IH]; intros H; [reflexivity|].
  change (diffCalls (e :: r))
    with ((match e with EvDiff f => [f] | _ => [] end) ++ diffCalls r).
  rewrite IH by (intros; apply H; now right).
  destruct e; try reflexivity. exfalso. eapply H; [now left | reflexivity].
Qed.

(** [Diff] itself only runs git commands and reads the clock. *)
Lemma Diff_events (force : bool) (w : World) (h : History) (g : GitWorktree) (e : Event) :
  In e (snd (Diff force w h g)) ->
  (exists dir args r, e = EvGit dir args r) \/ (exists t, e = EvNow t).
Proof.
  unfold Diff, refreshUntracked, git. unfold_m. cbn.
  repeat (branch; cbn);
    intros Hin;
    repeat match goal with
           | H : _ \/ _ |- _ => destruct H
           | H : False |- _ => destruct H
           end; subst; eauto.
Qed.

Lemma Diff_no_diffCalls (force : bool) (w : World) (h : History) (g : GitWorktree) :
  diffCalls (rev (snd (Diff force w h g))) = [].
Proof.
  apply diffCalls_none. intros e Hin f ->.
  apply in_rev in Hin. apply Diff_events in Hin.
  destruct Hin as [(? & ? & ? & H) | (? & H)]; discriminate H.
Qed.

Lemma Unix0_not_zero (n : Z) : int64_range n -> IsZero (Unix0 n) = false.
Proof.
  unfold int64_range, int64_min, int64_max, IsZero, Unix0, unix_epoch_ns, Second.
  intros H. cbn [abs_ns]. apply Z.eqb_neq. lia.
Qed.

(** The decision in the code agrees with the decision table: the
    saturation in [Sub] and the zero test on [last] change nothing. *)
Lemma refreshDecision_table (dirty watcherDisabled : bool) (now : Time) (last : Z) :
  int64_range last ->
  refreshDecision dirty watcherDisabled now last =
    if dirty then Some watcherDisabled
    else if IsZero now || (5 * Second <=? abs_ns now - abs_ns (Unix0 last)) then Some true
    else None.
Proof.
  intros Hr. unfold refreshDecision. destruct dirty; [reflexivity|].
  destruct (IsZero now); [reflexivity|]. cbn [orb].
  rewrite Unix0_not_zero by assumption. cbn [orb].
  replace (Sub now (Unix0 last)) with (sat64 (abs_ns now - abs_ns (Unix0 last)))
    by (unfold Sub; cbn [mono Unix0]; now destruct (mono now)).
  unfold diffRefreshInterval.
  assert (Hd : int64_min < 5 * Second <= int64_max)
    by (unfold int64_min, int64_max, Second; lia).
  pose proof (sat64_ge (abs_ns now - abs_ns (Unix0 last)) (5 * Second) Hd) as Hs.
  destruct (Z.leb_spec (5 * Second) (sat64 (abs_ns now - abs_ns (Unix0 last))));
    destruct (Z.leb_spec (5 * Second) (abs_ns now - abs_ns (Unix0 last)));
    try reflexivity; lia.
Qed.

Lemma Status_eqb_Paused (s : Status) : s <> Paused -> Status_eqb s Paused = false.
Proof. destruct s; intros H; try reflexivity. now contradiction H. Qed.

Lemma worktreeDiff_calls (force : bool) (w : World) (h : History) (i : Instance) :
  diffCalls (rev (snd (worktreeDiff force w h i))) = [force].
Proof.
  unfold worktreeDiff. rewrite snd_bind. cbn [emit fst snd app].
  destruct (gitWorktree i) as [g|]; [|reflexivity].
  pose proof (Diff_no_diffCalls force w (EvDiff force :: h) g) as Hd.
  destruct (Diff force w (EvDiff force :: h) g) as [[r g'] e].
  cbn [fst snd] in *.
  rewrite rev_app_distr, diffCalls_app, Hd. reflexivity.
Qed.

Lemma recordDiff_silent (now : Time) (stats : DiffStats) (w : World) (h : History) (i : Instance) :
  snd (recordDiff now stats w h i) = [].
Proof.
  unfold recordDiff. unfold_m.
  destruct (Error stats) as [err|]; [destruct (Contains err _)|]; reflexivity.
Qed.


(** ** C10: [MarkDiffDirty] drops the handle's cache *)

(** C10.  [MarkDiffDirty] on a session with a Checkout Handle sets the
    session's diff-dirty flag and invalidates the handle's cache: [lastDiff]
    and the stored snapshot signature are cleared (the handle is otherwise
    the same), so the next [Diff(false)] does not answer from the cache: it
    runs exactly as a forced [Diff(true)] would, that is, it either returns
    the error of a failed command, or runs the diff command and returns
    (and caches) the stats computed from its output. *)
Theorem MarkDiffDirty_invalidates_cache (i : Instance) (g : GitWorktree) :
  gitWorktree i = Some g ->
  diffDirty (MarkDiffDirty i) = true /\
  gitWorktree (MarkDiffDirty i) = Some (InvalidateDiffCache g) /\
  lastDiff (InvalidateDiffCache g) = None /\
  lastStatusSnapshot (InvalidateDiffCache g) = "" /\
  forall (w : World) (h : History),
    let run := Diff false w h (InvalidateDiffCache g) in
    run = Diff true w h (InvalidateDiffCache g) /\
    ((exists err, outcome run = Done (withError emptyStats err)
                 /\ exists dir args, In (EvGit dir args (Err err)) (events run))
    \/
    (exists content,
        In (EvGit (worktreePath g) ["--no-pager"; "diff"; baseCommitSHA g] (Ok content))
           (events run)
        /\ outcome run =
             Done (mkDiffStats content (fst (countDiffStats content))
                     (snd (countDiffStats content)) None)
        /\ lastDiff (final run) =
             Some (mkDiffStats content (fst (countDiffStats content))
                     (snd (countDiffStats content)) None))).
Proof.
  intros Hg. unfold MarkDiffDirty. cbn. rewrite Hg. cbn.
  do 4 (split; [reflexivity|]).
  intros w h. cbv zeta. split.
  { unfold Diff, cacheHit, InvalidateDiffCache. unfold_m. cbn.
    destruct (runGitCommand w h (worktreePath g) _); reflexivity. }
  unfold Diff, refreshUntracked, git, InvalidateDiffCache, cacheHit. unfold_m. cbn.
  repeat (branch; cbn);
    try (left; eexists; split; [reflexivity | do 2 eexists; cbn; eauto 10]; fail);
    right; eexists;
    repeat match goal with H : countDiffStats _ = _ |- _ => rewrite H end;
    (split; [cbn; eauto 10 | split; reflexivity]).
Qed.

(** ** C9: the preview-dirty flag *)

(** C9 (as amended).  A zero-valued session ([&Instance{}], as the test
    builds it) reports [IsPreviewDirty() = false]; a session built by
    [NewInstance] reports [true]; after [MarkPreviewDirty] any session
    reports [true]; after the flag is cleared directly it reports [false]. *)
Theorem preview_dirty_flag (opts : InstanceOptions) (w : World) (h : History) :
  IsPreviewDirty zeroInstance = false /\
  (forall inst, outcome (NewInstance opts w h tt) = Done (Ok inst) ->
                IsPreviewDirty inst = true) /\
  (forall i, IsPreviewDirty (MarkPreviewDirty i) = true) /\
  (forall i, IsPreviewDirty (set_previewDirty false (MarkPreviewDirty i)) = false).
Proof.
  split; [reflexivity|]. split; [|split; reflexivity].
  intros inst. unfold NewInstance. unfold_m. cbn.
  destruct (filepath_Abs w _ _); cbn; intros [= <-]. reflexivity.
Qed.

(** ** C5: a failed commit stops [Pause] *)

Lemma combineErrors_appendErr_Some (errs : list error) (prefix : string) (err : error) :
  exists e, Done (combineErrors (appendErr errs prefix (Some err))) = Done (Some e).
Proof.
  unfold appendErr. destruct errs as [|a [|b l]]; cbn; eauto.
Qed.

(** C5.  For every started, non-paused session: if the [CommitChanges]
    step of [Pause] fails (it is only reached when [IsDirty] reported a
    dirty working copy), [Pause] returns an error, neither [Remove] nor
    [Prune] is invoked, and the status is left as it was, so not Paused. *)
Theorem Pause_stops_on_commit_failure
    (w : World) (h : History) (i : Instance) (msg : string) (err : error) :
  started i = true ->
  Status_ i <> Paused ->
  In (EvCommitChanges msg (Some err)) (events (Pause w h i)) ->
  In (EvIsDirty (Ok true)) (events (Pause w h i)) /\
  (exists e, outcome (Pause w h i) = Done (Some e)) /\
  (forall r, ~ In (EvRemove r) (events (Pause w h i))) /\
  (forall r, ~ In (EvPrune r) (events (Pause w h i))) /\
  Status_ (final (Pause w h i)) = Status_ i /\
  Status_ (final (Pause w h i)) <> Paused.
Proof.
  intros Hs Hp.
  unfold Pause. unfold_m. cbn -[wrapErr pauseCommitMsg combineErrors appendErr].
  rewrite Hs, (Status_eqb_Paused _ Hp). cbn -[wrapErr pauseCommitMsg combineErrors appendErr].
  unfold pauseCommit, pauseRemove, stopDiffWatcher, worktreeIsDirty, onWorktree, onTmux,
         worktreePathOf, branchNameOf.
  unfold_m. cbn -[wrapErr pauseCommitMsg combineErrors appendErr].
  repeat (branch; cbn -[wrapErr pauseCommitMsg combineErrors appendErr]); intros Hin;
    repeat match goal with
           | H : _ \/ _ |- _ => destruct H
           | H : False |- _ => destruct H
           | H : _ = EvCommitChanges _ _ |- _ => try discriminate H; inversion H; subst; clear H
           end.
  all: try congruence.
  all: repeat split;
    try (intros r Hr;
         repeat match goal with
                | H : _ \/ _ |- _ => destruct H
                | H : False |- _ => destruct H
                | H : _ = EvRemove _ |- _ => discriminate H
                | H : _ = EvPrune _ |- _ => discriminate H
                end);
    try (apply combineErrors_appendErr_Some);
    try assumption;
    try (cbn; tauto).
Qed.

(** ** C6: what [Start] checks *)


(** C6, refuted as stated: on a started session with a title, [Start(false)]
    returns no error. *)
Lemma Start_on_started_session_succeeds :
  started runningInstance = true /\
  outcome (Start false calmWorld [] runningInstance) = Done None.
Proof. split; reflexivity. Qed.

(** C6 (as amended).  [Start] returns an error when the title is empty,
    before touching anything.  It does not look at the started flag: on
    any session, started or not, that has a title and a Checkout Handle
    with a working-copy path, [Start(false)] succeeds whenever restoring the
    pane succeeds, leaving the session started and Running. *)
Theorem Start_checks_title_only (w : World) (h : History) (i : Instance) :
  (forall firstTime, Title i = "" ->
     outcome (Start firstTime w h i) = Done (Some "instance title cannot be empty") /\
     final (Start firstTime w h i) = i /\
     events (Start firstTime w h i) = [])
  /\
  (forall g, Title i <> "" ->
     gitWorktree i = Some g ->
     worktreePath g <> "" ->
     tmux_Restore w h (sessionOrNew i) = None ->
     outcome (Start false w h i) = Done None /\
     started (final (Start false w h i)) = true /\
     Status_ (final (Start false w h i)) = Running).
Proof.
  split.
  - intros firstTime Ht. unfold Start. unfold_m. cbn. rewrite Ht. cbn. auto.
  - intros g Ht Hg Hp Hr.
    apply String.eqb_neq in Ht. apply String.eqb_neq in Hp.
    unfold Start, startBody, startDiffWatcher, stopDiffWatcher, Kill, onTmux, onWorktree,
           GetBranch, markStarted, MarkDiffDirty, MarkPreviewDirty, SetStatus.
    unfold GetWorktreePath. unfold_m. keep_strings.
    repeat (first [rewrite Ht | rewrite Hr | rewrite Hg | rewrite Hp]; keep_strings).
    repeat (branch; keep_strings); auto.
Qed.

(** ** C7: the persistence round trip *)

(** C7, refuted as stated: a started session that is Ready, has auto-yes
    on and a branch field that lags behind its handle comes back Running,
    with auto-yes off and the handle's branch. *)
Lemma roundTrip_changes_status_branch_autoyes :
  exists j,
    started readyInstance = true /\
    outcome (roundTrip readyInstance calmWorld [] tt) = Done (Ok j) /\
    Status_ readyInstance = Ready /\ Status_ j = Running /\
    Branch readyInstance = "old-branch" /\ Branch j = "test-branch" /\
    AutoYes readyInstance = true /\ AutoYes j = false /\
    ~ sameSerializedFields readyInstance j.
Proof.
  eexists. split; [reflexivity|]. split; [reflexivity|].
  repeat (split; [reflexivity|]).
  unfold sameSerializedFields. cbn. intros (_ & _ & H & _). discriminate H.
Qed.

(** C7 (as amended).  Whenever converting a session to the serialized
    record and materializing a session back from it yields a session, that
    session has the original's title, path, height, width, program and
    creation time; its status is Paused if the original's was, and Running
    otherwise; its branch is the branch name of the original's Checkout
    Handle (empty without a handle).  For a Paused original the round trip
    always yields a session. *)
Theorem roundTrip_fields (w : World) (h : History) (i : Instance) :
  (forall j, outcome (roundTrip i w h tt) = Done (Ok j) ->
     Title j = Title i /\ Path j = Path i /\ Height j = Height i /\
     Width j = Width i /\ Program j = Program i /\ CreatedAt j = CreatedAt i /\
     Status_ j = (if Paused_ i then Paused else Running) /\
     Branch j = match gitWorktree i with
                | Some g => GetBranchName g
                | None => ""
                end)
  /\
  (Status_ i = Paused -> exists j, outcome (roundTrip i w h tt) = Done (Ok j)).
Proof.
  split.
  - intros j.
    unfold roundTrip, ToInstanceData, FromInstanceData, instanceOfData, Paused_.
    unfold_m. keep_strings.
    destruct (Status_ i) eqn:Hst; keep_strings.
    4:{ intros [= <-]. unfold GetBranch. cbn. destruct (gitWorktree i); cbn; auto 10. }
    all: unfold Start, startBody, startDiffWatcher, stopDiffWatcher, Kill, onTmux, onWorktree,
           GetBranch, markStarted, MarkDiffDirty, MarkPreviewDirty, SetStatus, sessionOrNew.
    all: unfold_m; keep_strings.
    all: repeat (branch; keep_strings); try discriminate.
    all: intros [= <-]; cbn; auto 10.
  - intros Hst. unfold roundTrip, ToInstanceData, FromInstanceData, instanceOfData, Paused_.
    unfold_m. cbn. rewrite Hst. cbn. eauto.
Qed.

(** ** C3 and C4: the registry's writes *)


Lemma onlyClock_app (a b : list Event) : onlyClock a -> onlyClock b -> onlyClock (a ++ b).
Proof.
  intros Ha Hb e Hin. apply in_app_or in Hin. destruct Hin; auto.
Qed.

Lemma storeWrites_app (a b : list Event) : storeWrites (a ++ b) = storeWrites a ++ storeWrites b.
Proof. unfold storeWrites. apply flat_map_app. Qed.

Lemma storeWrites_onlyClock (evs : list Event) : onlyClock evs -> storeWrites evs = [].
Proof.
  induction evs as [|e r IH]; intros H; [reflexivity|].
  change (storeWrites (e :: r))
    with ((match e with EvStoreWrite d _ => [d] | _ => [] end) ++ storeWrites r).
  rewrite IH by (intros x Hx; apply H; now right).
  destruct (H e (or_introl eq_refl)) as [t ->]. reflexivity.
Qed.

(** Serializing reads the clock (for [updated_at]) and nothing else; it
    always returns and leaves the state alone. *)
Lemma collectData_run {S : Type} (instances : list Instance) :
  forall (data : list InstanceData) (w : World) (h : History) (s : S),
  exists ds evs, collectData instances data w h s = (Done ds, s, evs) /\ onlyClock evs.
Proof.
  induction instances as [|i rest IH]; intros data w h s.
  - exists data, []. split; [reflexivity | intros e []].
  - cbn [collectData]. destruct (Started i).
    + unfold ToInstanceData. unfold_m. cbn.
      match goal with
      | |- context [collectData rest ?d w ?h' s] =>
          destruct (IH d w h' s) as (ds & evs & -> & Hc)
      end.
      eexists _, _. split; [reflexivity|].
      apply onlyClock_app; [assumption|].
      intros e [<-|[]]. eauto.
    + apply IH.
Qed.

Lemma serialize_run {S : Type} (instances : list Instance) (w : World) (h : History) (s : S) :
  exists r evs, serialize instances w h s = (Done r, s, evs) /\ onlyClock evs.
Proof.
  unfold serialize, bind, ask.
  destruct (collectData_run instances [] w h s) as (ds & evs & -> & Hc).
  eexists _, _. split; [reflexivity|]. now rewrite app_nil_l.
Qed.

Lemma bytes_Equal_clone (b : list Byte.byte) :
  bytes_Equal (Some b) (cloneBytes (Some b)) = true.
Proof.
  unfold bytes_Equal, cloneBytes, len.
  destruct b as [|x l]; cbn [bytes_of List.length Nat.eqb];
    match goal with |- context [list_eq_dec ?d ?a ?c] => destruct (list_eq_dec d a c) end;
    congruence.
Qed.

Lemma onlyClock_rev (evs : list Event) : onlyClock evs -> onlyClock (rev evs).
Proof. intros H e Hin. apply H. now apply in_rev. Qed.

(** C3, refuted as stated.  (1) When the store rejects the write, the
    first call fails and the second call, with the same bytes, writes
    again: two writes, and the second call returns the error.  (2) When the
    registry saved other bytes less than the debounce interval ago, both
    calls only queue the bytes: no write at all. *)
Lemma SaveInstances_twice_not_one_write :
  (let first := SaveInstances [] storeFailsWorld [] NewStorage in
   let second := SaveInstances [] storeFailsWorld (after [] first) (final first) in
   storeWrites (events first ++ events second) = [Some jsonEmptyList; Some jsonEmptyList] /\
   outcome second = Done (Some "disk full"))
  /\
  (let first := SaveInstances [] calmWorld [] recentStorage in
   let second := SaveInstances [] calmWorld (after [] first) (final first) in
   storeWrites (events first ++ events second) = [] /\
   outcome second = Done None /\
   pendingData (final second) = Some jsonEmptyList).
Proof. cbv zeta. split; split; try split; reflexivity. Qed.

(** [SaveInstances] once the bytes are known: the locked part runs after
    the events of the serialization. *)
Lemma SaveInstances_unfold
    (w : World) (h : History) (s : Storage) (insts : list Instance)
    (b : list Byte.byte) (e1 : list Event) :
  serialize insts w h s = (Done (Ok b), s, e1) ->
  SaveInstances insts w h s =
    (fst (saveLocked (Some b) w (e1 ++ h) s), snd (saveLocked (Some b) w (e1 ++ h) s) ++ e1).
Proof.
  intros E. unfold SaveInstances, bind. rewrite E.
  now destruct (saveLocked (Some b) w (e1 ++ h) s) as [[r s2] e2].
Qed.

Lemma bytes_of_clone (b : list Byte.byte) : bytes_of (cloneBytes (Some b)) = b.
Proof. unfold cloneBytes, len. now destruct b. Qed.

(** A registry that has not saved yet hands non-empty bytes to the store
    at once; the call returns what the store answers. *)
Lemma SaveInstances_first_save_reaches_store
    (w : World) (h : History) (s : Storage) (insts : list Instance) (b : list Byte.byte) :
  IsZero (lastSaveTime s) = true ->
  lastSavedData s = None ->
  b <> [] ->
  outcome (serialize insts w h s) = Done (Ok b) ->
  exists r,
    outcome (SaveInstances insts w h s) = Done r /\
    storeWrites (events (SaveInstances insts w h s)) = [Some b] /\
    In (EvStoreWrite (Some b) r) (events (SaveInstances insts w h s)).
Proof.
  intros Hz Hn Hb H1.
  destruct (serialize_run insts w h s) as (r1 & e1 & E1 & C1).
  rewrite E1 in H1. cbn in H1. injection H1 as ->.
  assert (Hc : cloneBytes (Some b) = Some b) by (now destruct b).
  assert (He : bytes_Equal (Some b) None = false).
  { unfold bytes_Equal. cbn [bytes_of].
    match goal with |- context [list_eq_dec ?d ?x ?y] => destruct (list_eq_dec d x y) end;
      congruence. }
  rewrite (SaveInstances_unfold _ _ _ _ _ _ E1).
  unfold saveLocked, writeLocked, trackImmediateSave, stopTimer. unfold_m. cbn.
  rewrite Hn, He, Hz, Hc. cbn.
  assert (Hw : flat_map (fun e : Event =>
                 match e with EvStoreWrite data _ => [data] | _ => [] end) (rev e1) = [])
    by (apply (storeWrites_onlyClock (rev e1)); now apply onlyClock_rev).
  destruct (store_SaveInstances w _ (Some b)) as [err|]; cbn;
    [|destruct (debounceTimer s); cbn];
    eexists; (split; [reflexivity|]);
    rewrite !flat_map_app, Hw, !in_app_iff; cbn; auto 10.
Qed.

(** C3 (as amended).  For any registry, and any session list that both
    calls serialize to the same bytes [b]: if the first [SaveInstances]
    writes to the byte store and the store accepts the write, then the first
    call returns success with [last_saved_bytes] holding [b] and nothing
    pending, and the second call returns success without touching the
    store or the timer (it only read the clock while serializing) and
    leaves the registry as it was; the two calls perform exactly one write,
    of [b]. *)
Theorem SaveInstances_twice_writes_once
    (w : World) (h : History) (s : Storage) (insts : list Instance) (b : list Byte.byte) :
  let first := SaveInstances insts w h s in
  let second := SaveInstances insts w (after h first) (final first) in
  outcome (serialize insts w h s) = Done (Ok b) ->
  outcome (serialize insts w (after h first) (final first)) = Done (Ok b) ->
  (exists data, In (EvStoreWrite data None) (events first)) ->
  outcome first = Done None /\
  bytes_of (lastSavedData (final first)) = b /\
  pendingData (final first) = None /\
  outcome second = Done None /\
  final second = final first /\
  onlyClock (events second) /\
  map bytes_of (storeWrites (events first ++ events second)) = [b].
Proof.
  cbv zeta. intros H1 H2 [data Hin].
  destruct (serialize_run insts w h s) as (r1 & e1 & E1 & C1).
  rewrite E1 in H1. cbn in H1. injection H1 as ->.
  assert (F : exists e2 t,
             SaveInstances insts w h s =
               (Done None, mkStorage (cloneBytes (Some b)) t (debounceInterval s) None None,
                e2 ++ e1)
             /\ storeWrites (rev e2) = [cloneBytes (Some b)]).
  { clear H2. unfold SaveInstances, events in *. unfold bind at 1. unfold bind at 1 in Hin.
    rewrite E1 in *. unfold saveLocked, writeLocked, trackImmediateSave, stopTimer in *.
    unfold_m. cbn in *.
    assert (Hc : forall x, In x (rev e1) -> forall d r, x <> EvStoreWrite d r)
      by (intros x Hx d r ->; apply in_rev in Hx; destruct (C1 _ Hx) as [t Ht]; discriminate Ht).
    repeat (branch; cbn in * );
      rewrite ?app_nil_r in *;
      repeat match goal with
             | H : In _ (rev _) |- _ => exfalso; exact (Hc _ H _ _ eq_refl)
             | H : In _ (_ ++ _) |- _ => apply in_app_or in H
             | H : In _ (_ :: _) |- _ => destruct H
             | H : In _ [] |- _ => destruct H
             | H : _ \/ _ |- _ => destruct H
             | H : False |- _ => destruct H
             | H : EvStoreWrite _ _ = EvStoreWrite _ _ |- _ => inversion H; subst; clear H
             | H : _ = EvStoreWrite _ _ |- _ => discriminate H
             end;
      try congruence;
      first [ eexists [_; _; _], _; split; reflexivity
            | eexists [_; _], _; split; reflexivity ]. }
  destruct F as (e2 & t & F & W).
  unfold outcome, final, events, after in *. rewrite F in *. cbn [fst snd] in *.
  destruct (serialize_run insts w ((e2 ++ e1) ++ h)
              (mkStorage (cloneBytes (Some b)) t (debounceInterval s) None None))
    as (r2 & e3 & E2 & C2).
  rewrite E2 in H2. cbn in H2. injection H2 as ->.
  assert (G : SaveInstances insts w ((e2 ++ e1) ++ h)
                (mkStorage (cloneBytes (Some b)) t (debounceInterval s) None None) =
              (Done None, mkStorage (cloneBytes (Some b)) t (debounceInterval s) None None, e3)).
  { unfold SaveInstances. unfold bind at 1. rewrite E2.
    unfold saveLocked. unfold_m. cbn. rewrite bytes_Equal_clone. cbn. reflexivity. }
  rewrite G. cbn [fst snd lastSavedData pendingData].
  repeat split.
  - apply bytes_of_clone.
  - now apply onlyClock_rev.
  - rewrite rev_app_distr, !storeWrites_app, W.
    rewrite (storeWrites_onlyClock (rev e1)) by now apply onlyClock_rev.
    rewrite (storeWrites_onlyClock (rev e3)) by now apply onlyClock_rev.
    cbn. now rewrite bytes_of_clone.
Qed.

(** C4, refuted as stated: with a write pending and a store that rejects
    it, [Flush] returns the error and changes nothing: the bytes stay
    pending, [last_saved_bytes] is not set and the timer stays armed. *)
Lemma Flush_keeps_pending_when_store_fails :
  let run := Flush storeFailsWorld [] pendingStorage in
  pendingData pendingStorage = Some jsonEmptyList /\
  outcome run = Done (Some "disk full") /\
  storeWrites (events run) = [Some jsonEmptyList] /\
  pendingData (final run) = Some jsonEmptyList /\
  lastSavedData (final run) = None /\
  debounceTimer (final run) = Some (mkTimer (5 * Second)).
Proof. cbv zeta. repeat split; reflexivity. Qed.

Lemma cloneBytes_nonempty (b : Bytes) : len b <> 0%nat -> cloneBytes b = b.
Proof.
  unfold cloneBytes, len. destruct b as [[|x l]|]; cbn; congruence.
Qed.

(** C4 (as amended).  [Flush] is a no-op returning success when nothing is
    pending.  When a write is pending it hands the pending bytes to the
    byte store; if the store accepts them, [Flush] returns success with
    [last_saved_bytes] set to those bytes, [last_save_time] set to the
    clock read after the write, the pending buffer cleared and the timer
    stopped (if one was armed) and cleared; if the store rejects them,
    [Flush] returns the store's error and leaves the registry as it was. *)
Theorem Flush_writes_pending (w : World) (h : History) (s : Storage) :
  let run := Flush w h s in
  let write := EvStoreWrite (pendingData s) (store_SaveInstances w h (pendingData s)) in
  (len (pendingData s) = 0%nat ->
     outcome run = Done None /\ final run = s /\ events run = [])
  /\
  (len (pendingData s) <> 0%nat ->
     match store_SaveInstances w h (pendingData s) with
     | None =>
         outcome run = Done None /\
         events run = [write; EvNow (time_Now w (write :: h))]
                      ++ match debounceTimer s with
                         | Some _ => [EvTimerStop]
                         | None => []
                         end /\
         lastSavedData (final run) = pendingData s /\
         lastSaveTime (final run) = time_Now w (write :: h) /\
         pendingData (final run) = None /\
         debounceTimer (final run) = None /\
         debounceInterval (final run) = debounceInterval s
     | Some err =>
         outcome run = Done (Some err) /\ events run = [write] /\ final run = s
     end).
Proof.
  cbv zeta. split; intros Hl.
  - unfold Flush. unfold_m. rewrite Hl. cbn. auto.
  - unfold Flush, writeLocked, stopTimer. unfold_m. cbn.
    pose proof (cloneBytes_nonempty _ Hl) as Hc.
    apply Nat.eqb_neq in Hl. rewrite Hl. cbn. rewrite !Hc.
    destruct (store_SaveInstances w h (pendingData s)) as [err|]; cbn; [auto|].
    destruct (debounceTimer s); cbn; auto 10.
Qed.

(** ** The claims at concrete inputs *)

Example Split_nl_example :
  Split_nl (String.concat nl ["a"; ""; "b"]) = ["a"; ""; "b"].
Proof. reflexivity. Qed.

Example countDiffStats_sampleDiff : countDiffStats sampleDiff = (2, 1).
Proof. reflexivity. Qed.

Lemma countDiffStats_counts_lines_witness :
  Z.of_nat (String.length sampleDiff) < 2 ^ 63 /\
  lines_of ["--- a/file.txt"; "+++ b/file.txt"; "@@ -1 +1,2 @@"; " original";
            "-gone"; "+change-one"; "+change-two"; ""] sampleDiff /\
  countDiffStats sampleDiff = (2, 1).
Proof.
  assert (Hlen : Z.of_nat (String.length sampleDiff) < 2 ^ 63) by (vm_compute; reflexivity).
  assert (Hl : lines_of ["--- a/file.txt"; "+++ b/file.txt"; "@@ -1 +1,2 @@"; " original";
                         "-gone"; "+change-one"; "+change-two"; ""] sampleDiff).
  { split; [discriminate|]. split; [repeat constructor | reflexivity]. }
  split; [exact Hlen|]. split; [exact Hl|].
  destruct (countDiffStats_counts_lines sampleDiff Hlen) as (_ & H & _).
  exact (H _ Hl).
Defined.


Lemma Diff_cached_hit_and_errors_witness :
  (outcome (Diff false calmWorld [] cachedHandle) = Done cachedStats /\
   lastDiff (final (Diff false calmWorld [] cachedHandle)) = Some cachedStats)
  /\
  ((exists stats, outcome (Diff false gitFailsWorld [] cachedHandle) = Done stats /\
                  Error stats = Some "fatal: not a git repository") /\
   lastDiff (final (Diff false gitFailsWorld [] cachedHandle)) = Some cachedStats).
Proof.
  split.
  - destruct (proj1 (Diff_cached_hit_and_errors calmWorld [] cachedHandle false)
                " M file.txt" cachedStats eq_refl eq_refl eq_refl eq_refl)
      as (H1 & _ & H3 & _).
    exact (conj H1 H3).
  - destruct (proj2 (Diff_cached_hit_and_errors gitFailsWorld [] cachedHandle false)
                "/repo/wt" statusArgs "fatal: not a git repository"
                (or_introl eq_refl))
      as (H1 & H2 & _).
    exact (conj H1 H2).
Defined.

Lemma SaveInstances_twice_writes_once_witness :
  let first := SaveInstances [] calmWorld [] NewStorage in
  let second := SaveInstances [] calmWorld (after [] first) (final first) in
  outcome second = Done None /\
  final second = final first /\
  map bytes_of (storeWrites (events first ++ events second)) = [jsonEmptyList].
Proof.
  cbv zeta.
  destruct (SaveInstances_twice_writes_once calmWorld [] NewStorage [] jsonEmptyList
              eq_refl eq_refl
              (ex_intro _ (Some jsonEmptyList) (or_intror (or_introl eq_refl))))
    as (_ & _ & _ & H4 & H5 & _ & H7).
  exact (conj H4 (conj H5 H7)).
Defined.

Lemma Flush_writes_pending_witness :
  (outcome (Flush calmWorld [] NewStorage) = Done None /\
   events (Flush calmWorld [] NewStorage) = [])
  /\
  (outcome (Flush calmWorld [] pendingStorage) = Done None /\
   storeWrites (events (Flush calmWorld [] pendingStorage)) = [Some jsonEmptyList] /\
   lastSavedData (final (Flush calmWorld [] pendingStorage)) = Some jsonEmptyList /\
   pendingData (final (Flush calmWorld [] pendingStorage)) = None /\
   debounceTimer (final (Flush calmWorld [] pendingStorage)) = None).
Proof.
  split.
  - destruct (proj1 (Flush_writes_pending calmWorld [] NewStorage) eq_refl) as (H1 & _ & H3).
    exact (conj H1 H3).
  - assert (Hl : len (pendingData pendingStorage) <> 0%nat) by discriminate.
    pose proof (proj2 (Flush_writes_pending calmWorld [] pendingStorage) Hl) as H.
    cbn in H. destruct H as (H1 & H2 & H3 & _ & H5 & H6 & _).
    repeat split; assumption || reflexivity.
Defined.

Lemma Pause_stops_on_commit_failure_witness :
  (exists e, outcome (Pause commitFailsWorld [] runningInstance) = Done (Some e)) /\
  (forall r, ~ In (EvRemove r) (events (Pause commitFailsWorld [] runningInstance))) /\
  Status_ (final (Pause commitFailsWorld [] runningInstance)) = Running.
Proof.
  assert (Hp : Status_ runningInstance <> Paused) by discriminate.
  assert (Hin : In (EvCommitChanges (pauseCommitMsg "test-instance" "01 Jan 25 00:00 UTC")
                      (Some "nothing to commit"))
                   (events (Pause commitFailsWorld [] runningInstance)))
    by (vm_compute; tauto).
  destruct (Pause_stops_on_commit_failure commitFailsWorld [] runningInstance _ _
              eq_refl Hp Hin) as (_ & H2 & H3 & _ & H5 & _).
  exact (conj H2 (conj H3 H5)).
Defined.

Lemma Start_checks_title_only_witness :
  outcome (Start true calmWorld [] zeroInstance) = Done (Some "instance title cannot be empty")
  /\
  (started runningInstance = true /\
   outcome (Start false calmWorld [] runningInstance) = Done None /\
   Status_ (final (Start false calmWorld [] runningInstance)) = Running).
Proof.
  split.
  - exact (proj1 (proj1 (Start_checks_title_only calmWorld [] zeroInstance) true eq_refl)).
  - assert (Ht : Title runningInstance <> "") by discriminate.
    assert (Hw : worktreePath cachedHandle <> "") by discriminate.
    destruct (proj2 (Start_checks_title_only calmWorld [] runningInstance)
                cachedHandle Ht eq_refl Hw eq_refl) as (H1 & _ & H3).
    exact (conj eq_refl (conj H1 H3)).
Defined.

Lemma roundTrip_fields_witness :
  (Title restoredInstance = "test-instance" /\
   Status_ restoredInstance = Running /\
   Branch restoredInstance = "test-branch")
  /\
  (exists j, outcome (roundTrip pausedInstance calmWorld [] tt) = Done (Ok j)).
Proof.
  split.
  - destruct (proj1 (roundTrip_fields calmWorld [] readyInstance) restoredInstance eq_refl)
      as (H1 & _ & _ & _ & _ & _ & H7 & H8).
    exact (conj H1 (conj H7 H8)).
  - exact (proj2 (roundTrip_fields calmWorld [] pausedInstance) eq_refl).
Defined.

(** C9, refuted as stated: the session [NewInstance] constructs starts
    with the preview marked dirty. *)
Lemma NewInstance_starts_preview_dirty :
  exists inst,
    outcome (NewInstance sampleOptions calmWorld [] tt) = Done (Ok inst) /\
    IsPreviewDirty inst = true.
Proof. eexists. split; reflexivity. Qed.

Lemma preview_dirty_flag_witness :
  IsPreviewDirty zeroInstance = false /\
  IsPreviewDirty (MarkPreviewDirty zeroInstance) = true /\
  IsPreviewDirty (set_previewDirty false (MarkPreviewDirty zeroInstance)) = false /\
  exists inst,
    outcome (NewInstance sampleOptions calmWorld [] tt) = Done (Ok inst) /\
    IsPreviewDirty inst = true.
Proof.
  destruct (preview_dirty_flag sampleOptions calmWorld []) as (H1 & H2 & H3 & H4).
  split; [exact H1|]. split; [exact (H3 zeroInstance)|]. split; [exact (H4 zeroInstance)|].
  eexists. split; [reflexivity|]. apply H2. reflexivity.
Defined.

Lemma MarkDiffDirty_invalidates_cache_witness :
  lastDiff cachedHandle = Some cachedStats /\
  diffDirty (MarkDiffDirty runningInstance) = true /\
  gitWorktree (MarkDiffDirty runningInstance) = Some (InvalidateDiffCache cachedHandle) /\
  lastDiff (InvalidateDiffCache cachedHandle) = None.
Proof.
  destruct (MarkDiffDirty_invalidates_cache runningInstance cachedHandle eq_refl)
    as (H1 & H2 & H3 & _).
  exact (conj eq_refl (conj H1 (conj H2 H3))).
Defined.

(** The cache test of the [git] package: a second [Diff(false)] with an
    unchanged status answers from the cache; after [InvalidateDiffCache]
    the diff is computed again. *)
Example Diff_cache_scenario :
  outcome (Diff false calmWorld [] cachedHandle) = Done cachedStats /\
  outcome (Diff false calmWorld [] (InvalidateDiffCache cachedHandle)) =
    Done (mkDiffStats sampleDiff 2 1 None).
Proof. split; reflexivity. Qed.

(** The debounce test of the registry: two saves of the empty list write
    once; a save of a started session right after is queued; [Flush]
    writes it, clears the queue and leaves no timer. *)
Example debounce_and_flush_scenario :
  let w := calmWorld in
  let r1 := SaveInstances [] w [] testStorage in
  let r2 := SaveInstances [] w (after [] r1) (final r1) in
  let r3 := SaveInstances [runningInstance] w (after (after [] r1) r2) (final r2) in
  let r4 := Flush w (after (after (after [] r1) r2) r3) (final r3) in
  List.length (storeWrites (events r1)) = 1%nat /\
  List.length (storeWrites (events r1 ++ events r2)) = 1%nat /\
  List.length (storeWrites (events r1 ++ events r2 ++ events r3)) = 1%nat /\
  is_nil (pendingData (final r3)) = false /\
  List.length (storeWrites (events r1 ++ events r2 ++ events r3 ++ events r4)) = 2%nat /\
  pendingData (final r4) = None /\
  debounceTimer (final r4) = None.
Proof. cbv zeta. repeat split; reflexivity. Qed.

(** * More of the code

    Properties of the functions around those above: the rest of the
    registry's persistence, the lifecycle of a session, the diff watcher
    and the git commands of [Diff]. *)

(** ** Composing invariants and traces *)

Section Keeps.

Context {S : Type} (R : S -> S -> Prop).
Hypothesis R_refl : forall s, R s s.
Hypothesis R_trans : forall a b c, R a b -> R b c -> R a c.

Lemma keeps_bind {A B : Type} (m : M S A) (f : A -> M S B) :
  keeps R m -> (forall a, keeps R (f a)) -> keeps R (bind m f).
Proof.
  intros Hm Hf w h s. unfold keeps, final, bind in *.
  specialize (Hm w h s).
  destruct (m w h s) as [[[a|msg] s1] e1]; cbn in *; [|assumption].
  specialize (Hf a w (e1 ++ h) s1).
  destruct (f a w (e1 ++ h) s1) as [[r s2] e2]; cbn in *. eauto.
Qed.

Lemma keeps_ret {A : Type} (a : A) : keeps R (ret a).
Proof. intros w h s. apply R_refl. Qed.

Lemma keeps_get : keeps R get.
Proof. intros w h s. apply R_refl. Qed.

Lemma keeps_panic {A : Type} (msg : string) : keeps R (@panic S A msg).
Proof. intros w h s. apply R_refl. Qed.

Lemma keeps_call {A : Type} (ask : World -> History -> A) (ev : A -> Event) :
  keeps R (call ask ev).
Proof. intros w h s. apply R_refl. Qed.

Lemma keeps_ask {A : Type} (f : World -> A) : keeps R (ask f).
Proof. intros w h s. apply R_refl. Qed.

Lemma keeps_probe {A : Type} (f : History -> A) : keeps R (probe f).
Proof. intros w h s. apply R_refl. Qed.

Lemma keeps_emit (e : Event) : keeps R (emit e).
Proof. intros w h s. apply R_refl. Qed.

Lemma keeps_now : keeps R now.
Proof. intros w h s. apply R_refl. Qed.

Lemma keeps_modify (f : S -> S) : (forall s, R s (f s)) -> keeps R (modify f).
Proof. intros Hf w h s. apply Hf. Qed.

End Keeps.

Section EmitsOnly.

Context {S : Type} (P : Event -> Prop).

Lemma emitsOnly_bind {A B : Type} (m : M S A) (f : A -> M S B) :
  emitsOnly P m -> (forall a, emitsOnly P (f a)) -> emitsOnly P (bind m f).
Proof.
  intros Hm Hf w h s e. unfold emitsOnly, events, bind in *.
  specialize (Hm w h s).
  destruct (m w h s) as [[[a|msg] s1] e1]; cbn in *; [|apply Hm].
  specialize (Hf a w (e1 ++ h) s1).
  destruct (f a w (e1 ++ h) s1) as [[r s2] e2]; cbn in *.
  rewrite rev_app_distr. intros Hin. apply in_app_or in Hin. destruct Hin; eauto.
Qed.

Lemma emitsOnly_silent {A : Type} (m : M S A) :
  (forall w h s, snd (m w h s) = []) -> emitsOnly P m.
Proof. intros Hm w h s e. unfold events. rewrite Hm. intros []. Qed.

Lemma emitsOnly_call {A : Type} (ask : World -> History -> A) (ev : A -> Event) :
  (forall r, P (ev r)) -> emitsOnly P (call ask ev : M S A).
Proof. intros Hev w h s e [<-|[]]. apply Hev. Qed.

Lemma emitsOnly_emit (e : Event) : P e -> emitsOnly P (emit e : M S unit).
Proof. intros He w h s x [<-|[]]. exact He. Qed.

End EmitsOnly.


(** ** The registry: queued bytes are never lost *)

Lemma bytes_Equal_true (a b : Bytes) : bytes_Equal a b = true -> bytes_of a = bytes_of b.
Proof.
  unfold bytes_Equal.
  match goal with |- context [list_eq_dec ?d ?x ?y] => destruct (list_eq_dec d x y) end;
    [auto | discriminate].
Qed.

Lemma cloneBytes_len (b : Bytes) : len (cloneBytes b) = len b.
Proof. unfold cloneBytes, len. now destruct b as [[|x l]|]. Qed.

Lemma bytes_of_cloneBytes (b : Bytes) : bytes_of (cloneBytes b) = bytes_of b.
Proof. unfold cloneBytes, len. now destruct b as [[|x l]|]. Qed.

(** [SaveInstances] is its locked part once the sessions are serialized,
    and returns at once when they cannot be. *)
Lemma SaveInstances_cases
    (w : World) (h : History) (s : Storage) (insts : list Instance) :
  exists e1, onlyClock e1 /\
    ((exists b, serialize insts w h s = (Done (Ok b), s, e1) /\
                SaveInstances insts w h s =
                  (fst (saveLocked (Some b) w (e1 ++ h) s),
                   snd (saveLocked (Some b) w (e1 ++ h) s) ++ e1))
     \/
     (exists err, serialize insts w h s = (Done (Err err), s, e1) /\
                  SaveInstances insts w h s =
                    (Done (Some (wrapErr "failed to marshal instances" err)), s, e1))).
Proof.
  destruct (serialize_run insts w h s) as (r & e1 & E & C).
  exists e1. split; [assumption|]. destruct r as [b|err].
  - left. exists b. split; [assumption|]. now apply SaveInstances_unfold.
  - right. exists err. split; [assumption|].
    unfold SaveInstances, bind. rewrite E. reflexivity.
Qed.

(** X1.  Queued bytes always have a timer.  If the invariant holds before
    [SaveInstances], [Flush] or the timer callback [flushPending], it holds
    after; it holds in a new registry. *)
Theorem pending_has_timer_kept
    (w : World) (h : History) (s : Storage) (insts : list Instance) :
  pendingHasTimer NewStorage /\
  (pendingHasTimer s ->
   pendingHasTimer (final (SaveInstances insts w h s)) /\
   pendingHasTimer (final (Flush w h s)) /\
   pendingHasTimer (final (flushPending w h s))).
Proof.
  split; [intros H; now contradiction H|].
  intros Hs. repeat split.
  - destruct (SaveInstances_cases w h s insts) as (e1 & _ & [(b & _ & ->)|(err & _ & ->)]);
      [|exact Hs].
    unfold pendingHasTimer, final in *. cbn [fst snd].
    unfold saveLocked, writeLocked, trackImmediateSave, stopTimer. unfold_m. cbn.
    repeat (branch; cbn); try assumption; try (intros _; discriminate);
      try (intros H; now contradiction H).
  - unfold pendingHasTimer, final, Flush, writeLocked, stopTimer in *. unfold_m. cbn.
    repeat (branch; cbn); try assumption; intros H; now contradiction H.
  - unfold pendingHasTimer, final, flushPending, writeLocked in *. unfold_m. cbn.
    repeat (branch; cbn); try (intros _; discriminate).
    + apply Nat.eqb_eq in Heqb. intros H. now contradiction H.
    + intros H. now contradiction H.
Qed.

(** X2.  A successful [SaveInstances] never drops the bytes [b] it was given:
    afterwards either [b] is the last saved content and nothing is pending,
    or [b] is pending with a timer armed, nothing was written and the last
    saved content is as before.  A timer it arms has a delay of at least
    one second. *)
Theorem SaveInstances_keeps_the_bytes
    (w : World) (h : History) (s : Storage) (insts : list Instance) (b : list Byte.byte) :
  outcome (serialize insts w h s) = Done (Ok b) ->
  outcome (SaveInstances insts w h s) = Done None ->
  ((bytes_of (lastSavedData (final (SaveInstances insts w h s))) = b /\
    pendingData (final (SaveInstances insts w h s)) = None)
   \/
   (bytes_of (pendingData (final (SaveInstances insts w h s))) = b /\
    debounceTimer (final (SaveInstances insts w h s)) <> None /\
    lastSavedData (final (SaveInstances insts w h s)) = lastSavedData s /\
    storeWrites (events (SaveInstances insts w h s)) = []))
  /\
  (forall d, In (EvAfterFunc d) (events (SaveInstances insts w h s)) -> Second <= d).
Proof.
  intros H1.
  destruct (SaveInstances_cases w h s insts) as (e1 & C1 & [(b' & E & ->)|(err & E & ->)]);
    rewrite E in H1; cbn in H1; [injection H1 as ->|discriminate H1].
  assert (Hw : storeWrites (rev e1) = [])
    by (apply storeWrites_onlyClock; now apply onlyClock_rev).
  assert (Ht : forall d, ~ In (EvAfterFunc d) (rev e1))
    by (intros d Hd; apply in_rev in Hd; destruct (C1 _ Hd) as [t Hx]; discriminate Hx).
  unfold outcome, final, events. cbn [fst snd].
  unfold saveLocked, writeLocked, trackImmediateSave, stopTimer. unfold_m. cbn.
  pose proof (bytes_of_clone b) as Hc.
  destruct (bytes_Equal (Some b) (lastSavedData s) && is_nil (pendingData s)) eqn:Hd; cbn.
  - intros _. apply andb_prop in Hd as [Hq Hn]. apply bytes_Equal_true in Hq.
    rewrite ?app_nil_r. split.
    + left. split; [now symmetry|]. now destruct (pendingData s).
    + intros d Hin. exfalso. exact (Ht _ Hin).
  - repeat (branch; cbn); try discriminate; intros _;
      rewrite ?app_nil_r, ?rev_app_distr, ?storeWrites_app, ?Hw; cbn;
      (split;
       [ first [ left; split; [assumption | reflexivity]
               | right; repeat split; (assumption || discriminate) ]
       | intros d Hin; rewrite ?in_app_iff in Hin; cbn in Hin;
         repeat match goal with
                | H : _ \/ _ |- _ => destruct H
                | H : False |- _ => destruct H
                | H : In (EvAfterFunc _) (rev e1) |- _ => exfalso; exact (Ht _ H)
                | H : _ = EvAfterFunc _ |- _ => try discriminate H; injection H as <-
                end;
         repeat match goal with
                | H : (_ <? _) = false |- _ => apply Z.ltb_ge in H
                end; lia ]).
Qed.


(** X3.  [Flush] completes a save.  When [SaveInstances] has returned
    success for the non-empty bytes [b] and the [Flush] that follows
    returns success, [b] is the last saved content and nothing is pending. *)
Theorem SaveInstances_then_Flush
    (w : World) (h : History) (s : Storage) (insts : list Instance) (b : list Byte.byte) :
  let save := SaveInstances insts w h s in
  let flush := Flush w (after h save) (final save) in
  b <> [] ->
  outcome (serialize insts w h s) = Done (Ok b) ->
  outcome save = Done None ->
  outcome flush = Done None ->
  bytes_of (lastSavedData (final flush)) = b /\
  pendingData (final flush) = None.
Proof.
  cbv zeta. intros Hb H1.
  destruct (SaveInstances_cases w h s insts) as (e1 & C1 & [(b' & E & ->)|(err & E & ->)]);
    rewrite E in H1; cbn in H1; [injection H1 as ->|discriminate H1].
  assert (Hc : cloneBytes (Some b) = Some b) by (now destruct b).
  assert (Hl : (len (Some b) =? 0)%nat = false) by (now destruct b).
  unfold outcome, final, after. cbn [fst snd].
  unfold saveLocked, Flush, writeLocked, trackImmediateSave, stopTimer. unfold_m. cbn.
  destruct (bytes_Equal (Some b) (lastSavedData s) && is_nil (pendingData s)) eqn:Hd; cbn.
  - apply andb_prop in Hd as [Hq Hn]. apply bytes_Equal_true in Hq. cbn in Hq.
    destruct (pendingData s) eqn:Hp; [discriminate Hn|]. cbn.
    rewrite ?Hp. cbn. intros _ _. split; [now symmetry | reflexivity].
  - rewrite !Hc. repeat (branch; cbn); try discriminate; rewrite ?Hc, ?Hl; cbn;
      repeat (branch; cbn); try discriminate; auto;
      exfalso;
      match goal with
      | H : (Datatypes.length b =? 0)%nat = true |- _ =>
          apply Nat.eqb_eq in H; destruct b; [now apply Hb | discriminate H]
      end.
Qed.

(** X4.  The timer callback never loses the queued bytes.  With bytes
    pending, [flushPending] hands them to the store once; if the store
    accepts them they become the last saved content and the queue and the
    timer are cleared; if not, they stay queued, the last saved content is
    as before, and a timer is armed again for the debounce interval.  With
    nothing pending it only clears the timer. *)
Theorem flushPending_keeps_the_bytes (w : World) (h : History) (s : Storage) :
  let run := flushPending w h s in
  (len (pendingData s) = 0%nat ->
     events run = [] /\ debounceTimer (final run) = None /\
     pendingData (final run) = pendingData s /\
     lastSavedData (final run) = lastSavedData s)
  /\
  (len (pendingData s) <> 0%nat ->
     storeWrites (events run) = [pendingData s] /\
     ((In (EvStoreWrite (pendingData s) None) (events run) /\
       lastSavedData (final run) = pendingData s /\
       pendingData (final run) = None /\
       debounceTimer (final run) = None)
      \/
      ((exists err, In (EvStoreWrite (pendingData s) (Some err)) (events run)) /\
       lastSavedData (final run) = lastSavedData s /\
       pendingData (final run) = pendingData s /\
       debounceTimer (final run) = Some (mkTimer (debounceInterval s)) /\
       In (EvAfterFunc (debounceInterval s)) (events run)))).
Proof.
  cbv zeta. split; intros Hl.
  - unfold flushPending. unfold_m. rewrite Hl. cbn. auto.
  - unfold flushPending, writeLocked. unfold_m. cbn.
    pose proof (cloneBytes_nonempty _ Hl) as Hc.
    apply Nat.eqb_neq in Hl. rewrite Hl. cbn. rewrite !Hc.
    destruct (store_SaveInstances w h (pendingData s)) as [err|]; cbn.
    + split; [reflexivity|]. right. repeat split; eauto.
    + split; [reflexivity|]. left. repeat split; eauto.
Qed.

(** ** What [SaveInstances] serializes *)

Lemma collectData_records {S : Type} (instances : list Instance) :
  forall (data : list InstanceData) (w : World) (h : History) (s : S),
  exists ds evs,
    collectData instances data w h s = (Done (data ++ ds), s, evs) /\
    onlyClock evs /\
    List.length evs = List.length (filter Started instances) /\
    map data_Title ds = map Title (filter Started instances) /\
    map data_Status ds = map Status_ (filter Started instances) /\
    map data_AutoYes ds = map AutoYes (filter Started instances).
Proof.
  induction instances as [|i rest IH]; intros data w h s.
  - exists [], []. cbn. rewrite app_nil_r. repeat split. intros e [].
  - cbn [collectData filter]. destruct (Started i).
    + unfold ToInstanceData. unfold_m. unfold call. cbn [fst snd app].
      match goal with
      | |- context [collectData rest (data ++ [?d]) w ?h' s] =>
          destruct (IH (data ++ [d]) w h' s) as (ds & evs & -> & Hc & Hl & Ht & Hs & Ha);
          exists (d :: ds), (evs ++ [EvNow (time_Now w h)])
      end.
      rewrite <- app_assoc. cbn [app]. split; [reflexivity|].
      split; [apply onlyClock_app; [assumption|]; intros e [<-|[]]; eauto|].
      rewrite length_app, Hl. cbn. rewrite Ht, Hs, Ha. repeat split. lia.
    + apply IH.
Qed.

(** X5.  What [SaveInstances] serializes.  The records handed to
    [json.Marshal] are those of the started sessions, in the order of the
    list, each with its session's title, status and auto-yes flag; the
    sessions that are not started are left out.  Building them reads the
    clock once per started session and does nothing else. *)
Theorem serialize_started_sessions
    (instances : list Instance) (w : World) (h : History) (s : Storage) :
  exists ds,
    outcome (serialize instances w h s) = Done (json_Marshal w ds) /\
    final (serialize instances w h s) = s /\
    map data_Title ds = map Title (filter Started instances) /\
    map data_Status ds = map Status_ (filter Started instances) /\
    map data_AutoYes ds = map AutoYes (filter Started instances) /\
    onlyClock (events (serialize instances w h s)) /\
    List.length (events (serialize instances w h s)) =
      List.length (filter Started instances).
Proof.
  unfold serialize, bind, ask.
  destruct (collectData_records instances [] w h s) as (ds & evs & -> & Hc & Hl & Ht & Hs & Ha).
  exists ds. unfold outcome, final, events. cbn [fst snd app].
  repeat (split; [first [reflexivity | assumption]|]).
  split; [now apply onlyClock_rev | now rewrite length_rev].
Qed.

(** ** Sessions from stored records *)

Section FromRecord.

Context {S : Type} (w : World) (h : History) (s : S) (data : InstanceData).

Local Abbreviation run := (FromInstanceData data w h s).

(** Evaluate [FromInstanceData], one case per answer of the collaborators. *)
Ltac from_record_cases :=
  unfold FromInstanceData, instanceOfData, Paused_, runOn; unfold_m; keep_strings;
  destruct (data_Status data) eqn:Hst; keep_strings;
  unfold Start, startBody, startDiffWatcher, stopDiffWatcher, Kill, onTmux, onWorktree,
         GetBranch, markStarted, MarkDiffDirty, MarkPreviewDirty, SetStatus, sessionOrNew;
  unfold_m; keep_strings;
  repeat (branch; keep_strings).

Lemma FromInstanceData_state : final run = s.
Proof. from_record_cases; reflexivity. Qed.

Lemma FromInstanceData_returns : exists r, outcome run = Done r.
Proof. from_record_cases; eexists; reflexivity. Qed.

Lemma FromInstanceData_session (j : Instance) :
  outcome run = Done (Ok j) ->
  Title j = data_Title data /\ started j = true /\
  tmuxSession j = Some (NewTmuxSession (data_Title data) (data_Program data)) /\
  previewDirty j = true /\ diffDirty j = true /\ lastDiffCheck j = 0 /\
  AutoYes j = false /\ UpdatedAt j = data_UpdatedAt data /\
  Branch j = d_BranchName (data_Worktree data) /\
  diffStats j = Some (mkDiffStats (d_Content (data_DiffStats data))
                        (d_Added (data_DiffStats data))
                        (d_Removed (data_DiffStats data)) None).
Proof.
  from_record_cases; intros Ho; try discriminate Ho; injection Ho as <-; cbn; auto 12.
Qed.

Lemma FromInstanceData_handle (j : Instance) :
  outcome run = Done (Ok j) ->
  gitWorktree j =
    Some (NewGitWorktreeFromStorage
            (d_RepoPath (data_Worktree data)) (d_WorktreePath (data_Worktree data))
            (d_SessionName (data_Worktree data)) (d_BranchName (data_Worktree data))
            (d_BaseCommitSHA (data_Worktree data))).
Proof.
  from_record_cases; intros Ho; try discriminate Ho; injection Ho as <-; reflexivity.
Qed.

Lemma FromInstanceData_paused :
  data_Status data = Paused ->
  events run = [] /\ exists j, outcome run = Done (Ok j) /\ Status_ j = Paused.
Proof.
  intros Hp. unfold FromInstanceData, instanceOfData, Paused_. unfold_m. cbn.
  rewrite Hp. cbn. split; [reflexivity|]. eexists. split; [reflexivity|].
  unfold GetBranch. cbn. reflexivity.
Qed.

Lemma FromInstanceData_restores (j : Instance) :
  data_Status data <> Paused -> outcome run = Done (Ok j) ->
  Status_ j = Running /\ In (EvTmuxRestore None) (events run).
Proof.
  intros Hp. from_record_cases; try (now contradiction Hp);
    intros Ho; try discriminate Ho; injection Ho as <-; (split; [reflexivity | find_in]).
Qed.

Lemma FromInstanceData_error (e : error) :
  outcome run = Done (Err e) ->
  data_Status data <> Paused /\
  (data_Title data = "" \/ (exists r, In (EvTmuxRestore (Some r)) (events run)) \/
   d_WorktreePath (data_Worktree data) = "").
Proof.
  from_record_cases; intros Ho; try discriminate Ho; (split; [discriminate|]).
  all: first
    [ left; now apply String.eqb_eq
    | right; left; eexists; find_in
    | right; right; now apply String.eqb_eq ].
Qed.

Lemma FromInstanceData_no_write : storeWrites (events run) = [].
Proof. from_record_cases; reflexivity. Qed.

End FromRecord.

(** X6.  What [FromInstanceData] builds.  It always returns, and yields a
    session for every record whose status is [Paused].  The session it
    yields is started, has the record's title, a pane handle for the
    record's title and program, a checkout handle built from the record's
    [worktree] fields with an empty cache, the record's diff stats, both
    dirty flags set, no time of a last diff, the record's [updated_at], and
    as branch the branch name of the [worktree] fields; its auto-yes flag
    is off.  For a [Paused] record nothing is done to the world and the
    session is [Paused]; for any other record the pane was restored and
    the session is [Running].  An error means that the record is not
    [Paused] and that its title is empty, or the pane could not be
    restored, or the record has no working-copy path. *)
Theorem FromInstanceData_result (w : World) (h : History) (data : InstanceData) :
  let run := FromInstanceData data w h tt in
  (exists r, outcome run = Done r) /\
  (data_Status data = Paused -> exists j, outcome run = Done (Ok j)) /\
  (forall j, outcome run = Done (Ok j) ->
     Title j = data_Title data /\ started j = true /\
     tmuxSession j = Some (NewTmuxSession (data_Title data) (data_Program data)) /\
     previewDirty j = true /\ diffDirty j = true /\ lastDiffCheck j = 0 /\
     AutoYes j = false /\ UpdatedAt j = data_UpdatedAt data /\
     Branch j = d_BranchName (data_Worktree data) /\
     diffStats j = Some (mkDiffStats (d_Content (data_DiffStats data))
                           (d_Added (data_DiffStats data))
                           (d_Removed (data_DiffStats data)) None) /\
     gitWorktree j =
       Some (NewGitWorktreeFromStorage
               (d_RepoPath (data_Worktree data)) (d_WorktreePath (data_Worktree data))
               (d_SessionName (data_Worktree data)) (d_BranchName (data_Worktree data))
               (d_BaseCommitSHA (data_Worktree data))) /\
     (data_Status data = Paused -> Status_ j = Paused /\ events run = []) /\
     (data_Status data <> Paused ->
        Status_ j = Running /\ In (EvTmuxRestore None) (events run))) /\
  (forall e, outcome run = Done (Err e) ->
     data_Status data <> Paused /\
     (data_Title data = "" \/ (exists r, In (EvTmuxRestore (Some r)) (events run)) \/
      d_WorktreePath (data_Worktree data) = "")).
Proof.
  cbv zeta. split; [apply FromInstanceData_returns|].
  split; [intros Hp; destruct (FromInstanceData_paused w h tt data Hp) as (_ & j & Hj & _); eauto|].
  split; [|apply FromInstanceData_error].
  intros j Hj.
  pose proof (FromInstanceData_session w h tt data j Hj) as Hs.
  pose proof (FromInstanceData_handle w h tt data j Hj) as Hh.
  repeat (split; [apply Hs|]).
  split; [exact Hh|]. split.
  - intros Hp. destruct (FromInstanceData_paused w h tt data Hp) as (He & j' & Hj' & Hst).
    split; [|exact He]. rewrite Hj in Hj'. now injection Hj' as ->.
  - intros Hp. now apply FromInstanceData_restores.
Qed.

(** ** [LoadInstances] *)

Lemma loadAll_run {S : Type} (datas : list InstanceData) :
  forall (acc : list Instance) (w : World) (h : History) (s : S),
  exists r evs,
    loadAll datas acc w h s = (Done r, s, evs) /\
    storeWrites (rev evs) = [] /\
    match r with
    | Ok l =>
        map Title l = map Title acc ++ map data_Title datas /\
        (Forall (fun j => started j = true) acc -> Forall (fun j => started j = true) l)
    | Err e =>
        exists d err,
          In d datas /\ e = wrapErr ("failed to create instance " ++ data_Title d)%string err
    end.
Proof.
  induction datas as [|d rest IH]; intros acc w h s.
  - exists (Ok acc), []. cbn. rewrite app_nil_r. auto.
  - cbn [loadAll]. unfold bind.
    pose proof (FromInstanceData_state w h s d) as Hst.
    pose proof (FromInstanceData_returns w h s d) as (r & Hr).
    pose proof (FromInstanceData_no_write w h s d) as Hw.
    pose proof (FromInstanceData_session w h s d) as Hj.
    destruct (FromInstanceData d w h s) as [[r0 s0] ev].
    unfold outcome, final, events in *. cbn [fst snd] in *. subst r0 s0.
    destruct r as [j|err].
    + destruct (IH (acc ++ [j]) w (ev ++ h) s) as (r & evs & -> & Hw2 & Hr).
      exists r, (evs ++ ev). split; [reflexivity|].
      split; [now rewrite rev_app_distr, storeWrites_app, Hw, Hw2|].
      destruct (Hj j eq_refl) as (Ht & Hs & _).
      destruct r as [l|e].
      * destruct Hr as [Hm Hf]. split.
        -- rewrite Hm, map_app, <- app_assoc. cbn. now rewrite Ht.
        -- intros Hacc. apply Hf. apply Forall_app. split; [assumption|]. now constructor.
      * destruct Hr as (d' & err & Hin & ->). exists d', err. split; [now right | reflexivity].
    + unfold ret. cbn [app].
      exists (Err (wrapErr ("failed to create instance " ++ data_Title d)%string err)), ev.
      split; [reflexivity|]. split; [exact Hw|].
      exists d, err. split; [now left | reflexivity].
Qed.

Lemma LoadInstances_run
    (getInstances : History -> Bytes)
    (unmarshal : Bytes -> Result (list InstanceData))
    (w : World) (h : History) (s : Storage) :
  exists r evs,
    LoadInstances getInstances unmarshal w h s = (Done r, s, evs) /\
    storeWrites (rev evs) = [] /\
    match unmarshal (getInstances h) with
    | Err err => r = Err (wrapErr "failed to unmarshal instances" err) /\ evs = []
    | Ok datas =>
        match r with
        | Ok l => map Title l = map data_Title datas /\ Forall (fun j => started j = true) l
        | Err e =>
            exists d err,
              In d datas /\
              e = wrapErr ("failed to create instance " ++ data_Title d)%string err
        end
    end.
Proof.
  unfold LoadInstances, probe. unfold_m.
  destruct (unmarshal (getInstances h)) as [datas|err] eqn:Hu.
  - destruct (loadAll_run datas [] w ([] ++ h) s) as (r & evs & -> & Hw & Hr).
    cbn [fst snd]. rewrite app_nil_r. exists r, evs.
    split; [reflexivity|]. split; [exact Hw|].
    destruct r as [l|e]; [|exact Hr]. destruct Hr as [Hm Hf]. split; [exact Hm | now apply Hf].
  - cbn. eexists _, _. split; [reflexivity|]. auto.
Qed.

(** X7.  What [LoadInstances] yields.  It always returns, does not touch
    the registry and writes nothing to the byte store.  When the stored
    bytes cannot be decoded it returns that error, wrapped, and does
    nothing else.  Otherwise it yields either one started session per
    record, with the records' titles in the records' order, or the error
    of a record whose session could not be built, wrapped with that
    record's title. *)
Theorem LoadInstances_result
    (getInstances : History -> Bytes)
    (unmarshal : Bytes -> Result (list InstanceData))
    (w : World) (h : History) (s : Storage) :
  let run := LoadInstances getInstances unmarshal w h s in
  (exists r, outcome run = Done r) /\
  final run = s /\
  storeWrites (events run) = [] /\
  (forall err, unmarshal (getInstances h) = Err err ->
     outcome run = Done (Err (wrapErr "failed to unmarshal instances" err)) /\
     events run = []) /\
  (forall datas l, unmarshal (getInstances h) = Ok datas -> outcome run = Done (Ok l) ->
     map Title l = map data_Title datas /\ Forall (fun j => started j = true) l) /\
  (forall datas e, unmarshal (getInstances h) = Ok datas -> outcome run = Done (Err e) ->
     exists d err,
       In d datas /\ e = wrapErr ("failed to create instance " ++ data_Title d)%string err).
Proof.
  cbv zeta.
  destruct (LoadInstances_run getInstances unmarshal w h s) as (r & evs & -> & Hw & Hr).
  unfold outcome, final, events. cbn [fst snd].
  split; [eauto|]. split; [reflexivity|]. split; [exact Hw|].
  destruct (unmarshal (getInstances h)) as [datas|err].
  - split; [intros err [=]|]. split.
    + intros ds l [= <-] [= ->]. exact Hr.
    + intros ds e [= <-] [= ->]. exact Hr.
  - destruct Hr as [-> ->]. split; [intros e [= <-]; auto|]. split; intros ds x [=].
Qed.

(** ** [DeleteInstance] and [UpdateInstance] *)

Lemma dropTitled_run {S : Type} (title : string) (instances : list Instance) :
  forall (acc : list Instance) (found : bool) (w : World) (h : History) (s : S),
  exists evs,
    dropTitled title instances acc found w h s =
      (Done (acc ++ filter (fun i => negb (titled title i)) instances,
             found || existsb (titled title) instances), s, evs) /\
    onlyClock evs.
Proof.
  induction instances as [|i rest IH]; intros acc found w h s.
  - exists []. cbn. rewrite app_nil_r, orb_false_r. split; [reflexivity | intros e []].
  - cbn [dropTitled filter existsb]. unfold ToInstanceData, titled. unfold_m. unfold call.
    cbn [fst snd app data_Title].
    destruct (Title i =? title)%string; cbn [negb].
    + destruct (IH acc true w (EvNow (time_Now w h) :: h) s) as (evs & -> & Hc).
      exists (evs ++ [EvNow (time_Now w h)]). cbn. rewrite orb_true_r. split; [reflexivity|].
      apply onlyClock_app; [assumption|]. intros e [<-|[]]. eauto.
    + destruct (IH (acc ++ [i]) found w (EvNow (time_Now w h) :: h) s) as (evs & -> & Hc).
      exists (evs ++ [EvNow (time_Now w h)]). cbn. rewrite <- app_assoc. cbn.
      split; [reflexivity|].
      apply onlyClock_app; [assumption|]. intros e [<-|[]]. eauto.
Qed.

Lemma replaceTitled_run {S : Type} (instance : Instance) (title : string)
    (instances : list Instance) :
  forall (before : list Instance) (w : World) (h : History) (s : S),
  exists r evs,
    replaceTitled instance title before instances w h s = (Done r, s, evs) /\
    onlyClock evs /\
    match r with
    | None => existsb (titled title) instances = false
    | Some l =>
        exists a x b,
          instances = a ++ x :: b /\ Title x = title /\
          existsb (titled title) a = false /\
          l = before ++ a ++ instance :: b
    end.
Proof.
  induction instances as [|i rest IH]; intros before w h s.
  - exists None, []. cbn. split; [reflexivity|]. split; [intros e [] | reflexivity].
  - cbn [replaceTitled existsb]. unfold ToInstanceData, titled. unfold_m. unfold call.
    cbn [fst snd app data_Title].
    destruct (Title i =? title)%string eqn:Ht.
    + exists (Some (before ++ instance :: rest)), [EvNow (time_Now w h)].
      split; [reflexivity|]. split; [intros e [<-|[]]; eauto|].
      exists [], i, rest. apply String.eqb_eq in Ht. auto.
    + destruct (IH (before ++ [i]) w (EvNow (time_Now w h) :: h) s)
        as (r & evs & -> & Hc & Hr).
      exists r, (evs ++ [EvNow (time_Now w h)]). split; [reflexivity|].
      split; [apply onlyClock_app; [assumption|]; intros e [<-|[]]; eauto|].
      destruct r as [l|]; [|exact Hr].
      destruct Hr as (a & x & b & -> & Hx & Ha & ->).
      exists (i :: a), x, b.
      split; [reflexivity|]. split; [exact Hx|]. split.
      * cbn [existsb]. unfold titled in *. now rewrite Ht.
      * now rewrite <- app_assoc.
Qed.


(** X8.  What [DeleteInstance] does.  When the stored sessions cannot be
    loaded it returns that error, wrapped; when no loaded session has the
    title it returns [instance not found]; in both cases it leaves the
    registry as it was and writes nothing to the byte store.  Otherwise
    it reads the clock (once per loaded session) and then does what
    [SaveInstances] does on the loaded sessions without those of that
    title, all of them. *)
Theorem DeleteInstance_result
    (getInstances : History -> Bytes)
    (unmarshal : Bytes -> Result (list InstanceData))
    (title : string) (w : World) (h : History) (s : Storage) :
  let load := LoadInstances getInstances unmarshal w h s in
  let del := DeleteInstance getInstances unmarshal title w h s in
  (forall e, outcome load = Done (Err e) ->
     outcome del = Done (Some (wrapErr "failed to load instances" e)) /\
     final del = s /\ storeWrites (events del) = []) /\
  (forall l, outcome load = Done (Ok l) -> existsb (titled title) l = false ->
     outcome del = Done (Some ("instance not found: " ++ title)%string) /\
     final del = s /\ storeWrites (events del) = []) /\
  (forall l, outcome load = Done (Ok l) -> existsb (titled title) l = true ->
     exists clock,
       onlyClock clock /\
       let save := SaveInstances (filter (fun i => negb (titled title i)) l) w
                     (clock ++ after h load) s in
       outcome del = outcome save /\ final del = final save /\
       storeWrites (events del) = storeWrites (events save)).
Proof.
  cbv zeta. unfold DeleteInstance, bind.
  destruct (LoadInstances_run getInstances unmarshal w h s) as (r & evs & -> & Hw & _).
  unfold outcome, final, events, after. cbn [fst snd].
  destruct r as [l|e].
  - destruct (dropTitled_run title l [] false w (evs ++ h) s) as (clock & -> & Hc).
    cbn [app orb fst snd].
    split; [intros e [=]|]. split.
    + intros l0 [= <-] Hn. rewrite Hn. cbn [negb ret fst snd app].
      rewrite rev_app_distr, storeWrites_app, Hw.
      rewrite (storeWrites_onlyClock (rev clock)) by now apply onlyClock_rev.
      auto.
    + intros l0 [= <-] Hf. rewrite Hf. cbn [negb]. exists clock. split; [exact Hc|].
      rewrite ?app_assoc.
      match goal with
      | |- context [SaveInstances ?l0 ?w0 ?h0 ?s0] =>
          destruct (SaveInstances l0 w0 h0 s0) as [[r s1] es]
      end. cbn [fst snd].
      split; [reflexivity|]. split; [reflexivity|].
      rewrite !rev_app_distr, !storeWrites_app, Hw.
      rewrite (storeWrites_onlyClock (rev clock)) by now apply onlyClock_rev.
      reflexivity.
  - cbn. split; [intros e0 [= <-]; rewrite ?app_nil_l; auto|].
    split; intros l [=].
Qed.

Lemma DeleteInstance_result_witness :
  outcome (DeleteInstance sampleGetInstances sampleUnmarshal "other" calmWorld [] NewStorage)
    = Done (Some "instance not found: other") /\
  storeWrites
    (events (DeleteInstance sampleGetInstances sampleUnmarshal "other" calmWorld [] NewStorage))
    = [].
Proof.
  destruct (DeleteInstance_result sampleGetInstances sampleUnmarshal "other" calmWorld []
              NewStorage) as (_ & H & _).
  cbv zeta in H.
  destruct (H _ eq_refl eq_refl) as (H1 & _ & H3).
  exact (conj H1 H3).
Defined.

(** X9.  What [UpdateInstance] does.  When the stored sessions cannot be
    loaded it returns that error, wrapped; when no loaded session has the
    title of the given session it returns [instance not found]; in both
    cases it leaves the registry as it was and writes nothing to the byte
    store.  Otherwise it reads the clock and then does what
    [SaveInstances] does on the loaded sessions with the first one of
    that title replaced by the given session. *)
Theorem UpdateInstance_result
    (getInstances : History -> Bytes)
    (unmarshal : Bytes -> Result (list InstanceData))
    (instance : Instance) (w : World) (h : History) (s : Storage) :
  let load := LoadInstances getInstances unmarshal w h s in
  let upd := UpdateInstance getInstances unmarshal instance w h s in
  (forall e, outcome load = Done (Err e) ->
     outcome upd = Done (Some (wrapErr "failed to load instances" e)) /\
     final upd = s /\ storeWrites (events upd) = []) /\
  (forall l, outcome load = Done (Ok l) -> existsb (titled (Title instance)) l = false ->
     outcome upd = Done (Some ("instance not found: " ++ Title instance)%string) /\
     final upd = s /\ storeWrites (events upd) = []) /\
  (forall l, outcome load = Done (Ok l) -> existsb (titled (Title instance)) l = true ->
     exists clock a x b,
       onlyClock clock /\
       l = a ++ x :: b /\ Title x = Title instance /\
       existsb (titled (Title instance)) a = false /\
       let save := SaveInstances (a ++ instance :: b) w (clock ++ after h load) s in
       outcome upd = outcome save /\ final upd = final save /\
       storeWrites (events upd) = storeWrites (events save)).
Proof.
  cbv zeta. unfold UpdateInstance, bind.
  destruct (LoadInstances_run getInstances unmarshal w h s) as (r & evs & -> & Hw & _).
  unfold outcome, final, events, after. cbn [fst snd].
  destruct r as [l|e].
  - unfold ToInstanceData. unfold_m. unfold call. cbn [fst snd app data_Title].
    destruct (replaceTitled_run (S := Storage) instance (Title instance) l []
                w (EvNow (time_Now w (evs ++ h)) :: evs ++ h) s)
      as (r & clock & -> & Hc & Hr).
    cbn [fst snd].
    assert (Hclock : onlyClock (clock ++ [EvNow (time_Now w (evs ++ h))])).
    { apply onlyClock_app; [assumption|]. intros e [<-|[]]. eauto. }
    split; [intros e [=]|]. split.
    + intros l0 [= <-] Hn. destruct r as [l'|].
      * destruct Hr as (a & x & b & -> & Hx & Ha & _).
        rewrite existsb_app in Hn. cbn in Hn. unfold titled at 2 in Hn.
        apply String.eqb_eq in Hx. rewrite Hx, orb_true_r in Hn. discriminate Hn.
      * cbn. rewrite !rev_app_distr, !storeWrites_app, Hw.
        rewrite (storeWrites_onlyClock (rev clock)) by now apply onlyClock_rev.
        auto.
    + intros l0 [= <-] Hf. destruct r as [l'|]; [|rewrite Hr in Hf; discriminate Hf].
      destruct Hr as (a & x & b & -> & Hx & Ha & ->).
      exists (clock ++ [EvNow (time_Now w (evs ++ h))]), a, x, b.
      split; [exact Hclock|]. split; [reflexivity|]. split; [exact Hx|]. split; [exact Ha|].
      cbn [app]. rewrite <- !app_assoc. cbn [app].
      match goal with
      | |- context [SaveInstances ?l0 ?w0 ?h0 ?s0] =>
          destruct (SaveInstances l0 w0 h0 s0) as [[r s1] es]
      end. cbn [fst snd].
      split; [reflexivity|]. split; [reflexivity|].
      rewrite !rev_app_distr, !storeWrites_app, Hw. cbn [rev app].
      rewrite ?storeWrites_app.
      rewrite (storeWrites_onlyClock (rev clock)) by now apply onlyClock_rev.
      cbn. now rewrite ?app_nil_r.
  - cbn. split; [intros e0 [= <-]; rewrite ?app_nil_l; auto|].
    split; intros l [=].
Qed.

(** ** Cleanup errors and [Kill] *)

Lemma prefix_refl (s : string) : String.prefix s s = true.
Proof.
  induction s as [|c r IH]; [reflexivity|]. cbn.
  destruct (Ascii.ascii_dec c c); [assumption | contradiction].
Qed.

Lemma prefix_app (p s t : string) :
  String.prefix p s = true -> String.prefix p (s ++ t)%string = true.
Proof.
  revert s. induction p as [|c p IH]; intros s H; [now destruct (s ++ t)%string|].
  destruct s as [|d s]; [discriminate H|]. cbn in *.
  destruct (Ascii.ascii_dec c d); [now apply IH | discriminate H].
Qed.

Lemma Contains_refl (s : string) : Contains s s = true.
Proof.
  destruct s as [|c r]; [reflexivity|].
  cbn [Contains]. now rewrite (prefix_refl (String c r)).
Qed.

Lemma Contains_app_l (s t x : string) :
  Contains s x = true -> Contains (s ++ t)%string x = true.
Proof.
  induction s as [|c s IH]; intros H.
  - cbn in H. rewrite orb_false_r in H. destruct x; [|discriminate H].
    destruct t; reflexivity.
  - cbn [Contains] in H. apply orb_prop in H. cbn [String.append Contains].
    apply orb_true_intro. destruct H as [H|H].
    + left. exact (prefix_app x (String c s) t H).
    + right. now apply IH.
Qed.

Lemma Contains_app_r (s t x : string) :
  Contains t x = true -> Contains (s ++ t)%string x = true.
Proof.
  intros H. induction s as [|c s IH]; [exact H|].
  cbn [String.append Contains]. apply orb_true_intro. now right.
Qed.

Lemma combineErrors_fold (errs : list error) : forall (acc e : string),
  Contains acc e = true \/ In e errs ->
  Contains (fold_left (fun errMsg err => (errMsg ++ String newline "  - " ++ err)%string)
                      errs acc) e = true.
Proof.
  induction errs as [|x r IH]; intros acc e H; cbn.
  - destruct H as [H|[]]. exact H.
  - apply IH. destruct H as [H|[<-|H]].
    + left. now apply Contains_app_l.
    + left. apply Contains_app_r.
      exact (Contains_app_r (String newline "  - ") x x (Contains_refl x)).
    + now right.
Qed.

(** X10.  [combineErrors] swallows nothing.  It returns no error only for an
    empty list, returns a single error as it is, and the message it builds
    from several errors contains the message of each of them. *)
Theorem combineErrors_reports_all (errs : list error) :
  (combineErrors errs = None <-> errs = []) /\
  (forall e, errs = [e] -> combineErrors errs = Some e) /\
  (forall msg e, combineErrors errs = Some msg -> In e errs -> Contains msg e = true).
Proof.
  split; [|split].
  - destruct errs as [|a [|b l]]; cbn; split; intros H; try reflexivity; discriminate H.
  - intros e ->. reflexivity.
  - intros msg e Hc Hin. destruct errs as [|a [|b l]].
    + destruct Hin.
    + injection Hc as <-. destruct Hin as [<-|[]]. apply Contains_refl.
    + assert (E : combineErrors (a :: b :: l) =
                  Some (fold_left
                          (fun errMsg err => (errMsg ++ String newline "  - " ++ err)%string)
                          (a :: b :: l) "multiple cleanup errors occurred:"))
        by reflexivity.
      rewrite E in Hc. apply (f_equal (fun o => match o with Some m => m | None => msg end)) in Hc.
      rewrite <- Hc.
      apply (combineErrors_fold (a :: b :: l)). right. exact Hin.
Qed.

(** X11.  [Kill] releases everything it holds.  On a session that was never
    started it does nothing and returns success.  On a started session it
    always returns; it closes the pane if there is one and cleans up the
    checkout if there is one, whatever failed before; it does nothing but
    release steps; it returns success exactly when no release step
    failed; it leaves the started flag and the status as they are. *)
Theorem Kill_releases_everything (w : World) (h : History) (i : Instance) :
  let run := Kill w h i in
  (started i = false -> outcome run = Done None /\ final run = i /\ events run = [])
  /\
  (started i = true ->
     (exists r, outcome run = Done r) /\
     (forall e, In e (events run) -> isRelease e) /\
     (tmuxSession i <> None -> exists r, In (EvTmuxClose r) (events run)) /\
     (gitWorktree i <> None -> exists r, In (EvCleanup r) (events run)) /\
     (outcome run = Done None <-> forall e, In e (events run) -> ~ isFailedRelease e) /\
     started (final run) = true /\
     Status_ (final run) = Status_ i).
Proof.
  cbv zeta. split; intros Hs.
  - unfold Kill. unfold_m. cbn. rewrite Hs. cbn. auto.
  - unfold Kill, stopDiffWatcher, onTmux, onWorktree. unfold_m.
    cbn -[wrapErr String.append]. rewrite Hs. cbn -[wrapErr String.append].
    repeat (branch; cbn -[wrapErr String.append]); try congruence;
      repeat (match goal with
              | |- context [appendErr _ _ ?r] =>
                  lazymatch r with
                  | Some _ => fail
                  | None => fail
                  | _ => destruct r eqn:?
                  end
              end; cbn -[wrapErr String.append]);
      (split; [eexists; reflexivity|]);
      (split; [intros ev Hev; repeat (destruct Hev as [<-|Hev]; [exact I|]); destruct Hev|]);
      (split; [intros Hn; try (now contradiction Hn); eexists; cbn; eauto 10|]);
      (split; [intros Hn; try (now contradiction Hn); eexists; cbn; eauto 10|]);
      (split; [|split; [assumption || reflexivity | reflexivity]]).
    all: split;
      [ intros Ho ev Hev; try discriminate Ho;
        repeat (destruct Hev as [<-|Hev]; [cbn; tauto|]); destruct Hev
      | intros Ha; try reflexivity; exfalso ].
    all: first
      [ exact (Ha _ (or_introl eq_refl) I)
      | exact (Ha _ (or_intror (or_introl eq_refl)) I)
      | exact (Ha _ (or_intror (or_intror (or_introl eq_refl))) I)
      | exact (Ha _ (or_intror (or_intror (or_intror (or_introl eq_refl)))) I) ].
Qed.

(** ** What the supervisor's operations keep, and what they may do *)

Section KeepsInstance.

Context (R : Instance -> Instance -> Prop).
Hypothesis R_refl : forall i, R i i.
Hypothesis R_handle : forall i g, R i (set_gitWorktree g i).

Lemma keeps_onWorktree op ev : keeps R (onWorktree op ev).
Proof.
  intros w h i. unfold onWorktree, final.
  destruct (gitWorktree i) as [g|]; [|apply R_refl].
  destruct (op w h g). apply R_handle.
Qed.

Lemma keeps_onTmux op ev : keeps R (onTmux op ev).
Proof. intros w h i. unfold onTmux, final. destruct (tmuxSession i); apply R_refl. Qed.

Lemma keeps_worktreeIsDirty : keeps R worktreeIsDirty.
Proof.
  intros w h i. unfold worktreeIsDirty, final. destruct (gitWorktree i); apply R_refl.
Qed.

Lemma keeps_worktreePathOf : keeps R worktreePathOf.
Proof.
  intros w h i. unfold worktreePathOf, final. destruct (gitWorktree i); apply R_refl.
Qed.

Lemma keeps_branchNameOf : keeps R branchNameOf.
Proof.
  intros w h i. unfold branchNameOf, final. destruct (gitWorktree i); apply R_refl.
Qed.

Lemma keeps_worktreeDiff force : keeps R (worktreeDiff force).
Proof.
  intros w h i. unfold worktreeDiff, final, bind, emit. cbv beta iota.
  destruct (gitWorktree i) as [g|]; [|apply R_refl].
  cbn [app]. destruct (Diff force w (EvDiff force :: h) g) as [[r g'] e].
  cbn [fst snd]. apply R_handle.
Qed.

End KeepsInstance.

Section EmitsInstance.

Context (P : Event -> Prop).

Lemma emitsOnly_onWorktree op ev : (forall r, P (ev r)) -> emitsOnly P (onWorktree op ev).
Proof.
  intros Hev w h i e. unfold onWorktree, events.
  destruct (gitWorktree i) as [g|]; [|intros []].
  destruct (op w h g). intros [<-|[]]. apply Hev.
Qed.

Lemma emitsOnly_onTmux op ev : (forall r, P (ev r)) -> emitsOnly P (onTmux op ev).
Proof.
  intros Hev w h i e. unfold onTmux, events.
  destruct (tmuxSession i); [|intros []]. intros [<-|[]]. apply Hev.
Qed.

Lemma emitsOnly_worktreeIsDirty : (forall r, P (EvIsDirty r)) -> emitsOnly P worktreeIsDirty.
Proof.
  intros Hev w h i e. unfold worktreeIsDirty, events.
  destruct (gitWorktree i); [|intros []]. intros [<-|[]]. apply Hev.
Qed.

Lemma emitsOnly_worktreeDiff force :
  P (EvDiff force) -> (forall d a r, P (EvGit d a r)) -> (forall t, P (EvNow t)) ->
  emitsOnly P (worktreeDiff force).
Proof.
  intros Hd Hg Hn w h i e. unfold worktreeDiff, events, bind, emit. cbv beta iota.
  destruct (gitWorktree i) as [g|]; [|cbn; intros [<-|[]]; exact Hd].
  cbn [app].
  pose proof (Diff_events force w (EvDiff force :: h) g) as HD.
  destruct (Diff force w (EvDiff force :: h) g) as [[r g'] ev]. cbn [fst snd] in *.
  rewrite rev_app_distr. cbn [rev app]. intros [<-|Hin]; [exact Hd|].
  apply in_rev in Hin. destruct (HD _ Hin) as [(d & a & x & ->)|(t & ->)]; auto.
Qed.

End EmitsInstance.

Lemma sameIdentity_refl (i : Instance) : sameIdentity i i.
Proof. unfold sameIdentity. auto 10. Qed.

Lemma sameIdentity_trans (a b c : Instance) :
  sameIdentity a b -> sameIdentity b c -> sameIdentity a c.
Proof. unfold sameIdentity. intuition congruence. Qed.

Lemma sameIdentity_MarkDiffDirty (i : Instance) : sameIdentity i (MarkDiffDirty i).
Proof.
  unfold MarkDiffDirty, sameIdentity. cbn. destruct (gitWorktree i); cbn; auto 10.
Qed.

Lemma sameIdentity_GetBranch (i : Instance) : sameIdentity i (snd (GetBranch i)).
Proof. unfold GetBranch, sameIdentity. destruct (gitWorktree i); cbn; auto 10. Qed.

(** One step of a walk that shows [sameIdentity] is kept. *)
Ltac identity_step :=
  first
    [ apply keeps_worktreeDiff;
      [exact sameIdentity_refl | intros; unfold sameIdentity; cbn; auto 10]
    | apply keeps_bind; [exact sameIdentity_trans | | intros]
    | apply keeps_ret; exact sameIdentity_refl
    | apply keeps_get; exact sameIdentity_refl
    | apply keeps_panic; exact sameIdentity_refl
    | apply keeps_call; exact sameIdentity_refl
    | apply keeps_ask; exact sameIdentity_refl
    | apply keeps_probe; exact sameIdentity_refl
    | apply keeps_emit; exact sameIdentity_refl
    | apply keeps_now; exact sameIdentity_refl
    | apply keeps_onWorktree;
      [exact sameIdentity_refl | intros; unfold sameIdentity; cbn; auto 10]
    | apply keeps_onTmux; exact sameIdentity_refl
    | apply keeps_worktreeIsDirty; exact sameIdentity_refl
    | apply keeps_worktreePathOf; exact sameIdentity_refl
    | apply keeps_branchNameOf; exact sameIdentity_refl
    | apply keeps_modify; intros;
      first [ apply sameIdentity_MarkDiffDirty
            | apply sameIdentity_GetBranch
            | apply sameIdentity_refl
            | unfold markStarted, markRestarted, markResumed, GetBranch, MarkDiffDirty,
                     MarkPreviewDirty, SetStatus, sameIdentity; cbn;
              repeat match goal with
                     | |- context [match gitWorktree ?i with _ => _ end] =>
                         destruct (gitWorktree i); cbn
                     end; auto 10 ] ].

Lemma keeps_identity_stopDiffWatcher : keeps sameIdentity stopDiffWatcher.
Proof. unfold stopDiffWatcher. walk identity_step. Qed.

Lemma keeps_identity_startDiffWatcher : keeps sameIdentity startDiffWatcher.
Proof.
  unfold startDiffWatcher.
  walk ltac:(first [apply keeps_identity_stopDiffWatcher | identity_step]).
Qed.

Lemma keeps_identity_Kill : keeps sameIdentity Kill.
Proof.
  unfold Kill. walk ltac:(first [apply keeps_identity_stopDiffWatcher | identity_step]).
Qed.

Ltac identity_walk :=
  walk ltac:(first [ apply keeps_identity_stopDiffWatcher
                   | apply keeps_identity_startDiffWatcher
                   | apply keeps_identity_Kill
                   | identity_step ]).

Lemma keeps_identity_Pause : keeps sameIdentity Pause.
Proof. unfold Pause, pauseCommit, pauseRemove. identity_walk. Qed.

Lemma keeps_identity_Start (firstTimeSetup : bool) : keeps sameIdentity (Start firstTimeSetup).
Proof. unfold Start, startBody. identity_walk. Qed.

Lemma keeps_identity_UpdateDiffStats (t : Time) : keeps sameIdentity (UpdateDiffStats t).
Proof. unfold UpdateDiffStats, recordDiff. cbv zeta. identity_walk. Qed.

Lemma keeps_identity_Resume doesSessionExist isBranchCheckedOut :
  keeps sameIdentity (Resume doesSessionExist isBranchCheckedOut).
Proof. unfold Resume, resumeStartPane. identity_walk. Qed.

Lemma keeps_identity_ensureTmuxSession doesSessionExist :
  keeps sameIdentity (ensureTmuxSession doesSessionExist).
Proof. unfold ensureTmuxSession. identity_walk. Qed.

(** X12.  No operation of the supervisor changes what identifies a session.
    [Start], [Kill], [Pause], [Resume], [UpdateDiffStats] and
    [ensureTmuxSession] leave the title, the path, the program, the
    creation time, the auto-yes flag and the prompt as they were, whatever
    the collaborators answer; and [SetTitle] refuses to change the title of
    a started session. *)
Theorem session_identity_is_kept
    (w : World) (h : History) (i : Instance) (firstTimeSetup : bool) (t : Time)
    (title : string)
    (doesSessionExist : History -> TmuxSession -> bool)
    (isBranchCheckedOut : History -> GitWorktree -> Result bool) :
  sameIdentity i (final (Start firstTimeSetup w h i)) /\
  sameIdentity i (final (Kill w h i)) /\
  sameIdentity i (final (Pause w h i)) /\
  sameIdentity i (final (Resume doesSessionExist isBranchCheckedOut w h i)) /\
  sameIdentity i (final (UpdateDiffStats t w h i)) /\
  sameIdentity i (final (ensureTmuxSession doesSessionExist w h i)) /\
  (started i = true ->
   SetTitle title i = (Some "cannot change title of a started instance", i)).
Proof.
  split; [apply keeps_identity_Start|].
  split; [apply keeps_identity_Kill|].
  split; [apply keeps_identity_Pause|].
  split; [apply keeps_identity_Resume|].
  split; [apply keeps_identity_UpdateDiffStats|].
  split; [apply keeps_identity_ensureTmuxSession|].
  intros Hs. unfold SetTitle. now rewrite Hs.
Qed.

(** ** What [Pause] and a diff refresh may do *)

Ltac emits_step :=
  first
    [ apply emitsOnly_worktreeDiff; intros; exact I
    | apply emitsOnly_bind; [ | intros]
    | apply emitsOnly_silent; reflexivity
    | apply emitsOnly_call; intros; exact I
    | apply emitsOnly_emit; exact I
    | apply emitsOnly_onWorktree; intros; exact I
    | apply emitsOnly_onTmux; intros; exact I
    | apply emitsOnly_worktreeIsDirty; intros; exact I
    | apply emitsOnly_silent; intros w0 h0 s0; unfold worktreePathOf, branchNameOf;
      destruct (gitWorktree s0); reflexivity ].

(** X13.  [Pause] keeps the pane and the branch.  Whatever happens, the only
    things [Pause] does to the world are: stop the watcher, ask whether the
    checkout is dirty, read the clock, commit, detach the pane, stat the
    working copy, remove it, prune, and copy the branch name to the
    clipboard.  It never closes the pane, starts or restores one, sets up
    or cleans up the checkout, runs a diff or writes to the byte store. *)
Theorem Pause_only_pauses (w : World) (h : History) (i : Instance) (e : Event) :
  In e (events (Pause w h i)) -> isPauseStep e.
Proof.
  revert w h i e. change (emitsOnly isPauseStep Pause).
  unfold Pause, pauseCommit, pauseRemove, stopDiffWatcher, now.
  walk emits_step.
Qed.

(** X14.  A diff refresh only looks.  Whatever happens, the only things
    [UpdateDiffStats] does to the world are invoking the handle's [Diff],
    whose git commands it runs, and reading the clock; and it invokes
    [Diff] at most once, and not at all on a session that is not started
    or is paused, where it also leaves the stats of a paused session and
    clears those of an unstarted one. *)
Theorem UpdateDiffStats_only_diffs (w : World) (h : History) (i : Instance) (t : Time) :
  (forall e, In e (events (UpdateDiffStats t w h i)) -> isDiffStep e) /\
  (List.length (diffCalls (events (UpdateDiffStats t w h i))) <= 1)%nat /\
  (started i = false ->
     events (UpdateDiffStats t w h i) = [] /\
     outcome (UpdateDiffStats t w h i) = Done None /\
     final (UpdateDiffStats t w h i) = set_diffStats None i) /\
  (started i = true -> Status_ i = Paused ->
     events (UpdateDiffStats t w h i) = [] /\
     outcome (UpdateDiffStats t w h i) = Done None /\
     final (UpdateDiffStats t w h i) = i).
Proof.
  split; [|split; [|split]].
  - revert w h i. change (emitsOnly isDiffStep (UpdateDiffStats t)).
    unfold UpdateDiffStats, recordDiff. cbv zeta. walk emits_step.
  - unfold UpdateDiffStats, events.
    rewrite !snd_bind. cbn [get modify fst snd app].
    destruct (started i); cbn [negb]; [|cbn; lia].
    destruct (Status_eqb (Status_ i) Paused); [cbn; lia|].
    rewrite snd_bind. cbn [modify fst snd app].
    destruct (refreshDecision _ _ _ _); [|cbn; lia].
    rewrite snd_bind_silent by apply recordDiff_silent.
    rewrite !app_nil_r, worktreeDiff_calls. cbn. lia.
  - intros Hs. unfold UpdateDiffStats. unfold_m. cbn. rewrite Hs. cbn. auto.
  - intros Hs Hp. unfold UpdateDiffStats. unfold_m. cbn. rewrite Hs, Hp. cbn. auto.
Qed.

(** ** [Pause] *)

Section PauseRuns.

Context (w : World) (h : History) (i : Instance).
Hypothesis Hs : started i = true.
Hypothesis Hp : Status_ i <> Paused.

Local Abbreviation run := (Pause w h i).

(** Evaluate [Pause] on a started session that is not paused, one case per
    answer of the collaborators. *)
Ltac pause_cases :=
  unfold Pause; unfold_m; run_strings;
  rewrite Hs, (Status_eqb_Paused _ Hp); run_strings;
  unfold pauseCommit, pauseRemove, stopDiffWatcher, worktreeIsDirty, onWorktree, onTmux,
         worktreePathOf, branchNameOf;
  unfold_m; run_strings;
  repeat (branch_errs; run_strings).

Lemma Pause_nil_iff_paused : outcome run = Done None <-> Status_ (final run) = Paused.
Proof.
  pause_cases; split; intros Hx;
    first [discriminate Hx | reflexivity | now contradiction Hp].
Qed.

Lemma Pause_failed_keeps_status : outcome run <> Done None -> Status_ (final run) = Status_ i.
Proof. pause_cases; intros Hn; first [reflexivity | now contradiction Hn]. Qed.

Lemma Pause_nil_no_failure (e : Event) :
  outcome run = Done None -> In e (events run) -> ~ isFailedPauseStep e.
Proof.
  pause_cases; intros Ho Hin; try discriminate Ho; split_in; subst e; exact (fun x => x).
Qed.

Lemma Pause_no_failure_nil :
  gitWorktree i <> None -> tmuxSession i <> None ->
  (forall e, In e (events run) -> ~ isFailedPauseStep e) ->
  outcome run = Done None.
Proof.
  pause_cases; intros Hg Ht Hall;
    first [ reflexivity | now contradiction Hg | now contradiction Ht
          | exfalso; hit_failed Hall ].
Qed.

Lemma Pause_prune_after_remove (r : option error) :
  In (EvPrune r) (events run) -> In (EvRemove None) (events run).
Proof.
  pause_cases; intros Hin; split_in;
    try match goal with H : _ = EvPrune _ |- _ => discriminate H end; find_in.
Qed.

Lemma Pause_remove_after_stat (r : option error) :
  In (EvRemove r) (events run) -> exists p, In (EvStat p None) (events run).
Proof.
  pause_cases; intros Hin; split_in;
    try match goal with H : _ = EvRemove _ |- _ => discriminate H end; eexists; find_in.
Qed.

End PauseRuns.

(** X15.  When [Pause] succeeds.  For a started session that is not paused:
    [Pause] returns nil exactly when it leaves the session [Paused], and
    in every other case (an error, or a panic on a nil handle) the status
    is as before.  When it returns nil no step reported an error; and with
    both handles in place the converse holds too.  [Prune] is only run
    after [Remove] succeeded, and [Remove] only after the working copy was
    found on disk. *)
Theorem Pause_succeeds_iff_paused (w : World) (h : History) (i : Instance) :
  started i = true ->
  Status_ i <> Paused ->
  (outcome (Pause w h i) = Done None <-> Status_ (final (Pause w h i)) = Paused) /\
  (outcome (Pause w h i) <> Done None -> Status_ (final (Pause w h i)) = Status_ i) /\
  (outcome (Pause w h i) = Done None ->
   forall e, In e (events (Pause w h i)) -> ~ isFailedPauseStep e) /\
  (gitWorktree i <> None -> tmuxSession i <> None ->
   (forall e, In e (events (Pause w h i)) -> ~ isFailedPauseStep e) ->
   outcome (Pause w h i) = Done None) /\
  (forall r, In (EvPrune r) (events (Pause w h i)) ->
             In (EvRemove None) (events (Pause w h i))) /\
  (forall r, In (EvRemove r) (events (Pause w h i)) ->
             exists p, In (EvStat p None) (events (Pause w h i))).
Proof.
  intros Hs Hp.
  split; [now apply Pause_nil_iff_paused|].
  split; [now apply Pause_failed_keeps_status|].
  split; [intros Ho e; now apply Pause_nil_no_failure|].
  split; [now apply Pause_no_failure_nil|].
  split; [intros r; now apply Pause_prune_after_remove|].
  intros r. now apply Pause_remove_after_stat.
Qed.

(** ** [Start] *)

Lemma stopDiffWatcher_run (w : World) (h : History) (i : Instance) :
  exists r ev,
    stopDiffWatcher w h i = (Done r, set_watch None (diffWatcherDisabled i) false false i, ev).
Proof.
  unfold stopDiffWatcher. unfold_m. cbn.
  destruct (diffWatchCancel i), (diffWatcher i); cbn; eauto.
Qed.

Lemma startDiffWatcher_run (w : World) (h : History) (i : Instance) :
  let x := startDiffWatcher w h i in
  (outcome x = Done None /\ gitWorktree (final x) <> None /\
   tmuxSession (final x) = tmuxSession i /\ started (final x) = started i) \/
  (exists e, outcome x = Done (Some e) /\ final x = i /\ snd x = []).
Proof.
  cbv zeta. unfold startDiffWatcher, stopDiffWatcher. unfold_m. cbn.
  destruct (gitWorktree i) as [g|] eqn:Hg; cbn; [|right; eauto].
  destruct (GetWorktreePath g =? "")%string; cbn; [right; eauto|].
  left.
  repeat (branch; cbn; rewrite ?Hg; cbn); repeat split;
    unfold MarkDiffDirty; cbn; rewrite ?Hg; cbn; congruence.
Qed.

Lemma Kill_keeps_started (w : World) (h : History) (i : Instance) :
  started (final (Kill w h i)) = started i.
Proof.
  revert w h i. change (keeps (fun i j => started j = started i) Kill).
  unfold Kill, stopDiffWatcher.
  walk ltac:(first
    [ apply keeps_bind; [intros ? ? ? H1 H2; congruence | | intros]
    | apply keeps_ret; reflexivity
    | apply keeps_get; reflexivity
    | apply keeps_call; reflexivity
    | apply keeps_emit; reflexivity
    | apply keeps_onWorktree; [reflexivity | reflexivity]
    | apply keeps_onTmux; reflexivity
    | apply keeps_modify; reflexivity ]).
Qed.

Lemma Kill_unstarted (w : World) (h : History) (i : Instance) :
  started i = false -> Kill w h i = (Done None, i, []).
Proof. intros Hs. unfold Kill. unfold_m. cbn. now rewrite Hs. Qed.

(** Take a call of [startDiffWatcher] or [Kill] by what is known of it. *)
Ltac call_known :=
  match goal with
  | |- context [startDiffWatcher ?w ?h ?s] =>
      let H := fresh "Hw" in
      pose proof (startDiffWatcher_run w h s) as H; cbv zeta in H;
      destruct (startDiffWatcher w h s) as [[? ?] ?];
      unfold outcome, final in H; cbn [fst snd] in H;
      destruct H as [(-> & ? & ? & ?)|(? & -> & -> & ->)]
  | |- context [Kill ?w ?h ?s] =>
      let H := fresh "Hk" in
      let Hu := fresh "Hu" in
      pose proof (Kill_keeps_started w h s) as H;
      pose proof (Kill_unstarted w h s) as Hu;
      destruct (Kill w h s) as [[? ?] ?]; unfold final in H; cbn [fst snd] in H
  end.

Ltac run_calls := cbn -[wrapErr String.append startDiffWatcher Kill].

(** X16.  What [Start] leaves.  When [Start] returns nil the session is
    started and [Running], both dirty flags are set, the time of the last
    diff is reset and both handles are in place.  In every other case the
    started flag is as it was.  And on a session that was not started
    before, a failing [Start] does nothing but create and set up the
    checkout, start or restore the pane, and clean up the checkout after a
    failed pane start: the deferred [Kill] finds the session not started
    and releases nothing. *)
Theorem Start_result (w : World) (h : History) (i : Instance) (firstTimeSetup : bool) :
  let run := Start firstTimeSetup w h i in
  (outcome run = Done None ->
     started (final run) = true /\ Status_ (final run) = Running /\
     previewDirty (final run) = true /\ diffDirty (final run) = true /\
     lastDiffCheck (final run) = 0 /\
     tmuxSession (final run) <> None /\ gitWorktree (final run) <> None) /\
  (outcome run <> Done None -> started (final run) = started i) /\
  (started i = false -> outcome run <> Done None ->
   forall e, In e (events run) -> isSetupStep e).
Proof.
  cbv zeta.
  unfold Start, startBody, onTmux, onWorktree, worktreePathOf. unfold_m. run_calls.
  destruct (started i) eqn:Hs.
  all: repeat (first [call_known | branch]; run_calls).
  all: repeat split; intros; try congruence; try discriminate.
  all: unfold markStarted, MarkDiffDirty, MarkPreviewDirty, SetStatus, GetBranch in *.
  all: repeat match goal with
              | H : context [match gitWorktree ?i with _ => _ end] |- _ =>
                  destruct (gitWorktree i) eqn:?
              | |- context [match gitWorktree ?i with _ => _ end] =>
                  destruct (gitWorktree i) eqn:?
              end.
  all: cbn -[wrapErr String.append] in *.
  all: repeat match goal with
              | Hu : _ = false -> _ = _ |- _ =>
                  first [ specialize (Hu ltac:(congruence)); inversion Hu; subst; clear Hu
                        | clear Hu ]
              end.
  all: cbn -[wrapErr String.append] in *.
  all: try congruence.
  all: split_in; subst; try exact I; try congruence.
Qed.

(** X17.  [startDiffWatcher] watches or falls back.  Without a handle, or
    with a handle that has no working-copy path, it returns an error and
    touches nothing.  Otherwise it never fails: it closes a watcher that
    was in place, marks the diff dirty, and either ends up watching (a
    watcher in place, its goroutine spawned, watching not disabled) or
    with watching disabled, no watcher and no goroutine. *)
Theorem startDiffWatcher_watches_or_falls_back (w : World) (h : History) (i : Instance) :
  let run := startDiffWatcher w h i in
  (gitWorktree i = None ->
     outcome run = Done (Some "git worktree not initialized") /\
     final run = i /\ events run = []) /\
  (forall g, gitWorktree i = Some g -> GetWorktreePath g = "" ->
     outcome run = Done (Some "worktree path not set") /\
     final run = i /\ events run = []) /\
  (forall g, gitWorktree i = Some g -> GetWorktreePath g <> "" ->
     outcome run = Done None /\
     diffDirty (final run) = true /\
     (diffWatcher i <> None -> exists r, In (EvWatcherClose r) (events run)) /\
     ((diffWatcherDisabled (final run) = false /\ diffWatcher (final run) <> None /\
       diffWatchCancel (final run) = true /\ In EvWatcherSpawn (events run)) \/
      (diffWatcherDisabled (final run) = true /\ diffWatcher (final run) = None /\
       ~ In EvWatcherSpawn (events run)))).
Proof.
  cbv zeta. split; [|split].
  - intros Hg. unfold startDiffWatcher. unfold_m. cbn. rewrite Hg. auto.
  - intros g Hg Hp. unfold startDiffWatcher. unfold_m. cbn. rewrite Hg, Hp. auto.
  - intros g Hg Hp. apply String.eqb_neq in Hp.
    unfold startDiffWatcher, stopDiffWatcher. unfold_m. cbn. rewrite Hg. cbn. rewrite Hp.
    repeat (branch; cbn; rewrite ?Hg; cbn).
    all: unfold MarkDiffDirty; cbn; rewrite ?Hg; cbn.
    all: split; [reflexivity|split; [reflexivity|split]].
    all: try (intros Hn; try congruence; eexists; cbn; eauto 10).
    all: first
      [ left; split; [reflexivity | split; [discriminate | split; [reflexivity | cbn; tauto]]]
      | right; split; [reflexivity | split; [first [reflexivity | assumption] | intros Hin; split_in; discriminate]] ].
Qed.

(** ** [Resume] and [ensureTmuxSession] *)

Section ResumeRuns.

Context (doesSessionExist : History -> TmuxSession -> bool)
        (isBranchCheckedOut : History -> GitWorktree -> Result bool)
        (w : World) (h : History) (i : Instance).
Hypothesis Hs : started i = true.
Hypothesis Hp : Status_ i = Paused.

Local Abbreviation run := (Resume doesSessionExist isBranchCheckedOut w h i).

(** Evaluate [Resume] on a started, paused session, one case per answer of
    the collaborators. *)
Ltac resume_cases :=
  unfold Resume, resumeStartPane, startDiffWatcher, stopDiffWatcher, onWorktree,
         onTmux, worktreePathOf, probe;
  unfold_m; run_strings; rewrite Hs, Hp; run_strings;
  repeat (branch; run_strings);
  unfold markResumed, GetBranch, MarkDiffDirty, MarkPreviewDirty, SetStatus; run_strings.

Lemma Resume_checked_out (g : GitWorktree) :
  gitWorktree i = Some g -> isBranchCheckedOut h g <> Ok false ->
  (exists e, outcome run = Done (Some e)) /\ final run = i /\ events run = [].
Proof.
  intros Hg Hc. unfold Resume, probe. unfold_m. cbn [fst snd app].
  rewrite Hs, Hp. cbn [negb Status_eqb]. rewrite Hg.
  destruct (isBranchCheckedOut h g) as [[|]|]; [|now contradiction Hc|]; cbn; eauto.
Qed.

Lemma Resume_nil_iff_running : outcome run = Done None <-> Status_ (final run) = Running.
Proof.
  resume_cases; split; intros Hx;
    first [discriminate Hx | reflexivity | rewrite Hp in Hx; discriminate Hx].
Qed.

Lemma Resume_nil_leaves :
  outcome run = Done None ->
  In (EvSetup None) (events run) /\
  previewDirty (final run) = true /\ diffDirty (final run) = true /\
  lastDiffCheck (final run) = 0 /\
  exists g, gitWorktree (final run) = Some g /\ Branch (final run) = GetBranchName g.
Proof.
  resume_cases; intros Ho;
    first [ discriminate Ho
          | split; [find_in|]; do 3 (split; [reflexivity|]); eexists; split; reflexivity ].
Qed.

Lemma Resume_failed_stays_paused : outcome run <> Done None -> Status_ (final run) = Paused.
Proof. resume_cases; intros Hn; first [exact Hp | now contradiction Hn]. Qed.

Lemma Resume_pane_failure (cwd : string) (e : error) :
  In (EvTmuxStart cwd (Some e)) (events run) ->
  (exists r, In (EvCleanup r) (events run)) /\ outcome run <> Done None.
Proof.
  resume_cases; intros Hin; split_in;
    try match goal with H : _ = EvTmuxStart _ _ |- _ => discriminate H end;
    (split; [eexists; find_in | intros Hd; discriminate Hd]).
Qed.

End ResumeRuns.

(** X18.  What [Resume] does.  It refuses a session that is not started or
    not paused, and a session whose branch is checked out (or cannot be
    checked), without touching anything.  On a started, paused session it
    returns nil exactly when it leaves the session [Running]; then the
    checkout was set up, both dirty flags are set, the time of the last
    diff is reset and the branch field is the handle's branch name.  In
    every other case the session stays [Paused].  And a pane that failed
    to start makes [Resume] clean up the checkout and fail. *)
Theorem Resume_result
    (doesSessionExist : History -> TmuxSession -> bool)
    (isBranchCheckedOut : History -> GitWorktree -> Result bool)
    (w : World) (h : History) (i : Instance) :
  let run := Resume doesSessionExist isBranchCheckedOut w h i in
  (started i = false ->
     outcome run = Done (Some "cannot resume instance that has not been started") /\
     final run = i /\ events run = []) /\
  (started i = true -> Status_ i <> Paused ->
     outcome run = Done (Some "can only resume paused instances") /\
     final run = i /\ events run = []) /\
  (started i = true -> Status_ i = Paused ->
     (forall g, gitWorktree i = Some g -> isBranchCheckedOut h g <> Ok false ->
        (exists e, outcome run = Done (Some e)) /\ final run = i /\ events run = []) /\
     (outcome run = Done None <-> Status_ (final run) = Running) /\
     (outcome run = Done None ->
        In (EvSetup None) (events run) /\
        previewDirty (final run) = true /\ diffDirty (final run) = true /\
        lastDiffCheck (final run) = 0 /\
        exists g, gitWorktree (final run) = Some g /\ Branch (final run) = GetBranchName g) /\
     (outcome run <> Done None -> Status_ (final run) = Paused) /\
     (forall cwd e, In (EvTmuxStart cwd (Some e)) (events run) ->
        (exists r, In (EvCleanup r) (events run)) /\ outcome run <> Done None)).
Proof.
  cbv zeta. split; [|split].
  - intros Hs. unfold Resume. unfold_m. cbn. rewrite Hs. auto.
  - intros Hs Hp. unfold Resume. unfold_m. cbn. rewrite Hs, (Status_eqb_Paused _ Hp). auto.
  - intros Hs Hp.
    split; [intros g; now apply Resume_checked_out|].
    split; [now apply Resume_nil_iff_running|].
    split; [now apply Resume_nil_leaves|].
    split; [now apply Resume_failed_stays_paused|].
    intros cwd e. now apply Resume_pane_failure.
Qed.

(** X19.  [ensureTmuxSession] restarts a missing pane and nothing else.  It
    always returns.  When the pane's session exists it does nothing and
    returns nil.  Whenever it returns an error the session is left as it
    was.  When it returns nil, either nothing was changed or a pane was
    started in the working copy, and then the session is [Running] with
    both dirty flags set and the time of the last diff reset.  A pane is
    only ever started in a working copy that was found on disk. *)
Theorem ensureTmuxSession_result
    (doesSessionExist : History -> TmuxSession -> bool)
    (w : World) (h : History) (i : Instance) :
  let run := ensureTmuxSession doesSessionExist w h i in
  (exists r, outcome run = Done r) /\
  (forall t, started i = true -> Status_ i <> Paused -> tmuxSession i = Some t ->
     doesSessionExist h t = true ->
     outcome run = Done None /\ final run = i /\ events run = []) /\
  (outcome run <> Done None -> final run = i) /\
  (outcome run = Done None ->
     (final run = i /\ events run = []) \/
     (Status_ (final run) = Running /\ previewDirty (final run) = true /\
      diffDirty (final run) = true /\ lastDiffCheck (final run) = 0 /\
      exists p, In (EvTmuxStart p None) (events run))) /\
  (forall p r, In (EvTmuxStart p r) (events run) -> In (EvStat p None) (events run)).
Proof.
  cbv zeta. split; [|split; [|split; [|split]]].
  - unfold ensureTmuxSession, onTmux, probe. unfold_m. run_strings.
    repeat (branch; run_strings); drop_absurd; eauto.
  - intros t Hs Hp Ht He.
    unfold ensureTmuxSession, probe. unfold_m. run_strings.
    rewrite Hs, (Status_eqb_Paused _ Hp), Ht. run_strings. rewrite He. auto.
  - unfold ensureTmuxSession, onTmux, probe. unfold_m. run_strings.
    repeat (branch; run_strings); drop_absurd; intros Hn; first [reflexivity | now contradiction Hn].
  - unfold ensureTmuxSession, onTmux, probe. unfold_m. run_strings.
    repeat (branch; run_strings); drop_absurd; intros Ho; try discriminate Ho;
      first [ left; split; reflexivity
            | right; unfold markRestarted, MarkDiffDirty, MarkPreviewDirty, SetStatus; cbn;
              repeat match goal with H : gitWorktree _ = _ |- _ => rewrite H; cbn end;
              do 4 (split; [reflexivity|]); eexists; find_in ].
  - unfold ensureTmuxSession, onTmux, probe. unfold_m. run_strings.
    repeat (branch; run_strings); drop_absurd; intros p r Hin; split_in;
      try match goal with H : _ = EvTmuxStart _ _ |- _ => discriminate H end;
      match goal with H : EvTmuxStart _ _ = EvTmuxStart _ _ |- _ => injection H as <- <- end;
      find_in.
Qed.

(** ** [Diff] *)

(** X20.  The git commands of [Diff].  [Diff] always returns, and leaves the
    handle a handle of the same checkout.  Every command it runs, it runs
    in the working copy.  The commands are the status alone; or status and
    diff; or, when the first status lists untracked entries and the cache
    does not answer, status, [add -N .], status and diff, cut short after
    the command that failed.  [add -N .] is run exactly when the first
    status succeeded, lists an untracked entry and the cache does not
    answer. *)
Theorem Diff_runs_git (force : bool) (w : World) (h : History) (g : GitWorktree) :
  let run := Diff force w h g in
  let cmds := gitCommands (events run) in
  let base := baseCommitSHA g in
  (exists d, outcome run = Done d) /\
  sameCheckout g (final run) /\
  (forall dir args r, In (EvGit dir args r) (events run) -> dir = worktreePath g) /\
  In cmds [ [statusArgs]; [statusArgs; diffArgs base]; [statusArgs; addArgs];
            [statusArgs; addArgs; statusArgs];
            [statusArgs; addArgs; statusArgs; diffArgs base] ] /\
  (In addArgs cmds <->
   exists out, runGitCommand w h (worktreePath g) statusArgs = Ok out /\
               Contains out "?? " = true /\ cacheHit force out g = None).
Proof.
  cbv zeta. unfold Diff, refreshUntracked, git, cacheHit, statusArgs. unfold_m. cbn.
  repeat (branch; cbn).
  all: (split; [eexists; reflexivity|]).
  all: (split; [unfold sameCheckout; cbn; auto 10|]).
  all: (split; [intros dir args r Hin; split_in;
                match goal with H : _ = EvGit _ _ _ |- _ => now inversion H end|]).
  all: (split; [unfold addArgs, diffArgs; find_in|]).
  all: unfold addArgs; split;
    [ intros Hin; split_in;
      first [ match goal with H : _ = _ :> list string |- _ => discriminate H end
            | eexists; split; [reflexivity|]; split; [assumption|];
              repeat match goal with H : (_ =? _)%string = _ |- _ => rewrite H end;
              reflexivity ]
    | intros (out & Ho & Hc & Hh);
      first [ discriminate Ho
            | injection Ho as Ho; subst out;
              first [ find_in
                    | repeat match goal with
                             | H : (_ =? _)%string = _ |- _ => rewrite H in Hh
                             end;
                      discriminate Hh
                    | congruence ] ] ].
Qed.

(** X21.  [Diff] keeps the cache sound.  On a handle whose cache is sound
    (what it holds was computed without error and its counts are those of
    its content) the cache is sound after [Diff], whatever git answers;
    and stats that [Diff] returns without an error are what the cache
    holds afterwards, with the counts of their content. *)
Theorem Diff_keeps_cache_sound (force : bool) (w : World) (h : History) (g : GitWorktree) :
  cacheSound g ->
  cacheSound (final (Diff force w h g)) /\
  (forall d, outcome (Diff force w h g) = Done d -> Error d = None ->
     lastDiff (final (Diff force w h g)) = Some d /\
     (Added d, Removed d) = countDiffStats (Content d)).
Proof.
  intros Hg. unfold cacheSound at 1.
  unfold Diff, refreshUntracked, git, cacheHit. unfold_m. cbn -[countDiffStats].
  repeat (branch; cbn -[countDiffStats]).
  all: unfold cloneDiffStats, withError; cbn -[countDiffStats].
  all: split;
    [ intros d0 Hd0;
      first [ now apply Hg
            | injection Hd0 as <-; cbn -[countDiffStats]; split; [reflexivity | now symmetry] ]
    | intros d0 Hd0 He; injection Hd0 as <-; try discriminate He ].
  all: first
    [ match goal with
      | H : lastDiff _ = Some ?d |- _ =>
          destruct (Hg _ H); destruct d; cbn -[countDiffStats] in *; split; congruence
      end
    | cbn -[countDiffStats]; split; [reflexivity | now symmetry] ].
Qed.

Lemma Diff_keeps_cache_sound_witness :
  cacheSound soundHandle /\
  cacheSound (final (Diff false calmWorld [] soundHandle)) /\
  lastDiff (final (Diff false calmWorld [] soundHandle)) =
    Some (mkDiffStats sampleDiff 2 1 None).
Proof.
  assert (Hs : cacheSound soundHandle).
  { intros d Hd. injection Hd as <-. split; reflexivity. }
  destruct (Diff_keeps_cache_sound false calmWorld [] soundHandle Hs) as [H1 H2].
  split; [exact Hs|]. split; [exact H1|].
  exact (proj1 (H2 _ eq_refl eq_refl)).
Defined.

(** ** What a diff refresh records *)

(** X22.  What [UpdateDiffStats] records.  On a started session that is not
    paused and has a handle, when the refresh invokes [Diff(force)]: stats
    without an error become the session's stats, the time of the refresh
    is stored and nil is returned; on an error the diff is marked dirty
    again (and the handle's cache dropped), the time of the last refresh
    is kept, and either the stats are cleared and nil is returned (the
    base commit is not set yet) or the stats are kept and the error is
    returned, wrapped. *)
Theorem UpdateDiffStats_records
    (w : World) (h : History) (i : Instance) (now : Time) (g : GitWorktree)
    (force : bool) (stats : DiffStats) :
  started i = true ->
  Status_ i <> Paused ->
  gitWorktree i = Some g ->
  diffCalls (events (UpdateDiffStats now w h i)) = [force] ->
  outcome (Diff force w (EvDiff force :: h) g) = Done stats ->
  let g' := final (Diff force w (EvDiff force :: h) g) in
  let run := UpdateDiffStats now w h i in
  match Error stats with
  | None =>
      outcome run = Done None /\ diffStats (final run) = Some stats /\
      lastDiffCheck (final run) = UnixNano now /\ diffDirty (final run) = false /\
      gitWorktree (final run) = Some g'
  | Some err =>
      diffDirty (final run) = true /\ lastDiffCheck (final run) = lastDiffCheck i /\
      gitWorktree (final run) = Some (InvalidateDiffCache g') /\
      if Contains err "base commit SHA not set"
      then outcome run = Done None /\ diffStats (final run) = None
      else outcome run = Done (Some (wrapErr "failed to get diff stats" err)) /\
           diffStats (final run) = diffStats i
  end.
Proof.
  intros Hs Hp Hg Hcalls Hd.
  assert (Hdec : refreshDecision (diffDirty i) (diffWatcherDisabled i) now (lastDiffCheck i)
                 = Some force).
  { revert Hcalls. unfold UpdateDiffStats, events.
    rewrite !snd_bind. cbn [get modify fst snd app].
    rewrite Hs, (Status_eqb_Paused _ Hp). cbn [negb].
    rewrite snd_bind. cbn [modify fst snd app].
    destruct (refreshDecision _ _ _ _) as [f|]; [|discriminate].
    rewrite snd_bind_silent by apply recordDiff_silent.
    rewrite !app_nil_r, worktreeDiff_calls. now intros [= ->]. }
  cbv zeta. revert Hd.
  unfold UpdateDiffStats, worktreeDiff, recordDiff. unfold_m. cbn -[wrapErr Diff Contains].
  rewrite Hs, (Status_eqb_Paused _ Hp). cbn -[wrapErr Diff Contains].
  rewrite Hdec. cbn -[wrapErr Diff Contains]. rewrite Hg.
  destruct (Diff force w (EvDiff force :: h) g) as [[r g'] ev].
  cbn -[wrapErr Contains]. intros ->. cbn -[wrapErr Contains].
  destruct (Error stats) as [err|]; [destruct (Contains err _)|];
    unfold MarkDiffDirty; cbn -[wrapErr]; auto 10.
Qed.

Lemma UpdateDiffStats_records_witness :
  let run := UpdateDiffStats sixSeconds calmWorld [] runningInstance in
  outcome run = Done None /\
  diffStats (final run) = Some (mkDiffStats sampleDiff 2 1 None) /\
  lastDiffCheck (final run) = 6 * Second.
Proof.
  pose proof (UpdateDiffStats_records calmWorld [] runningInstance sixSeconds cachedHandle
                true (mkDiffStats sampleDiff 2 1 None) eq_refl
                ltac:(discriminate) eq_refl eq_refl eq_refl) as H.
  cbv zeta in *. cbn [Error] in H.
  destruct H as (H1 & H2 & H3 & _).
  exact (conj H1 (conj H2 H3)).
Defined.

(** ** The five-second throttle of the diff refresh *)

Lemma UpdateDiffStats_decides (w : World) (h : History) (i : Instance) (now : Time) :
  started i = true -> Status_ i <> Paused ->
  match refreshDecision (diffDirty i) (diffWatcherDisabled i) now (lastDiffCheck i) with
  | Some f => diffCalls (events (UpdateDiffStats now w h i)) = [f]
  | None => UpdateDiffStats now w h i = (Done None, set_diffDirty false i, [])
  end.
Proof.
  intros Hs Hp.
  destruct (refreshDecision _ _ _ _) as [f|] eqn:Hd.
  - unfold UpdateDiffStats, events.
    rewrite !snd_bind. cbn [get modify fst snd app].
    rewrite Hs, (Status_eqb_Paused _ Hp). cbn [negb].
    rewrite snd_bind. cbn [modify fst snd app]. rewrite Hd.
    rewrite snd_bind_silent by apply recordDiff_silent.
    rewrite !app_nil_r. apply worktreeDiff_calls.
  - unfold UpdateDiffStats. unfold_m. cbn.
    rewrite Hs, (Status_eqb_Paused _ Hp). cbn. rewrite Hd. reflexivity.
Qed.

Lemma UpdateDiffStats_recorded
    (w : World) (h : History) (i : Instance) (now : Time) (g : GitWorktree)
    (force : bool) (stats : DiffStats) :
  started i = true -> Status_ i <> Paused -> gitWorktree i = Some g ->
  diffCalls (events (UpdateDiffStats now w h i)) = [force] ->
  outcome (Diff force w (EvDiff force :: h) g) = Done stats ->
  Error stats = None ->
  final (UpdateDiffStats now w h i) =
    set_lastDiffCheck (UnixNano now)
      (set_diffStats (Some stats)
         (set_gitWorktree (Some (final (Diff force w (EvDiff force :: h) g)))
            (set_diffDirty false i))).
Proof.
  intros Hs Hp Hg Hcalls Hd He.
  pose proof (UpdateDiffStats_decides w h i now Hs Hp) as Hdec.
  destruct (refreshDecision _ _ _ _) as [f|] eqn:Hr.
  - rewrite Hcalls in Hdec. injection Hdec as <-.
    revert Hd. unfold UpdateDiffStats, worktreeDiff, recordDiff. unfold_m.
    cbn -[wrapErr Diff Contains].
    rewrite Hs, (Status_eqb_Paused _ Hp). cbn -[wrapErr Diff Contains].
    rewrite Hr. cbn -[wrapErr Diff Contains]. rewrite Hg.
    destruct (Diff force w (EvDiff force :: h) g) as [[r g'] ev].
    cbn -[wrapErr Contains]. intros ->. cbn -[wrapErr Contains].
    rewrite He. reflexivity.
  - rewrite Hdec in Hcalls. discriminate Hcalls.
Qed.

(** X23.  The refresh is throttled.  After a refresh at [now] that recorded
    stats, a further [UpdateDiffStats] at a later, non-zero time, with the
    diff not marked dirty in between, invokes [Diff] only if five seconds
    of wall-clock time have passed, and then with [force] set; before
    that it does nothing to the world, returns nil and keeps the stats.
    ([now] is an instant that [UnixNano] can represent.) *)
Theorem UpdateDiffStats_throttles
    (w : World) (h : History) (i : Instance) (now later : Time) (g : GitWorktree)
    (force : bool) (stats : DiffStats) :
  started i = true -> Status_ i <> Paused -> gitWorktree i = Some g ->
  diffCalls (events (UpdateDiffStats now w h i)) = [force] ->
  outcome (Diff force w (EvDiff force :: h) g) = Done stats ->
  Error stats = None ->
  int64_range (abs_ns now - unix_epoch_ns) ->
  IsZero later = false ->
  let first := UpdateDiffStats now w h i in
  let second := UpdateDiffStats later w (after h first) (final first) in
  diffCalls (events second) =
    (if 5 * Second <=? abs_ns later - abs_ns now then [true] else []) /\
  (abs_ns later - abs_ns now < 5 * Second ->
   events second = [] /\ outcome second = Done None /\
   diffStats (final second) = Some stats).
Proof.
  intros Hs Hp Hg Hcalls Hd He Hr Hz. cbv zeta.
  rewrite (UpdateDiffStats_recorded w h i now g force stats Hs Hp Hg Hcalls Hd He).
  set (j := set_lastDiffCheck _ _).
  assert (Hj : refreshDecision (diffDirty j) (diffWatcherDisabled j) later (lastDiffCheck j) =
               if 5 * Second <=? abs_ns later - abs_ns now then Some true else None).
  { subst j. cbn [diffDirty diffWatcherDisabled lastDiffCheck set_lastDiffCheck set_diffStats
                  set_gitWorktree set_diffDirty].
    unfold UnixNano. rewrite (wrap64_small _ Hr).
    rewrite refreshDecision_table by exact Hr.
    rewrite Hz. cbn [orb]. unfold Unix0. cbn [abs_ns].
    replace (unix_epoch_ns + (abs_ns now - unix_epoch_ns)) with (abs_ns now) by lia.
    reflexivity. }
  pose proof (UpdateDiffStats_decides w (after h (UpdateDiffStats now w h i)) j later Hs Hp)
    as Hdec.
  rewrite Hj in Hdec.
  destruct (5 * Second <=? abs_ns later - abs_ns now) eqn:Hcmp.
  - split; [exact Hdec|]. intros Hlt. apply Z.leb_le in Hcmp. lia.
  - rewrite Hdec. unfold events, outcome, final. cbn [fst snd rev].
    split; [reflexivity|]. intros _. repeat split.
Qed.

Lemma UpdateDiffStats_throttles_witness :
  let first := UpdateDiffStats sixSeconds calmWorld [] runningInstance in
  let second := UpdateDiffStats eightSeconds calmWorld (after [] first) (final first) in
  diffCalls (events first) = [true] /\
  events second = [] /\
  diffStats (final second) = Some (mkDiffStats sampleDiff 2 1 None).
Proof.
  cbv zeta. split; [reflexivity|].
  assert (Hr : int64_range (abs_ns sixSeconds - unix_epoch_ns)).
  { unfold int64_range, int64_min, int64_max. cbn. lia. }
  destruct (UpdateDiffStats_throttles calmWorld [] runningInstance sixSeconds eightSeconds
              cachedHandle true (mkDiffStats sampleDiff 2 1 None) eq_refl
              ltac:(discriminate) eq_refl eq_refl eq_refl eq_refl Hr eq_refl) as [_ H].
  cbv zeta in H.
  destruct (H ltac:(cbn; lia)) as (H1 & _ & H3).
  exact (conj H1 H3).
Defined.

(** ** The properties at work on the sample sessions *)

Lemma SaveInstances_keeps_the_bytes_witness :
  bytes_of (lastSavedData (final (SaveInstances [] calmWorld [] testStorage))) = jsonEmptyList /\
  pendingData (final (SaveInstances [] calmWorld [] testStorage)) = None.
Proof.
  destruct (SaveInstances_keeps_the_bytes calmWorld [] testStorage [] jsonEmptyList
              eq_refl eq_refl) as [[H|H] _].
  - exact H.
  - destruct H as (_ & _ & _ & H). discriminate H.
Defined.

Lemma SaveInstances_then_Flush_witness :
  let save := SaveInstances [runningInstance] calmWorld [] pendingStorage in
  let flush := Flush calmWorld (after [] save) (final save) in
  storeWrites (events save) = [] /\
  bytes_of (lastSavedData (final flush)) = [Byte.x5b; Byte.x7b; Byte.x5d] /\
  pendingData (final flush) = None.
Proof.
  cbv zeta. split; [reflexivity|].
  refine (SaveInstances_then_Flush calmWorld [] pendingStorage [runningInstance]
            [Byte.x5b; Byte.x7b; Byte.x5d] _ eq_refl eq_refl eq_refl).
  discriminate.
Defined.

Lemma Pause_only_pauses_witness :
  In (EvTmuxDetach None) (events (Pause calmWorld [] runningInstance)) /\
  isPauseStep (EvTmuxDetach None).
Proof.
  assert (H : In (EvTmuxDetach None) (events (Pause calmWorld [] runningInstance))).
  { cbn. tauto. }
  split; [exact H|].
  exact (Pause_only_pauses calmWorld [] runningInstance _ H).
Defined.

Lemma Pause_succeeds_iff_paused_witness :
  outcome (Pause calmWorld [] runningInstance) = Done None /\
  Status_ (final (Pause calmWorld [] runningInstance)) = Paused.
Proof.
  assert (Hp : Status_ runningInstance <> Paused) by discriminate.
  destruct (Pause_succeeds_iff_paused calmWorld [] runningInstance eq_refl Hp) as [[H _] _].
  split; [reflexivity|]. apply H. reflexivity.
Defined.
